(** * SmaweTools: the pyppeteer rendering facade

    A shallow embedding of [smawe_tools/smawe_pyppeteer/smawe_pyppeteer_tool.py]:
    the [PyppeteerRequest] controller (constructor, [init], [request],
    [handle_request], [enabled_interception], [close]) and the
    [PyppeteerResponse] holder with its six accessors.

    Python objects that the module mutates and shares (the caller's [args]
    list, the controller's [_meta_data] dict) live in a store and are
    referred to by address, so that aliasing is visible.  The browser library
    is an environment: it decides what every call returns and whether it
    raises, Python's refusal to await the launch handle a second time
    included; the calls the module issues are recorded in a trace. *)

From stdpp Require Import base strings gmap list pretty.

Local Open Scope string_scope.
Local Open Scope list_scope.

(** ** Python values *)

(** The values that reach the module through keyword arguments or come back
    from the browser library.  [PObj] is any other object (a float, a request
    handle, a cookie list, a header mapping, ...): the module only ever asks
    such an object for its truth value and its [str()], which it carries. *)
Inductive pyval : Type :=
  | PNone
  | PBool (b : bool)
  | PInt (z : Z)
  | PStr (s : string)
  | PEmptyDict
  | PObj (id : nat) (truth : bool) (repr : string).

(** [bool(v)], the test of [if v:]. *)
Definition truthy (v : pyval) : bool :=
  match v with
  | PNone => false
  | PBool b => b
  | PInt z => negb (Z.eqb z 0)
  | PStr s => negb (String.eqb s "")
  | PEmptyDict => false
  | PObj _ truth _ => truth
  end.

(** [str(v)], the text an f-string inserts for [{v}]. *)
Definition py_str (v : pyval) : string :=
  match v with
  | PNone => "None"
  | PBool true => "True"
  | PBool false => "False"
  | PInt z => pretty z
  | PStr s => s
  | PEmptyDict => "{}"
  | PObj _ _ repr => repr
  end.

Definition is_None (v : pyval) : bool :=
  match v with PNone => true | _ => false end.

(** ** Exceptions and results *)

Inductive exn : Type :=
  | KeyError (key : string)
  | TypeError (msg : string)
  | AttributeError (msg : string)
  | TimeoutError (msg : string)      (* pyppeteer.errors.TimeoutError *)
  | RuntimeError (msg : string)      (* e.g. a coroutine object awaited again *)
  | BrowserError (msg : string).     (* any other failure of the library *)

Inductive Res (A : Type) : Type :=
  | Ok (a : A)
  | Raise (e : exn).
Arguments Ok {A} a.
Arguments Raise {A} e.

(** ** Keyword arguments *)

(** [kwargs.pop(key, default)] *)
Definition pop_default (key : string) (dflt : pyval) (kwargs : gmap string pyval)
  : pyval * gmap string pyval :=
  (default dflt (kwargs !! key), delete key kwargs).

(** [kwargs.pop(key)]: a missing key is a [KeyError]. *)
Definition pop (key : string) (kwargs : gmap string pyval)
  : Res pyval * gmap string pyval :=
  match kwargs !! key with
  | Some v => (Ok v, delete key kwargs)
  | None => (Raise (KeyError key), kwargs)
  end.

(** ** The store of mutable objects *)

Definition loc := nat.

Record Store : Type := mkStore {
  lists : gmap loc (list string);          (* list[str] objects *)
  dicts : gmap loc (gmap string pyval)     (* dict objects *)
}.

Definition read_list (st : Store) (l : loc) : list string := default [] (lists st !! l).
Definition write_list (l : loc) (xs : list string) (st : Store) : Store :=
  mkStore (<[l := xs]> (lists st)) (dicts st).
Definition new_list (xs : list string) (st : Store) : loc * Store :=
  let l := fresh (dom (lists st)) in (l, write_list l xs st).

Definition read_dict (st : Store) (l : loc) : gmap string pyval := default ∅ (dicts st !! l).
Definition write_dict (l : loc) (d : gmap string pyval) (st : Store) : Store :=
  mkStore (lists st) (<[l := d]> (dicts st)).
Definition new_dict (d : gmap string pyval) (st : Store) : loc * Store :=
  let l := fresh (dom (dicts st)) in (l, write_dict l d st).

(** [xs.append(x)] on the list object at [l]. *)
Definition list_append (l : loc) (x : string) (st : Store) : Store :=
  write_list l (read_list st l ++ [x]) st.

(** [xs.remove(x)] drops the first element equal to [x]; [None] is the
    [ValueError] of a list that has none. *)
Fixpoint remove_first (x : string) (xs : list string) : option (list string) :=
  match xs with
  | [] => None
  | y :: ys => if String.eqb y x then Some ys
               else option_map (cons y) (remove_first x ys)
  end.

(** [try: xs.remove(x) except ValueError: pass] on the list object at [l]. *)
Definition list_remove_quiet (l : loc) (x : string) (st : Store) : Store :=
  match remove_first x (read_list st l) with
  | Some xs => write_list l xs st
  | None => st
  end.

(** ** Launch arguments *)

Definition disable_infobars : string := "--disable-infobars".
Definition start_maximized : string := "--start-maximized".

(** [f"--window-size={window_width},{window_height}"] *)
Definition window_size_arg (window_width window_height : pyval) : string :=
  ("--window-size=" ++ py_str window_width ++ "," ++ py_str window_height)%string.

Definition is_window_size (s : string) : bool := String.prefix "--window-size=" s.
Definition is_maximize (s : string) : bool := String.eqb s start_maximized.
Definition is_disable_infobars (s : string) : bool := String.eqb s disable_infobars.

(** How often an argument of some kind occurs in an argument list. *)
Definition count (p : string -> bool) (xs : list string) : nat := length (filter (fun s => p s = true) xs).

(** ** The browser library *)

Definition browser := nat.
Definition page := nat.

(** The keyword arguments handed to [pyppeteer.launch(...)].  The call only
    builds the launch handle; nothing runs until the handle is awaited. *)
Record Launcher : Type := mkLauncher {
  headless : pyval;
  executablePath : pyval;
  args : loc;                   (* the list object itself, not a copy *)
  userDataDir : pyval;
  autoClose : pyval
}.

(** What [page.goto] returns, and the placeholder built on a timeout. *)
Module Response.
Record t : Type := mk {
  status : pyval;
  request : pyval;
  headers : pyval
}.
End Response.

(** An outgoing request of the page, as handed to a request listener. *)
Module NetRequest.
Record t : Type := mk {
  id : nat;
  headers : pyval
}.
End NetRequest.

(** The [callable] argument of [request()]. *)
Inductive Handler : Type :=
  | HNone                       (* callable=None, the default *)
  | HFunction (f : nat)         (* def f(request): ... *)
  | HCoroutine (f : nat).       (* async def f(request): ... *)

(** [bool(callable)] *)
Definition handler_truthy (callable : Handler) : bool :=
  match callable with HNone => false | _ => true end.

(** [inspect.iscoroutinefunction(callable)] *)
Definition iscoroutinefunction (callable : Handler) : bool :=
  match callable with HCoroutine _ => true | _ => false end.

(** The two listeners [request()] can attach to the page's "request" event:
    [lambda request: asyncio.ensure_future(self.handle_request(request))] and
    [lambda request: asyncio.ensure_future(callable(request))].  The page
    fires them from its own event loop, detached from the run of
    [request()]; what the default one then does is [handle_request]. *)
Inductive Listener : Type :=
  | DefaultListener
  | UserListener (callable : Handler).

(** Everything the module does to the outside, in the order it does it. *)
Inductive call : Type :=
  | AwaitLaunch (launcher : Launcher)
  | NewPage (b : browser)
  | SetUserAgent (p : page) (ua : string)
  | SetViewport (p : page) (width height : pyval)
  | EvaluateOnNewDocument (p : page) (script : string)
  | SetRequestInterception (p : page) (value : bool)
  | On (p : page) (event : string) (listener : Listener)
  | Goto (p : page) (url : string) (timeout : Z) (waitUntil : string)
  | Sleep (delay : pyval)
  | WaitFor (p : page) (selector : pyval)
  | Evaluate (p : page) (script : pyval)
  | Cookies (p : page)
  | Content (p : page)
  | ClosePage (p : page)
  | CloseBrowser (b : browser)
  | Continue (r : NetRequest.t)
  | Print (line : string).

(** The environment answers every call.  A call is identified by what it is
    and by how many calls were issued before it; [fails] says whether it
    raises, the other fields what it returns when it does not: [page.goto]
    returns a response, or [None] for a navigation that yields none (to
    [about:blank], or to the same page with another fragment).  [SCRIPTS]
    is the script list of the [pretend] package. *)
Record Env : Type := mkEnv {
  fails : nat -> call -> option exn;
  launched : nat -> browser;
  opened : nat -> page;
  navigated : nat -> option Response.t;
  evaluated : nat -> pyval;
  cookies_of : nat -> pyval;
  content_of : nat -> pyval;
  SCRIPTS : list string
}.

(** ** The result holder *)

Module PyppeteerResponse.

Record t : Type := mk {
  meta_data : loc             (* a reference to a dict object *)
}.

(** [PyppeteerResponse(meta_data=...)]; without the keyword the holder
    gets a new empty dict. *)
Definition __init__ (meta_data : option loc) (st : Store) : t * Store :=
  match meta_data with
  | Some l => (mk l, st)
  | None => let '(l, st) := new_dict ∅ st in (mk l, st)
  end.

(** [self.meta_data.get(key)] *)
Definition get (key : string) (st : Store) (self : t) : pyval :=
  default PNone (read_dict st (meta_data self) !! key).

Definition text := get "text".
Definition cookies := get "cookies".
Definition headers := get "headers".
Definition status := get "status".
Definition request := get "request".
Definition script_result := get "script_result".

End PyppeteerResponse.

(** ** The controller *)

Module PyppeteerRequest.

Record t : Type := mkRequest {
  _launcher : Launcher;
  _initialized : bool;
  _browser : option browser;
  _enabled_interception : pyval;
  _meta_data : loc            (* the dict object created by [__init__] *)
}.

(** The constructor, called with keyword arguments only.  The [args]
    keyword is the one keyword whose value is an object the constructor
    mutates; it is passed apart from the scalar keywords: [None] is [args]
    left out or given as [None], [Some l] is the caller's list object at
    address [l]. *)
Definition __init__ (kwargs : gmap string pyval) (args : option loc) (st : Store)
  : t * Store :=
  let '(headless, kwargs) := pop_default "headless" PNone kwargs in
  let '(path, kwargs) := pop_default "path" PNone kwargs in
  let '(user_data_dir, kwargs) := pop_default "user_data_dir" PNone kwargs in
  let '(auto_close, kwargs) := pop_default "auto_close" (PBool true) kwargs in
  let '(window_width, kwargs) := pop_default "window_width" PNone kwargs in
  let '(window_height, kwargs) := pop_default "window_height" PNone kwargs in
  let '(enabled_maximize, kwargs) := pop_default "enabled_maximize" (PBool true) kwargs in
  let auto_close := if truthy headless then PBool true else auto_close in
  let '(args, st) :=
    match args with
    | None => new_list [disable_infobars] st
    | Some l => (l, list_append l disable_infobars st)
    end in
  let st := if truthy enabled_maximize then list_append args start_maximized st else st in
  let st :=
    if truthy window_width && truthy window_height then
      let st := list_append args (window_size_arg window_width window_height) st in
      list_remove_quiet args start_maximized st
    else st in
  let '(meta, st) := new_dict ∅ st in
  (mkRequest (mkLauncher headless path args user_data_dir auto_close)
             false None (PBool false) meta,
   st).

(** The argument list the browser will be launched with. *)
Definition launch_args (st : Store) (self : t) : list string :=
  read_list st (args (_launcher self)).

(** *** Running the methods *)

(** A method runs on the controller, the store and the trace of calls
    issued so far.  It returns a value or raises; either way the state it
    leaves behind stays. *)
Record Run : Type := mkRun {
  self : t;
  store : Store;
  trace : list call
}.

Definition M (A : Type) : Type := Run -> Res A * Run.

Definition ret {A} (a : A) : M A := fun r => (Ok a, r).

Definition bind {A B} (m : M A) (k : A -> M B) : M B :=
  fun r => match m r with
           | (Ok a, r') => k a r'
           | (Raise e, r') => (Raise e, r')
           end.

Definition raise {A} (e : exn) : M A := fun r => (Raise e, r).

Definition lift {A} (x : Res A) : M A := fun r => (x, r).

Definition get_self : M t := fun r => (Ok (self r), r).
Definition set_self (s : t) : M unit := fun r => (Ok tt, mkRun s (store r) (trace r)).

Definition update_store (f : Store -> Store) : M unit :=
  fun r => (Ok tt, mkRun (self r) (f (store r)) (trace r)).

(** [try: m except pyppeteer.errors.TimeoutError as e: handler(str(e))] *)
Definition except_timeout {A} (m : M A) (handler : string -> M A) : M A :=
  fun r => match m r with
           | (Raise (TimeoutError msg), r') => handler msg r'
           | other => other
           end.

Declare Scope run_scope.
Delimit Scope run_scope with run.
Notation "x ← m ; k" := (bind m (fun x => k))
  (at level 20, m at level 100, k at level 200, only parsing) : run_scope.
Notation "m ;; k" := (bind m (fun _ => k))
  (at level 100, k at level 200, only parsing, right associativity) : run_scope.
Local Open Scope run_scope.

Section Methods.

Variable env : Env.

(** A call that cannot fail ([print], [page.on]): it is only recorded. *)
Definition emit (c : call) : M unit :=
  fun r => (Ok tt, mkRun (self r) (store r) (trace r ++ [c])).

(** A call into the library: recorded, then answered by the environment. *)
Definition invoke {A} (c : call) (answer : nat -> A) : M A :=
  fun r =>
    let n := length (trace r) in
    let r' := mkRun (self r) (store r) (trace r ++ [c]) in
    match fails env n c with
    | Some e => (Raise e, r')
    | None => (Ok (answer n), r')
    end.

Definition invoke_ (c : call) : M unit := invoke c (fun _ => tt).

Fixpoint for_each {A} (xs : list A) (body : A -> M unit) : M unit :=
  match xs with
  | [] => ret tt
  | x :: xs => body x ;; for_each xs body
  end.

(** [self._meta_data[key] = v] *)
Definition set_meta (key : string) (v : pyval) : M unit :=
  s ← get_self;
  update_store (fun st => write_dict (_meta_data s) (<[key := v]> (read_dict st (_meta_data s))) st).

(** [init()].  [await self._launcher] is a call into the library, answered
    by the environment: awaited for the first time, the handle starts the
    browser or fails; a coroutine object cannot be awaited a second time,
    which Python reports as a [RuntimeError] and the environment as a
    failing [AwaitLaunch]. *)
Definition init : M unit :=
  s ← get_self;
  if negb (_initialized s) then
    b ← invoke (AwaitLaunch (_launcher s)) (launched env);
    s ← get_self;
    set_self (mkRequest (_launcher s) (_initialized s) (Some b)
                        (_enabled_interception s) (_meta_data s));;
    s ← get_self;
    set_self (mkRequest (_launcher s) true (_browser s)
                        (_enabled_interception s) (_meta_data s))
  else ret tt.

Definition enabled_interception (value : pyval) : M unit :=
  s ← get_self;
  set_self (mkRequest (_launcher s) (_initialized s) (_browser s) value (_meta_data s)).

Definition close (p : page) : M unit :=
  invoke_ (ClosePage p);;
  s ← get_self;
  match _browser s with
  | Some b => invoke_ (CloseBrowser b)
  | None => raise (AttributeError "'NoneType' object has no attribute 'close'")
  end;;
  s ← get_self;
  set_self (mkRequest (_launcher s) false (_browser s)
                      (_enabled_interception s) (_meta_data s)).

(** The default listener body (a static method). *)
Definition handle_request (request : NetRequest.t) : M unit :=
  emit (Print (py_str (NetRequest.headers request)));;
  invoke_ (Continue request).

Definition default_ua : string :=
  "Mozilla/5.0 (Windows NT 10.0; Win64; x64) AppleWebKit/537.36 (KHTML, like Gecko) Chrome/116.0.0.0Safari/537.36".

Definition request (url : string) (ua : option string) (callable : Handler)
           (kwargs : gmap string pyval) : M PyppeteerResponse.t :=
  init;;
  let '(delay, kwargs) := pop_default "delay" PNone kwargs in
  let '(wait_for, kwargs) := pop_default "wait_for" PNone kwargs in
  let '(width, kwargs) := pop "page_width" kwargs in
  width ← lift width;
  let width := if is_None width then PInt 800 else width in
  let '(height, kwargs) := pop "page_height" kwargs in
  height ← lift height;
  let height := if is_None height then PInt 600 else height in
  s ← get_self;
  page ← match _browser s with
         | Some b => invoke (NewPage b) (opened env)
         | None => raise (AttributeError "'NoneType' object has no attribute 'newPage'")
         end;
  match ua with
  | Some ua => invoke_ (SetUserAgent page ua)
  | None => invoke_ (SetUserAgent page default_ua)
  end;;
  invoke_ (SetViewport page width height);;
  let '(pretend, kwargs) := pop_default "pretend" (PBool true) kwargs in
  (if truthy pretend then
     for_each (SCRIPTS env) (fun script => invoke_ (EvaluateOnNewDocument page script))
   else ret tt);;
  let '(interception, kwargs) := pop_default "enabled_interception" (PBool false) kwargs in
  enabled_interception (PBool (truthy interception));;
  s ← get_self;
  (if truthy (_enabled_interception s) then
     invoke_ (SetRequestInterception page true);;
     (if negb (handler_truthy callable) then emit (On page "request" DefaultListener)
      else ret tt);;
     if iscoroutinefunction callable then emit (On page "request" (UserListener callable))
     else raise (TypeError "callable must be coroutine function.")
   else ret tt);;
  response ← except_timeout
               (invoke (Goto page url 30000 "load") (navigated env))
               (fun e =>
                  emit (Print ("Error during page.goto(): " +:+ e));;
                  ret (Some (Response.mk (PInt 504) PNone PEmptyDict)));
  (if negb (is_None delay) then invoke_ (Sleep delay) else ret tt);;
  (if truthy wait_for then invoke_ (WaitFor page wait_for) else ret tt);;
  let '(script, kwargs) := pop_default "script" PNone kwargs in
  script_result ← (if truthy script then invoke (Evaluate page script) (evaluated env)
                   else ret PNone);
  cookies ← invoke (Cookies page) (cookies_of env);
  set_meta "cookies" cookies;;
  text ← invoke (Content page) (content_of env);
  set_meta "text" text;;
  (* [response.status]: [None] has no attributes *)
  response ← lift (match response with
                   | Some response => Ok response
                   | None => Raise (AttributeError "'NoneType' object has no attribute 'status'")
                   end);
  set_meta "status" (Response.status response);;
  set_meta "request" (Response.request response);;
  set_meta "headers" (Response.headers response);;
  set_meta "script_result" script_result;;
  close page;;
  s ← get_self;
  fun r => let '(resp, st) := PyppeteerResponse.__init__ (Some (_meta_data s)) (store r) in
           (Ok resp, mkRun (self r) st (trace r)).

End Methods.

End PyppeteerRequest.

(** ** The one-shot function *)

(** The module-level [get()]: a new controller and one render on it.  The
    parameters after [url] are the ones [get()] names, [None] when left
    out; [kwargs] and [args] go to the constructor.  [get()] always hands
    the page size on, as [None] when it was not given. *)
Definition get (env : Env) (url : string)
           (delay wait_for page_width page_height enabled_interception script : pyval)
           (callable : Handler) (kwargs : gmap string pyval) (args : option loc)
           (st : Store) (trace : list call)
  : Res PyppeteerResponse.t * PyppeteerRequest.Run :=
  let '(pretend, kwargs) := pop_default "pretend" (PBool true) kwargs in
  let '(self, st) := PyppeteerRequest.__init__ kwargs args st in
  PyppeteerRequest.request env url None callable
    (<["delay" := delay]>
       (<["wait_for" := wait_for]>
          (<["page_height" := page_height]>
             (<["page_width" := page_width]>
                (<["pretend" := pretend]>
                   (<["enabled_interception" := enabled_interception]>
                      (<["script" := script]> ∅)))))))
    (PyppeteerRequest.mkRun self st trace).

(** * Vocabulary of the statements *)

(** The list the caller handed in, as it was before the constructor ran. *)
Definition caller_args (args : option loc) (st : Store) : list string :=
  match args with
  | None => []
  | Some l => read_list st l
  end.

(** Whether [window_width] and [window_height] are both set (given and
    truthy), and whether maximising is enabled. *)
Definition window_size_set (kwargs : gmap string pyval) : bool :=
  truthy (default PNone (kwargs !! "window_width"))
  && truthy (default PNone (kwargs !! "window_height")).

Definition maximize_enabled (kwargs : gmap string pyval) : bool :=
  truthy (default (PBool true) (kwargs !! "enabled_maximize")).

(** What the constructor leaves in the argument list, as a function of the
    keyword arguments and of the elements the list had before. *)
Definition built_args (kwargs : gmap string pyval) (before : list string) : list string :=
  let window_width := default PNone (kwargs !! "window_width") in
  let window_height := default PNone (kwargs !! "window_height") in
  let enabled_maximize := default (PBool true) (kwargs !! "enabled_maximize") in
  let xs := before ++ [disable_infobars] in
  let xs := if truthy enabled_maximize then xs ++ [start_maximized] else xs in
  if truthy window_width && truthy window_height then
    let xs := xs ++ [window_size_arg window_width window_height] in
    default xs (remove_first start_maximized xs)
  else xs.

(** Calls that close something, and navigation calls. *)
Definition is_close (c : call) : bool :=
  match c with ClosePage _ | CloseBrowser _ => true | _ => false end.

Definition is_goto (c : call) : bool :=
  match c with Goto _ _ _ _ => true | _ => false end.

(** The six entries [request()] writes into the controller's dict. *)
Definition harvest (cookies text : pyval) (response : Response.t) (script_result : pyval)
           (d : gmap string pyval) : gmap string pyval :=
  <["script_result" := script_result]>
    (<["headers" := Response.headers response]>
       (<["request" := Response.request response]>
          (<["status" := Response.status response]>
             (<["text" := text]> (<["cookies" := cookies]> d))))).

(** The placeholder that stands in for the response after a timeout. *)
Definition timeout_response : Response.t := Response.mk (PInt 504) PNone PEmptyDict.

(** Every call but navigation succeeds. *)
Definition responsive (env : Env) : Prop :=
  ∀ n c, is_goto c = false → fails env n c = None.

(** Navigation to [url] yields a response or runs into its timeout. *)
Definition navigation_returns_or_times_out (env : Env) (url : string) : Prop :=
  ∀ n p, (fails env n (Goto p url 30000 "load") = None ∧ is_Some (navigated env n))
         ∨ ∃ msg, fails env n (Goto p url 30000 "load") = Some (TimeoutError msg).

(** Navigation to [url] always runs into its timeout, with message [msg]. *)
Definition navigation_times_out (env : Env) (url msg : string) : Prop :=
  ∀ n p, fails env n (Goto p url 30000 "load") = Some (TimeoutError msg).

(** A controller that says it is initialised has a browser.  A new
    controller is not initialised, and neither is one whose [request()]
    has returned. *)
Definition well_formed (r : PyppeteerRequest.Run) : Prop :=
  PyppeteerRequest._initialized (PyppeteerRequest.self r) = true →
  is_Some (PyppeteerRequest._browser (PyppeteerRequest.self r)).

(** A computation keeps an observation [f] of the state when [f] reads the
    same before and after, whether the computation returns or raises. *)
Definition keeps {X A} (f : PyppeteerRequest.Run → X) (m : PyppeteerRequest.M A) : Prop :=
  ∀ r res r', m r = (res, r') → f r' = f r.

(** The dict object the controller refers to, and the contents of the store. *)
Definition meta_ref (r : PyppeteerRequest.Run) : loc :=
  PyppeteerRequest._meta_data (PyppeteerRequest.self r).

(** One method call on the controller, in any browser, returning or raising. *)
Inductive method_call : PyppeteerRequest.Run → PyppeteerRequest.Run → Prop :=
  | call_init env r res r' :
      PyppeteerRequest.init env r = (res, r') → method_call r r'
  | call_request env url ua callable kwargs r res r' :
      PyppeteerRequest.request env url ua callable kwargs r = (res, r') → method_call r r'
  | call_enabled_interception value r res r' :
      PyppeteerRequest.enabled_interception value r = (res, r') → method_call r r'
  | call_close env p r res r' :
      PyppeteerRequest.close env p r = (res, r') → method_call r r'
  | call_handle_request env request r res r' :
      PyppeteerRequest.handle_request env request r = (res, r') → method_call r r'.

(** The calls [request()] issues between navigation and [close(page)]. *)
Definition is_after_navigation (c : call) : bool :=
  match c with
  | Sleep _ | WaitFor _ _ | Evaluate _ _ | Cookies _ | Content _ => true
  | _ => false
  end.

(** A computation that, run on an initialised controller, leaves it
    initialised with the same browser and issues no close call, whether it
    returns or raises. *)
Definition stays_open {A} (m : PyppeteerRequest.M A) : Prop :=
  ∀ r res r',
    PyppeteerRequest._initialized (PyppeteerRequest.self r) = true →
    m r = (res, r') →
    PyppeteerRequest._initialized (PyppeteerRequest.self r') = true
    ∧ PyppeteerRequest._browser (PyppeteerRequest.self r')
      = PyppeteerRequest._browser (PyppeteerRequest.self r)
    ∧ ∃ evs, PyppeteerRequest.trace r' = PyppeteerRequest.trace r ++ evs
             ∧ Forall (λ c, is_close c = false) evs.

(** A computation that, run on an initialised controller, stays open in
    this sense or else ends on a close call. *)
Definition closes_last {A} (m : PyppeteerRequest.M A) : Prop :=
  ∀ r res r',
    PyppeteerRequest._initialized (PyppeteerRequest.self r) = true →
    m r = (res, r') →
    ∃ evs, PyppeteerRequest.trace r' = PyppeteerRequest.trace r ++ evs
           ∧ ((PyppeteerRequest._initialized (PyppeteerRequest.self r') = true
               ∧ PyppeteerRequest._browser (PyppeteerRequest.self r')
                 = PyppeteerRequest._browser (PyppeteerRequest.self r)
               ∧ Forall (λ c, is_close c = false) evs)
              ∨ ∃ c, last evs = Some c ∧ is_close c = true).

(** A coroutine object can be awaited once.  [pyppeteer.launch(...)]
    returns one, and [init()] awaits it whenever the controller is not
    initialised: the first time this starts the browser, any later time,
    as after [close(page)], Python answers with [RuntimeError: cannot reuse
    already awaited coroutine].  For a controller whose launch handle has
    been awaited, the browsers to consider are therefore those that refuse
    the launch [init()] would issue next. *)
Definition refuses_relaunch (env : Env) (r : PyppeteerRequest.Run) : Prop :=
  is_Some (fails env (length (PyppeteerRequest.trace r))
                 (AwaitLaunch (PyppeteerRequest._launcher (PyppeteerRequest.self r)))).

(** One method call on a controller whose launch handle has been awaited,
    in any such browser, returning or raising. *)
Inductive later_call : PyppeteerRequest.Run → PyppeteerRequest.Run → Prop :=
  | later_init env r res r' :
      refuses_relaunch env r →
      PyppeteerRequest.init env r = (res, r') → later_call r r'
  | later_request env url ua callable kwargs r res r' :
      refuses_relaunch env r →
      PyppeteerRequest.request env url ua callable kwargs r = (res, r') → later_call r r'
  | later_enabled_interception value r res r' :
      PyppeteerRequest.enabled_interception value r = (res, r') → later_call r r'
  | later_close env p r res r' :
      PyppeteerRequest.close env p r = (res, r') → later_call r r'
  | later_handle_request env request r res r' :
      PyppeteerRequest.handle_request env request r = (res, r') → later_call r r'.

(** * Sample inputs *)

(** A caller that already asks for a maximised window and also gives a size. *)
Definition sized_kwargs : gmap string pyval :=
  <["window_width" := PInt 800]> (<["window_height" := PInt 600]> ∅).
Definition store_with_maximize : Store := mkStore (<[0 := [start_maximized]]> ∅) ∅.

(** A caller whose list already gives a window size. *)
Definition store_with_window_size : Store :=
  mkStore (<[0 := ["--window-size=1024,768"]]> ∅) ∅.

(** A caller whose list already disables the info bars. *)
Definition store_with_infobars : Store := mkStore (<[0 := [disable_infobars]]> ∅) ∅.

(** A headless launch that asks to keep the browser open. *)
Definition headless_kwargs : gmap string pyval :=
  <["headless" := PBool true]> (<["auto_close" := PBool false]> ∅).

Definition sample_response : Response.t :=
  Response.mk (PInt 200) (PObj 1 true "<Request>") (PObj 2 true "{'server': 'nginx'}").

(** A browser in which every call succeeds. *)
Definition quiet_env : Env :=
  {| fails := fun _ _ => None;
     launched := fun _ => 1;
     opened := fun _ => 1;
     navigated := fun _ => Some sample_response;
     evaluated := fun _ => PInt 42;
     cookies_of := fun _ => PObj 3 false "[]";
     content_of := fun _ => PStr "<html></html>";
     SCRIPTS := ["script-1"; "script-2"] |}.

(** The same browser, except that navigation to [url] never finishes. *)
Definition hanging_env (url : string) : Env :=
  {| fails := fun _ c => match c with
                         | Goto _ u _ _ =>
                             if String.eqb u url
                             then Some (TimeoutError "Navigation Timeout Exceeded: 30000 ms exceeded.")
                             else None
                         | _ => None
                         end;
     launched := launched quiet_env;
     opened := opened quiet_env;
     navigated := navigated quiet_env;
     evaluated := evaluated quiet_env;
     cookies_of := cookies_of quiet_env;
     content_of := content_of quiet_env;
     SCRIPTS := SCRIPTS quiet_env |}.

(** A new controller with default settings, before any call. *)
Definition fresh_run : PyppeteerRequest.Run :=
  let r := PyppeteerRequest.__init__ ∅ None (mkStore ∅ ∅) in
  PyppeteerRequest.mkRun r.1 r.2 [].

(** The keyword arguments [get()] passes when called with the URL only. *)
Definition plain_kwargs : gmap string pyval :=
  <["page_width" := PNone]> (<["page_height" := PNone]> ∅).

(** [request(url, enabled_interception=True)] through [get()]: the page
    size is passed as [None], no handler is given. *)
Definition intercepting_kwargs : gmap string pyval :=
  <["enabled_interception" := PBool true]> plain_kwargs.

(** A browser in which the awaited selector never shows up. *)
Definition stuck_selector_env : Env :=
  {| fails := fun _ c => match c with
                         | WaitFor _ _ =>
                             Some (TimeoutError "Waiting for selector failed: timeout 30000ms exceeds.")
                         | _ => None
                         end;
     launched := launched quiet_env;
     opened := opened quiet_env;
     navigated := navigated quiet_env;
     evaluated := evaluated quiet_env;
     cookies_of := cookies_of quiet_env;
     content_of := content_of quiet_env;
     SCRIPTS := SCRIPTS quiet_env |}.

Definition waiting_kwargs : gmap string pyval :=
  <["wait_for" := PStr "#content"]> plain_kwargs.

(** A browser as Python drives it: the launch handle can be awaited once,
    at the very start; awaiting it again is refused.  Navigation to
    [http://slow.test] hangs. *)
Definition one_shot_env : Env :=
  {| fails := fun n c => match c with
                         | AwaitLaunch _ =>
                             if (n =? 0)%nat then None
                             else Some (RuntimeError "cannot reuse already awaited coroutine")
                         | _ => fails (hanging_env "http://slow.test") n c
                         end;
     launched := launched quiet_env;
     opened := opened quiet_env;
     navigated := navigated quiet_env;
     evaluated := evaluated quiet_env;
     cookies_of := cookies_of quiet_env;
     content_of := content_of quiet_env;
     SCRIPTS := SCRIPTS quiet_env |}.

(** A render on a new controller, and a second try on the same controller. *)
Definition first_render :=
  PyppeteerRequest.request one_shot_env "http://fast.test" None HNone plain_kwargs fresh_run.
Definition second_attempt :=
  PyppeteerRequest.request one_shot_env "http://slow.test" None HNone plain_kwargs
                           first_render.2.

(** A browser in which navigation yields no response, as for [about:blank]. *)
Definition blank_env : Env :=
  {| fails := fails quiet_env;
     launched := launched quiet_env;
     opened := opened quiet_env;
     navigated := fun _ => None;
     evaluated := evaluated quiet_env;
     cookies_of := cookies_of quiet_env;
     content_of := content_of quiet_env;
     SCRIPTS := SCRIPTS quiet_env |}.

(** * Vocabulary of the further properties *)

(** The value of a keyword, [dflt] when it was left out. *)
Definition keyword (kwargs : gmap string pyval) (key : string) (dflt : pyval) : pyval :=
  default dflt (kwargs !! key).

(** [dflt if v is None else v] *)
Definition resolve_size (dflt : Z) (v : pyval) : pyval :=
  if is_None v then PInt dflt else v.

(** The call [init()] issues: none on an initialised controller. *)
Definition launch_calls (r : PyppeteerRequest.Run) : list call :=
  if PyppeteerRequest._initialized (PyppeteerRequest.self r) then []
  else [AwaitLaunch (PyppeteerRequest._launcher (PyppeteerRequest.self r))].

(** The calls of a render that returns, from opening the page up to, not
    including, navigation: page, user agent, viewport, the [pretend]
    scripts, and the arming of interception. *)
Definition calls_before_navigation (env : Env) (ua : option string) (callable : Handler)
           (kwargs : gmap string pyval) (b : browser) (p : page) : list call :=
  [NewPage b;
   SetUserAgent p (default PyppeteerRequest.default_ua ua);
   SetViewport p (resolve_size 800 (keyword kwargs "page_width" PNone))
                 (resolve_size 600 (keyword kwargs "page_height" PNone))]
  ++ (if truthy (keyword kwargs "pretend" (PBool true))
      then map (EvaluateOnNewDocument p) (SCRIPTS env) else [])
  ++ (if truthy (keyword kwargs "enabled_interception" (PBool false))
      then [SetRequestInterception p true; On p "request" (UserListener callable)]
      else []).

(** The calls between navigation and [close]: the optional delay, wait and
    script, then the reading of cookies and content. *)
Definition calls_after_navigation (kwargs : gmap string pyval) (p : page) : list call :=
  (if negb (is_None (keyword kwargs "delay" PNone))
   then [Sleep (keyword kwargs "delay" PNone)] else [])
  ++ (if truthy (keyword kwargs "wait_for" PNone)
      then [WaitFor p (keyword kwargs "wait_for" PNone)] else [])
  ++ (if truthy (keyword kwargs "script" PNone)
      then [Evaluate p (keyword kwargs "script" PNone)] else [])
  ++ [Cookies p; Content p].

(** Script evaluations among calls. *)
Definition is_evaluate (c : call) : bool :=
  match c with Evaluate _ _ => true | _ => false end.

(** The calls issued between the state [r] and the later state [r']. *)
Definition calls_since (r r' : PyppeteerRequest.Run) : list call :=
  drop (length (PyppeteerRequest.trace r)) (PyppeteerRequest.trace r').

(** * Sample inputs of the further properties *)

(** A machine on which the browser cannot be started. *)
Definition no_browser_env : Env :=
  {| fails := fun _ c => match c with
                         | AwaitLaunch _ => Some (BrowserError "Browser closed unexpectedly")
                         | _ => None
                         end;
     launched := launched quiet_env;
     opened := opened quiet_env;
     navigated := navigated quiet_env;
     evaluated := evaluated quiet_env;
     cookies_of := cookies_of quiet_env;
     content_of := content_of quiet_env;
     SCRIPTS := SCRIPTS quiet_env |}.

(** A browser whose pages cannot be closed. *)
Definition sticky_page_env : Env :=
  {| fails := fun _ c => match c with
                         | ClosePage _ => Some (BrowserError "Protocol error: Target closed.")
                         | _ => None
                         end;
     launched := launched quiet_env;
     opened := opened quiet_env;
     navigated := navigated quiet_env;
     evaluated := evaluated quiet_env;
     cookies_of := cookies_of quiet_env;
     content_of := content_of quiet_env;
     SCRIPTS := SCRIPTS quiet_env |}.

(** The default controller after a successful [init()]. *)
Definition launched_run : PyppeteerRequest.Run :=
  (PyppeteerRequest.init quiet_env fresh_run).2.

(** A render of one page in the quiet browser. *)
Definition quiet_render :=
  PyppeteerRequest.request quiet_env "http://fast.test" None HNone plain_kwargs fresh_run.

(** A browser whose answers do not depend on when it is asked, and in
    which navigation gives a response. *)
Definition constant_answers (env : Env) (response : Response.t)
           (cookies text value : pyval) : Prop :=
  (∀ n, navigated env n = Some response)
  ∧ (∀ n, cookies_of env n = cookies)
  ∧ (∀ n, content_of env n = text)
  ∧ (∀ n, evaluated env n = value).

(** A render with a delay, a selector to wait for and a script. *)
Definition busy_kwargs : gmap string pyval :=
  <["delay" := PInt 2]>
    (<["wait_for" := PStr "#content"]>
       (<["script" := PStr "document.title"]> plain_kwargs)).
Definition busy_render :=
  PyppeteerRequest.request quiet_env "http://fast.test" (Some "agent/1.0") HNone
                           busy_kwargs fresh_run.

(** Two states that differ at most in the controller's interception flag. *)
Definition same_but_flag (r1 r2 : PyppeteerRequest.Run) : Prop :=
  PyppeteerRequest.store r1 = PyppeteerRequest.store r2
  ∧ PyppeteerRequest.trace r1 = PyppeteerRequest.trace r2
  ∧ PyppeteerRequest._launcher (PyppeteerRequest.self r1)
    = PyppeteerRequest._launcher (PyppeteerRequest.self r2)
  ∧ PyppeteerRequest._initialized (PyppeteerRequest.self r1)
    = PyppeteerRequest._initialized (PyppeteerRequest.self r2)
  ∧ PyppeteerRequest._browser (PyppeteerRequest.self r1)
    = PyppeteerRequest._browser (PyppeteerRequest.self r2)
  ∧ PyppeteerRequest._meta_data (PyppeteerRequest.self r1)
    = PyppeteerRequest._meta_data (PyppeteerRequest.self r2).

(** Two computations that, from such states, end the same way in such states. *)
Definition flag_blind {A} (m1 m2 : PyppeteerRequest.M A) : Prop :=
  ∀ r1 r2, same_but_flag r1 r2 →
           (m1 r1).1 = (m2 r2).1 ∧ same_but_flag (m1 r1).2 (m2 r2).2.

(** What a method can depend on besides the trace and the life-cycle
    fields: the launch handle, the dict reference and the store. *)
Definition core (r : PyppeteerRequest.Run) : Launcher * loc * Store :=
  (PyppeteerRequest._launcher (PyppeteerRequest.self r),
   PyppeteerRequest._meta_data (PyppeteerRequest.self r),
   PyppeteerRequest.store r).

(** The launch handle and the list objects. *)
Definition launch_view (c : Launcher * loc * Store) : Launcher * gmap loc (list string) :=
  (c.1.1, lists c.2).

(** The dict reference and, unless it is the controller's own, the dict at [l]. *)
Definition foreign_dict_view (l : loc) (c : Launcher * loc * Store)
  : loc * option (option (gmap string pyval)) :=
  (c.1.2, if decide (c.1.2 = l) then None else Some (dicts c.2 !! l)).

(** A property of the controller that a computation hands on, whether it
    returns or raises. *)
Definition preserves {A} (P : PyppeteerRequest.t → Prop) (m : PyppeteerRequest.M A) : Prop :=
  ∀ r res r', P (PyppeteerRequest.self r) → m r = (res, r') → P (PyppeteerRequest.self r').

(** [well_formed], read off the controller alone. *)
Definition has_browser_if_initialized (s : PyppeteerRequest.t) : Prop :=
  PyppeteerRequest._initialized s = true → is_Some (PyppeteerRequest._browser s).

(** The keyword arguments [get()] hands to [request()]. *)
Definition forwarded (delay wait_for page_width page_height pretend interception script : pyval)
  : gmap string pyval :=
  <["delay" := delay]>
    (<["wait_for" := wait_for]>
       (<["page_height" := page_height]>
          (<["page_width" := page_width]>
             (<["pretend" := pretend]>
                (<["enabled_interception" := interception]>
                   (<["script" := script]> ∅)))))).

(** The names the constructor binds, and the ones [request()] binds: the
    parameters, then the keywords read out of [kwargs]. *)
Definition constructor_keywords : list string :=
  ["self"; "headless"; "path"; "user_data_dir"; "auto_close"; "window_width";
   "window_height"; "args"; "enabled_maximize"].
Definition request_keywords : list string :=
  ["self"; "url"; "ua"; "callable"; "delay"; "wait_for"; "page_width"; "page_height";
   "pretend"; "enabled_interception"; "script"].

(** A second controller, built after the first one has rendered a page. *)
Definition second_controller : PyppeteerRequest.Run :=
  let c := PyppeteerRequest.__init__ ∅ None (PyppeteerRequest.store quiet_render.2) in
  PyppeteerRequest.mkRun c.1 c.2 [].

(** A browser in which navigation fails at once, for a reason other than
    the timeout. *)
Definition refusing_env : Env :=
  {| fails := fun _ c => match c with
                         | Goto _ _ _ _ =>
                             Some (BrowserError "net::ERR_NAME_NOT_RESOLVED at http://nowhere.test")
                         | _ => None
                         end;
     launched := launched quiet_env;
     opened := opened quiet_env;
     navigated := navigated quiet_env;
     evaluated := evaluated quiet_env;
     cookies_of := cookies_of quiet_env;
     content_of := content_of quiet_env;
     SCRIPTS := SCRIPTS quiet_env |}.

(** A caller that sets the window width only. *)
Definition width_only_kwargs : gmap string pyval := <["window_width" := PInt 1024]> ∅.

(** * Properties *)

(** ** The store *)

Lemma read_write_list l xs st : read_list (write_list l xs st) l = xs.
Proof. unfold read_list, write_list; simpl. by rewrite lookup_insert_eq. Qed.

Lemma read_write_dict l d st : read_dict (write_dict l d st) l = d.
Proof. unfold read_dict, write_dict; simpl. by rewrite lookup_insert_eq. Qed.

Lemma write_write_dict l d d' st : write_dict l d' (write_dict l d st) = write_dict l d' st.
Proof. unfold write_dict; simpl. by rewrite insert_insert_eq. Qed.

Lemma read_list_write_dict l l' d st : read_list (write_dict l d st) l' = read_list st l'.
Proof. reflexivity. Qed.

Lemma read_list_append l x st : read_list (list_append l x st) l = read_list st l ++ [x].
Proof. apply read_write_list. Qed.

Lemma read_list_remove_quiet l x st :
  read_list (list_remove_quiet l x st) l
  = default (read_list st l) (remove_first x (read_list st l)).
Proof.
  unfold list_remove_quiet.
  destruct (remove_first x (read_list st l)) as [ys|]; simpl; [apply read_write_list | done].
Qed.

Lemma new_list_fresh xs st : lists st !! (new_list xs st).1 = None.
Proof. simpl. apply not_elem_of_dom, (is_fresh (dom (lists st))). Qed.

(** ** The constructor's argument list *)

Lemma init_args_alias kwargs l st :
  args (PyppeteerRequest._launcher (PyppeteerRequest.__init__ kwargs (Some l) st).1) = l.
Proof. reflexivity. Qed.

Lemma init_launch_args kwargs given st :
  PyppeteerRequest.launch_args (PyppeteerRequest.__init__ kwargs given st).2
                               (PyppeteerRequest.__init__ kwargs given st).1
  = built_args kwargs (caller_args given st).
Proof.
  unfold PyppeteerRequest.__init__, PyppeteerRequest.launch_args, built_args, pop_default.
  cbv zeta. rewrite !lookup_delete_ne by done.
  set (w := default PNone (kwargs !! "window_width")).
  set (h := default PNone (kwargs !! "window_height")).
  set (em := default (PBool true) (kwargs !! "enabled_maximize")).
  assert (Hstart : ∃ l st1, (match given with
                     | None => new_list [disable_infobars] st
                     | Some l => (l, list_append l disable_infobars st)
                     end) = (l, st1)
                   ∧ read_list st1 l = caller_args given st ++ [disable_infobars]).
  { destruct given as [l|]; simpl.
    - eexists _, _. split; [done|]. apply read_list_append.
    - eexists _, _. split; [done|]. apply read_write_list. }
  destruct Hstart as (l & st1 & -> & Hl). cbn [fst snd PyppeteerRequest._launcher args].
  destruct (truthy em), (truthy w && truthy h); simpl;
    rewrite ?read_list_write_dict, ?read_list_remove_quiet, ?read_list_append, ?Hl; done.
Qed.

Example init_default_args :
  PyppeteerRequest.launch_args
    (snd (PyppeteerRequest.__init__ ∅ None (mkStore ∅ ∅)))
    (fst (PyppeteerRequest.__init__ ∅ None (mkStore ∅ ∅)))
  = ["--disable-infobars"; "--start-maximized"].
Proof. vm_compute. reflexivity. Qed.

(** ** Counting arguments *)

Lemma count_app p xs ys : count p (xs ++ ys) = count p xs + count p ys.
Proof. unfold count. by rewrite filter_app, length_app. Qed.

Lemma count_cons p x xs : count p (x :: xs) = (if p x then 1 else 0) + count p xs.
Proof.
  unfold count. rewrite filter_cons.
  destruct (decide (p x = true)) as [->|Hn]; [done|].
  by destruct (p x).
Qed.

Lemma count_nil p : count p [] = 0.
Proof. reflexivity. Qed.

Lemma count_zero_not_elem p x xs : count p xs = 0 → p x = true → x ∉ xs.
Proof.
  intros Hc Hp Hin. induction xs as [|y ys IH]; [by apply not_elem_of_nil in Hin|].
  rewrite count_cons in Hc. apply elem_of_cons in Hin as [<-|Hin].
  - rewrite Hp in Hc. lia.
  - apply IH; [lia | done].
Qed.

Lemma remove_first_None x xs : remove_first x xs = None → count (fun s => String.eqb s x) xs = 0.
Proof.
  induction xs as [|y ys IH]; simpl; [done|].
  rewrite count_cons. destruct (String.eqb y x); [done|].
  destruct (remove_first x ys); [done|]. intros _. by rewrite IH.
Qed.

Lemma remove_first_Some p x xs ys :
  remove_first x xs = Some ys → count p xs = (if p x then 1 else 0) + count p ys.
Proof.
  revert ys. induction xs as [|y zs IH]; intros ys; simpl; [done|].
  destruct (String.eqb y x) eqn:Heq.
  - intros [= <-]. apply String.eqb_eq in Heq as ->. apply count_cons.
  - destruct (remove_first x zs) as [zs'|]; [|done]. simpl. intros [= <-].
    rewrite !count_cons, (IH zs' eq_refl). lia.
Qed.

(** Removing the first [x] lowers the count of a kind by one when [x] is of
    that kind and occurs, and leaves it alone otherwise. *)
Lemma count_remove_quiet p x xs :
  count p (default xs (remove_first x xs))
  = count p xs - (if p x then Nat.min 1 (count (fun s => String.eqb s x) xs) else 0).
Proof.
  destruct (remove_first x xs) as [ys|] eqn:Hr; simpl.
  - rewrite (remove_first_Some p _ _ _ Hr).
    rewrite (remove_first_Some (fun s => String.eqb s x) _ _ _ Hr), String.eqb_refl.
    destruct (p x); simpl; lia.
  - rewrite (remove_first_None _ _ Hr). destruct (p x); simpl; lia.
Qed.

Lemma prefix_append (p s : string) : String.prefix p (p +:+ s) = true.
Proof.
  induction p as [|a p IH]; simpl; [by destruct s|].
  rewrite IH. by destruct (Ascii.ascii_dec a a).
Qed.

Lemma window_size_arg_is_window_size w h : is_window_size (window_size_arg w h) = true.
Proof. apply prefix_append. Qed.

Lemma window_size_arg_not_maximize w h : is_maximize (window_size_arg w h) = false.
Proof. by vm_compute. Qed.

Lemma window_size_arg_not_infobars w h : is_disable_infobars (window_size_arg w h) = false.
Proof. by vm_compute. Qed.

(** ** The constructor *)

Lemma count_built_infobars kwargs before :
  count is_disable_infobars (built_args kwargs before)
  = count is_disable_infobars before + 1.
Proof.
  unfold built_args.
  destruct (truthy (default (PBool true) (kwargs !! "enabled_maximize")));
  destruct (truthy (default PNone (kwargs !! "window_width")) &&
            truthy (default PNone (kwargs !! "window_height")));
    rewrite ?count_remove_quiet, ?count_app, ?count_cons, ?count_nil,
            ?window_size_arg_not_infobars; simpl; lia.
Qed.

Lemma count_built_window_size kwargs before :
  count is_window_size (built_args kwargs before)
  = count is_window_size before + (if window_size_set kwargs then 1 else 0).
Proof.
  unfold built_args, window_size_set.
  destruct (truthy (default (PBool true) (kwargs !! "enabled_maximize")));
  destruct (truthy (default PNone (kwargs !! "window_width")) &&
            truthy (default PNone (kwargs !! "window_height")));
    rewrite ?count_remove_quiet, ?count_app, ?count_cons, ?count_nil,
            ?window_size_arg_is_window_size; simpl; lia.
Qed.

Lemma count_remove_maximize xs :
  count is_maximize (default xs (remove_first start_maximized xs))
  = count is_maximize xs - Nat.min 1 (count is_maximize xs).
Proof. by rewrite count_remove_quiet. Qed.

Lemma count_built_maximize kwargs before :
  count is_maximize (built_args kwargs before)
  = let n := count is_maximize before + (if maximize_enabled kwargs then 1 else 0) in
    if window_size_set kwargs then n - Nat.min 1 n else n.
Proof.
  unfold built_args, window_size_set, maximize_enabled.
  destruct (truthy (default (PBool true) (kwargs !! "enabled_maximize")));
  destruct (truthy (default PNone (kwargs !! "window_width")) &&
            truthy (default PNone (kwargs !! "window_height")));
    rewrite ?count_remove_maximize, ?count_app, ?count_cons, ?count_nil,
            ?window_size_arg_not_maximize;
    cbn -[Nat.min Nat.sub Nat.add]; lia.
Qed.

Lemma remove_first_keeps x y xs ys :
  remove_first x xs = Some ys → y ≠ x → y ∈ xs → y ∈ ys.
Proof.
  revert ys. induction xs as [|z zs IH]; intros ys; simpl; [done|].
  destruct (String.eqb z x) eqn:Heq.
  - intros [= <-] Hne Hin. apply String.eqb_eq in Heq as ->.
    apply elem_of_cons in Hin as [?|?]; [done|done].
  - destruct (remove_first x zs) as [zs'|]; [|done]. simpl. intros [= <-] Hne Hin.
    apply elem_of_cons in Hin as [->|Hin]; [apply list_elem_of_here|].
    apply list_elem_of_further. by apply IH.
Qed.

Lemma built_args_has_window_size kwargs before :
  window_size_set kwargs = true →
  window_size_arg (default PNone (kwargs !! "window_width"))
                  (default PNone (kwargs !! "window_height")) ∈ built_args kwargs before.
Proof.
  unfold window_size_set, built_args. intros ->.
  set (ws := window_size_arg _ _).
  set (xs := (if truthy _ then _ else _) ++ [ws]).
  assert (Hin : ws ∈ xs) by (apply elem_of_app; right; apply list_elem_of_here).
  destruct (remove_first start_maximized xs) as [ys|] eqn:Hr; simpl; [|done].
  apply (remove_first_keeps _ _ _ _ Hr); [|done].
  intros Heq. pose proof (window_size_arg_not_maximize
    (default PNone (kwargs !! "window_width")) (default PNone (kwargs !! "window_height"))) as Hn.
  fold ws in Hn. rewrite Heq in Hn. by vm_compute in Hn.
Qed.

(** C7, as stated, fails.  A caller whose list already holds a window-size
    argument, and who sets no window dimensions, gets [--start-maximized]
    next to it: the constructor never looks for window-size arguments in
    the caller's list.  And with [args=["--start-maximized"]], the default
    [enabled_maximize] and a 800x600 window, [remove] deletes the caller's
    entry and leaves the one the constructor appended, next to the
    window-size argument. *)
Lemma init_keeps_window_size_with_maximize :
  let r := PyppeteerRequest.__init__ ∅ (Some 0) store_with_window_size in
  let r' := PyppeteerRequest.__init__ sized_kwargs (Some 0) store_with_maximize in
  PyppeteerRequest.launch_args r.2 r.1
    = ["--window-size=1024,768"; "--disable-infobars"; "--start-maximized"]
  ∧ count is_window_size (PyppeteerRequest.launch_args r.2 r.1) = 1
  ∧ count is_maximize (PyppeteerRequest.launch_args r.2 r.1) = 1
  ∧ PyppeteerRequest.launch_args r'.2 r'.1
    = ["--disable-infobars"; "--start-maximized"; "--window-size=800,600"]
  ∧ count is_window_size (PyppeteerRequest.launch_args r'.2 r'.1) = 1
  ∧ count is_maximize (PyppeteerRequest.launch_args r'.2 r'.1) = 1.
Proof. by vm_compute. Qed.

(** C7 (amended): if the caller's list holds no window-size argument and,
    when both window dimensions are set, at most one [--start-maximized]
    reaches the list (the caller's entries plus the one appended when
    [enabled_maximize] is true), then the final argument list never holds
    both a window-size argument and a maximize argument; and when both
    dimensions are set it holds exactly one window-size argument, the one
    built from those values, and no [--start-maximized]. *)
Theorem init_window_size_excludes_maximize kwargs given st :
  count is_window_size (caller_args given st) = 0 →
  (window_size_set kwargs = true →
   (count is_maximize (caller_args given st)
    + (if maximize_enabled kwargs then 1 else 0) ≤ 1)%nat) →
  let r := PyppeteerRequest.__init__ kwargs given st in
  let final := PyppeteerRequest.launch_args r.2 r.1 in
  (count is_window_size final = 0 ∨ count is_maximize final = 0)
  ∧ (window_size_set kwargs = true →
     count is_window_size final = 1
     ∧ window_size_arg (default PNone (kwargs !! "window_width"))
                       (default PNone (kwargs !! "window_height")) ∈ final
     ∧ start_maximized ∉ final).
Proof.
  intros Hws Hmax r final. subst r final. rewrite init_launch_args.
  pose proof (count_built_window_size kwargs (caller_args given st)) as Hc.
  pose proof (count_built_maximize kwargs (caller_args given st)) as Hm.
  cbv zeta in Hm.
  destruct (window_size_set kwargs) eqn:Hset.
  - specialize (Hmax eq_refl).
    assert (Hz : count is_maximize (built_args kwargs (caller_args given st)) = 0) by lia.
    split; [by right|]. intros _. split; [lia|]. split.
    + by apply built_args_has_window_size.
    + by apply (count_zero_not_elem is_maximize).
  - split; [left; lia | done].
Qed.

Lemma init_window_size_excludes_maximize_witness :
  let r := PyppeteerRequest.__init__ sized_kwargs None (mkStore ∅ ∅) in
  let final := PyppeteerRequest.launch_args r.2 r.1 in
  (count is_window_size final = 0 ∨ count is_maximize final = 0)
  ∧ (window_size_set sized_kwargs = true →
     count is_window_size final = 1
     ∧ window_size_arg (default PNone (sized_kwargs !! "window_width"))
                       (default PNone (sized_kwargs !! "window_height")) ∈ final
     ∧ start_maximized ∉ final).
Proof.
  apply (init_window_size_excludes_maximize sized_kwargs None (mkStore ∅ ∅)).
  - reflexivity.
  - intros _. vm_compute. lia.
Defined.

(** C8, as stated, fails: a caller whose list already holds
    [--disable-infobars] gets it twice. *)
Lemma init_duplicates_infobars :
  let r := PyppeteerRequest.__init__ ∅ (Some 0) store_with_infobars in
  PyppeteerRequest.launch_args r.2 r.1
    = ["--disable-infobars"; "--disable-infobars"; "--start-maximized"]
  ∧ count is_disable_infobars (PyppeteerRequest.launch_args r.2 r.1) = 2.
Proof. by vm_compute. Qed.

(** C8 (amended): whatever the headless, maximize, window-size and [args]
    settings, the constructor appends [--disable-infobars] exactly once: the
    final argument list holds it once more than the caller's list did, hence
    exactly once when the caller gives no list or a list without it. *)
Theorem init_appends_infobars_once kwargs given st :
  let r := PyppeteerRequest.__init__ kwargs given st in
  count is_disable_infobars (PyppeteerRequest.launch_args r.2 r.1)
  = count is_disable_infobars (caller_args given st) + 1.
Proof. cbv zeta. rewrite init_launch_args. apply count_built_infobars. Qed.

(** C9: a truthy [headless] forces [autoClose] to [True] in the launch
    configuration, whatever [auto_close] the caller passed. *)
Theorem init_headless_forces_auto_close kwargs given st :
  truthy (default PNone (kwargs !! "headless")) = true →
  autoClose (PyppeteerRequest._launcher (PyppeteerRequest.__init__ kwargs given st).1)
  = PBool true.
Proof.
  intros Hh. unfold PyppeteerRequest.__init__, pop_default. cbv zeta.
  rewrite Hh. by destruct given.
Qed.

Lemma init_headless_forces_auto_close_witness :
  headless_kwargs !! "auto_close" = Some (PBool false)
  ∧ autoClose (PyppeteerRequest._launcher
                 (PyppeteerRequest.__init__ headless_kwargs None (mkStore ∅ ∅)).1)
    = PBool true.
Proof.
  split; [reflexivity|].
  apply (init_headless_forces_auto_close headless_kwargs None (mkStore ∅ ∅)).
  reflexivity.
Defined.

(** C10: the constructor works on the caller's list object itself.  The
    launch handle refers to that very object; afterwards the object holds
    the caller's elements followed by [--disable-infobars], then
    [--start-maximized] if maximising is enabled, then, if both window
    dimensions are set, the window-size argument, with the first
    [--start-maximized] of the whole list removed in that last case; and
    that differs from what the caller put in. *)
Theorem init_mutates_caller_args kwargs l st :
  let r := PyppeteerRequest.__init__ kwargs (Some l) st in
  let before := read_list st l in
  let appended :=
    before ++ [disable_infobars]
           ++ (if maximize_enabled kwargs then [start_maximized] else [])
           ++ (if window_size_set kwargs then
                 [window_size_arg (default PNone (kwargs !! "window_width"))
                                  (default PNone (kwargs !! "window_height"))]
               else []) in
  args (PyppeteerRequest._launcher r.1) = l
  ∧ read_list r.2 l
    = (if window_size_set kwargs
       then default appended (remove_first start_maximized appended)
       else appended)
  ∧ read_list r.2 l ≠ before.
Proof.
  cbv zeta. split; [reflexivity|].
  pose proof (init_launch_args kwargs (Some l) st) as Hargs.
  unfold PyppeteerRequest.launch_args in Hargs. rewrite init_args_alias in Hargs.
  simpl caller_args in Hargs. split.
  - rewrite Hargs. unfold built_args, window_size_set, maximize_enabled.
    destruct (truthy (default (PBool true) (kwargs !! "enabled_maximize")));
    destruct (truthy (default PNone (kwargs !! "window_width")) &&
              truthy (default PNone (kwargs !! "window_height")));
      by rewrite <- ?app_assoc, ?app_nil_r.
  - intros Heq. rewrite Hargs in Heq.
    pose proof (count_built_infobars kwargs (read_list st l)) as Hc.
    rewrite Heq in Hc. lia.
Qed.

(** ** Running the methods *)

Section Running.

Import PyppeteerRequest.
Variable env : Env.

Lemma bind_Ok_inv {A B} (m : M A) (k : A → M B) r b r' :
  bind m k r = (Ok b, r') → ∃ a r1, m r = (Ok a, r1) ∧ k a r1 = (Ok b, r').
Proof.
  unfold bind. destruct (m r) as [[a|e] r1]; [|done]. intros H. by exists a, r1.
Qed.

Lemma bind_run {A B} (m : M A) (k : A → M B) r a r1 :
  m r = (Ok a, r1) → bind m k r = k a r1.
Proof. unfold bind. by intros ->. Qed.

Lemma bind_raise {A B} (m : M A) (k : A → M B) r e r1 :
  m r = (Raise e, r1) → bind m k r = (Raise e, r1).
Proof. unfold bind. by intros ->. Qed.

Lemma bind_assoc {A B C} (m : M A) (k : A → M B) (k' : B → M C) r :
  bind (bind m k) k' r = bind m (λ a, bind (k a) k') r.
Proof. unfold bind. by destruct (m r) as [[a|e] r1]. Qed.

Lemma bind_raise_now {A B} e (k : A → M B) r : bind (raise e) k r = (Raise e, r).
Proof. reflexivity. Qed.

Lemma bind_get_self {B} (k : t → M B) r : bind get_self k r = k (self r) r.
Proof. reflexivity. Qed.

Lemma bind_ret {A B} (a : A) (k : A → M B) r : bind (ret a) k r = k a r.
Proof. reflexivity. Qed.

Lemma bind_lift_Ok {A B} (a : A) (k : A → M B) r : bind (lift (Ok a)) k r = k a r.
Proof. reflexivity. Qed.

Lemma bind_emit {B} c (k : unit → M B) r :
  bind (emit c) k r = k tt (mkRun (self r) (store r) (trace r ++ [c])).
Proof. reflexivity. Qed.

Lemma bind_enabled_interception {B} v (k : unit → M B) r :
  bind (enabled_interception v) k r
  = k tt (mkRun (mkRequest (_launcher (self r)) (_initialized (self r)) (_browser (self r))
                           v (_meta_data (self r)))
                (store r) (trace r)).
Proof. reflexivity. Qed.

Lemma bind_set_meta {B} key v (k : unit → M B) r :
  bind (set_meta key v) k r
  = k tt (mkRun (self r)
                (write_dict (_meta_data (self r))
                            (<[key := v]> (read_dict (store r) (_meta_data (self r))))
                            (store r))
                (trace r)).
Proof. reflexivity. Qed.

Lemma invoke_Ok_inv {A} c (answer : nat → A) r a r' :
  invoke env c answer r = (Ok a, r') →
  fails env (length (trace r)) c = None
  ∧ a = answer (length (trace r))
  ∧ r' = mkRun (self r) (store r) (trace r ++ [c]).
Proof.
  unfold invoke. destruct (fails env (length (trace r)) c); [done|].
  by intros [= <- <-].
Qed.

Lemma invoke_run {A} c (answer : nat → A) r :
  fails env (length (trace r)) c = None →
  invoke env c answer r
  = (Ok (answer (length (trace r))), mkRun (self r) (store r) (trace r ++ [c])).
Proof. unfold invoke. by intros ->. Qed.

(** [init] either finds the controller initialised and does nothing, or
    awaits the launch handle and records the browser. *)
Lemma init_inv r res r1 :
  init env r = (res, r1) →
  store r1 = store r
  ∧ if _initialized (self r)
    then res = Ok tt ∧ self r1 = self r ∧ trace r1 = trace r
    else trace r1 = trace r ++ [AwaitLaunch (_launcher (self r))]
         ∧ match fails env (length (trace r)) (AwaitLaunch (_launcher (self r))) with
           | Some e => res = Raise e ∧ self r1 = self r
           | None =>
               res = Ok tt
               ∧ self r1 = mkRequest (_launcher (self r)) true
                                     (Some (launched env (length (trace r))))
                                     (_enabled_interception (self r))
                                     (_meta_data (self r))
           end.
Proof.
  unfold init. rewrite bind_get_self.
  destruct (_initialized (self r)); simpl.
  - by intros [= <- <-].
  - unfold bind, invoke.
    destruct (fails env (length (trace r)) (AwaitLaunch (_launcher (self r))));
      by intros [= <- <-].
Qed.

(** What [init] leaves alone, whether it returns or raises. *)
Lemma init_frame r res r1 :
  init env r = (res, r1) →
  store r1 = store r
  ∧ _launcher (self r1) = _launcher (self r)
  ∧ _meta_data (self r1) = _meta_data (self r)
  ∧ ∃ evs, trace r1 = trace r ++ evs
           ∧ Forall (λ c, is_close c = false) evs
           ∧ Forall (λ c, is_goto c = false) evs.
Proof.
  intros H. apply init_inv in H as [Hst H]. split; [done|].
  destruct (_initialized (self r)).
  - destruct H as (_ & -> & ->). repeat split. exists []. by rewrite app_nil_r.
  - destruct H as [Htr H].
    assert (Hself : _launcher (self r1) = _launcher (self r)
                    ∧ _meta_data (self r1) = _meta_data (self r)).
    { destruct (fails env _ _); destruct H as [_ ->]; done. }
    destruct Hself as [-> ->]. repeat split.
    exists [AwaitLaunch (_launcher (self r))]. repeat split; [done | |]; by repeat constructor.
Qed.

Lemma for_each_scripts_inv p scripts r res r1 :
  for_each scripts (λ script, invoke_ env (EvaluateOnNewDocument p script)) r = (res, r1) →
  self r1 = self r ∧ store r1 = store r
  ∧ ∃ evs, trace r1 = trace r ++ evs
           ∧ Forall (λ c, ∃ script, c = EvaluateOnNewDocument p script) evs.
Proof.
  revert r. induction scripts as [|s scripts IH]; intros r; simpl.
  - intros [= <- <-]. repeat split. exists []. by rewrite app_nil_r.
  - unfold bind, invoke_, invoke.
    destruct (fails env (length (trace r)) (EvaluateOnNewDocument p s)).
    + intros [= <- <-]. repeat split. exists [EvaluateOnNewDocument p s].
      split; [done|]. repeat constructor. by eexists.
    + intros H. apply IH in H as (-> & -> & evs & -> & Hevs). repeat split.
      exists (EvaluateOnNewDocument p s :: evs). simpl. rewrite <- app_assoc. split; [done|].
      constructor; [by eexists | done].
Qed.

Lemma optional_invoke_Ok_inv (cond : bool) c r u r' :
  (if cond then invoke_ env c else ret tt) r = (Ok u, r') →
  r' = mkRun (self r) (store r) (trace r ++ (if cond then [c] else [])).
Proof.
  destruct cond.
  - intros H. by apply invoke_Ok_inv in H as (_ & _ & ->).
  - intros [= <- <-]. rewrite app_nil_r. by destruct r.
Qed.

Lemma optional_evaluate_Ok_inv (cond : bool) c (answer : nat → pyval) r a r' :
  (if cond then invoke env c answer else ret PNone) r = (Ok a, r') →
  r' = mkRun (self r) (store r) (trace r ++ (if cond then [c] else []))
  ∧ a = (if cond then answer (length (trace r)) else PNone).
Proof.
  destruct cond.
  - intros H. by apply invoke_Ok_inv in H as (_ & -> & ->).
  - intros [= <- <-]. rewrite app_nil_r. by destruct r.
Qed.

(** Navigation either returns, or times out and the handler takes over. *)
Lemma except_timeout_invoke_Ok_inv {A} c (answer : nat → A) handler r a r' :
  except_timeout (invoke env c answer) handler r = (Ok a, r') →
  (fails env (length (trace r)) c = None
   ∧ a = answer (length (trace r))
   ∧ r' = mkRun (self r) (store r) (trace r ++ [c]))
  ∨ (∃ msg, fails env (length (trace r)) c = Some (TimeoutError msg)
            ∧ handler msg (mkRun (self r) (store r) (trace r ++ [c])) = (Ok a, r')).
Proof.
  unfold except_timeout, invoke.
  destruct (fails env (length (trace r)) c) as [[]|]; try done.
  - intros H. right. by eexists.
  - intros [= <- <-]. by left.
Qed.

(** The interception block of [request()]: what it does when it lets the
    call go on. *)
Lemma interception_Ok_inv (enabled : bool) p callable r u r' :
  (if enabled then
     bind (invoke_ env (SetRequestInterception p true))
       (λ _, bind (if negb (handler_truthy callable)
                   then emit (On p "request" DefaultListener) else ret tt)
               (λ _, if iscoroutinefunction callable
                     then emit (On p "request" (UserListener callable))
                     else raise (TypeError "callable must be coroutine function.")))
   else ret tt) r = (Ok u, r') →
  (enabled = true → iscoroutinefunction callable = true)
  ∧ ∃ evs, r' = mkRun (self r) (store r) (trace r ++ evs)
           ∧ Forall (λ c, is_close c = false) evs
           ∧ Forall (λ c, is_goto c = false) evs.
Proof.
  destruct enabled.
  - intros H. apply bind_Ok_inv in H as ([] & r1 & Hset & H).
    apply invoke_Ok_inv in Hset as (_ & _ & ->).
    destruct callable as [|f|f]; simpl in H; try done.
    injection H as <- <-. split; [done|]. eexists. rewrite <- !app_assoc.
    split; [done|]. split; by repeat constructor.
  - intros [= <- <-]. split; [done|]. exists []. rewrite app_nil_r.
    split; [by destruct r|]. split; constructor.
Qed.

Lemma close_Ok_inv p r u r' :
  close env p r = (Ok u, r') →
  ∃ b, _browser (self r) = Some b
       ∧ r' = mkRun (mkRequest (_launcher (self r)) false (Some b)
                               (_enabled_interception (self r)) (_meta_data (self r)))
                    (store r) (trace r ++ [ClosePage p; CloseBrowser b]).
Proof.
  unfold close. intros H.
  apply bind_Ok_inv in H as ([] & r1 & Hp & H).
  apply invoke_Ok_inv in Hp as (_ & _ & ->).
  rewrite bind_get_self in H. cbn [self] in H.
  destruct (_browser (self r)) as [b|] eqn:Hb; [|done].
  apply bind_Ok_inv in H as ([] & r1 & Hbr & H).
  apply invoke_Ok_inv in Hbr as (_ & _ & ->).
  injection H as <- <-. exists b. split; [done|].
  cbn [self store trace]. by rewrite Hb, <- app_assoc.
Qed.

End Running.

(** ** A call of [request()] that returns *)

Section Returning.

Import PyppeteerRequest.
Variable env : Env.

(** Everything that is known once a call has returned. *)
Lemma request_Ok_inv url ua callable kwargs r resp r' :
  request env url ua callable kwargs r = (Ok resp, r') →
  ∃ (b : browser) (p : page) (evs : list call) (response : Response.t)
    (cookies text script_result width height : pyval),
    trace r' = trace r ++ evs ++ [ClosePage p; CloseBrowser b]
    ∧ Forall (λ c, is_close c = false) evs
    ∧ self r' = mkRequest (_launcher (self r)) false (Some b)
                  (PBool (truthy (default (PBool false) (kwargs !! "enabled_interception"))))
                  (_meta_data (self r))
    ∧ resp = PyppeteerResponse.mk (_meta_data (self r))
    ∧ store r' = write_dict (_meta_data (self r))
                   (harvest cookies text response script_result
                            (read_dict (store r) (_meta_data (self r))))
                   (store r)
    ∧ (∃ n,
        (fails env n (Goto p url 30000 "load") = None ∧ navigated env n = Some response)
        ∨ (∃ msg, fails env n (Goto p url 30000 "load") = Some (TimeoutError msg)
                  ∧ response = timeout_response
                  ∧ Print ("Error during page.goto(): " +:+ msg) ∈ evs))
    ∧ (truthy (default (PBool false) (kwargs !! "enabled_interception")) = true →
       iscoroutinefunction callable = true)
    ∧ kwargs !! "page_width" = Some width
    ∧ kwargs !! "page_height" = Some height
    ∧ SetViewport p (if is_None width then PInt 800 else width)
                    (if is_None height then PInt 600 else height) ∈ evs
    ∧ Goto p url 30000 "load" ∈ evs
    ∧ (truthy (default PNone (kwargs !! "script")) = false → script_result = PNone).
Proof.
  intros H. unfold request in H.
  apply bind_Ok_inv in H as ([] & r1 & Hinit & H).
  apply init_frame in Hinit as (Hst1 & Hl1 & Hm1 & evs0 & Htr1 & Hc0 & _).
  unfold pop_default, pop in H. cbv beta iota zeta in H.
  rewrite !lookup_delete_ne in H by done.
  destruct (kwargs !! "page_width") as [width|] eqn:Hwidth; [|done].
  rewrite bind_lift_Ok in H. rewrite !lookup_delete_ne in H by done.
  destruct (kwargs !! "page_height") as [height|] eqn:Hheight; [|done].
  rewrite bind_lift_Ok, bind_get_self in H.
  destruct (_browser (self r1)) as [b|] eqn:Hb; [|done].
  apply bind_Ok_inv in H as (p & r2 & Hnew & H).
  apply invoke_Ok_inv in Hnew as (_ & _ & ->).
  replace (match ua with
           | Some ua => invoke_ env (SetUserAgent p ua)
           | None => invoke_ env (SetUserAgent p default_ua)
           end)
    with (invoke_ env (SetUserAgent p (default default_ua ua))) in H
    by (by destruct ua).
  apply bind_Ok_inv in H as ([] & r2 & Hua & H).
  apply invoke_Ok_inv in Hua as (_ & _ & ->).
  apply bind_Ok_inv in H as ([] & r2 & Hvp & H).
  apply invoke_Ok_inv in Hvp as (_ & _ & ->).
  apply bind_Ok_inv in H as ([] & r3 & Hscripts & H).
  assert (Hr3 : self r3 = self r1 ∧ store r3 = store r1
                ∧ ∃ evs1, trace r3 = trace r1 ++ [NewPage b; SetUserAgent p (default default_ua ua);
                              SetViewport p (if is_None width then PInt 800 else width)
                                          (if is_None height then PInt 600 else height)] ++ evs1
                          ∧ Forall (λ c, is_close c = false) evs1).
  { destruct (truthy _) in Hscripts.
    - apply for_each_scripts_inv in Hscripts as (-> & -> & evs1 & -> & Hevs).
      simpl. repeat split. exists evs1. rewrite <- !app_assoc. split; [done|].
      eapply Forall_impl; [exact Hevs|]. by intros c [script ->].
    - injection Hscripts as <-. repeat split. exists []. by rewrite <- !app_assoc. }
  clear Hscripts. destruct Hr3 as (Hs3 & Hst3 & evs1 & Htr3 & Hc1).
  rewrite bind_enabled_interception, bind_get_self in H.
  rewrite !lookup_delete_ne in H by done.
  cbn [self store trace _enabled_interception truthy] in H.
  set (enabled := truthy (default (PBool false) (kwargs !! "enabled_interception"))) in *.
  apply bind_Ok_inv in H as ([] & r4 & Hint & H).
  apply interception_Ok_inv in Hint as (Hcoro & evs2 & -> & Hc2 & _).
  cbn [self store trace] in H.
  apply bind_Ok_inv in H as (answer & r5 & Hgoto & H).
  assert (Hnav : ∃ evs3,
             r5 = mkRun (mkRequest (_launcher (self r3)) (_initialized (self r3))
                                   (_browser (self r3)) (PBool enabled) (_meta_data (self r3)))
                        (store r3) ((trace r3 ++ evs2) ++ Goto p url 30000 "load" :: evs3)
             ∧ Forall (λ c, is_close c = false) evs3
             ∧ ∃ n, (fails env n (Goto p url 30000 "load") = None
                     ∧ navigated env n = answer)
                    ∨ (∃ msg, fails env n (Goto p url 30000 "load") = Some (TimeoutError msg)
                              ∧ answer = Some timeout_response
                              ∧ Print ("Error during page.goto(): " +:+ msg) ∈ evs3)).
  { apply except_timeout_invoke_Ok_inv in Hgoto as [(Hf & -> & ->)|(msg & Hf & Hh)];
      cbn [self store trace] in *.
    - exists []. split; [done|]. split; [constructor|]. eexists. left. by split.
    - rewrite bind_emit in Hh. injection Hh as <- <-. cbn [self store trace].
      exists [Print ("Error during page.goto(): " +:+ msg)].
      split; [by rewrite <- !app_assoc|]. split; [by repeat constructor|].
      eexists. right. exists msg. split; [done|]. split; [done|]. apply list_elem_of_here. }
  clear Hgoto. destruct Hnav as (evs3 & -> & Hc3 & Hnav).
  apply bind_Ok_inv in H as ([] & r6 & Hsleep & H).
  apply optional_invoke_Ok_inv in Hsleep as ->. cbn [self store trace] in H.
  apply bind_Ok_inv in H as ([] & r6 & Hwait & H).
  apply optional_invoke_Ok_inv in Hwait as ->. cbn [self store trace] in H.
  rewrite ?lookup_delete_ne in H by done.
  apply bind_Ok_inv in H as (script_result & r6 & Hscript & H).
  apply optional_evaluate_Ok_inv in Hscript as [-> Hscript]. cbn [self store trace] in H.
  apply bind_Ok_inv in H as (cookies & r6 & Hcookies & H).
  apply invoke_Ok_inv in Hcookies as (_ & _ & ->). cbn [self store trace] in H.
  rewrite bind_set_meta in H. cbn [self store trace _meta_data] in H.
  apply bind_Ok_inv in H as (text & r6 & Htext & H).
  apply invoke_Ok_inv in Htext as (_ & _ & ->). cbn [self store trace] in H.
  rewrite bind_set_meta in H. cbn [self store trace _meta_data] in H.
  destruct answer as [response|]; [|done].
  rewrite bind_lift_Ok in H.
  rewrite !bind_set_meta in H. cbn [self store trace _meta_data] in H.
  apply bind_Ok_inv in H as ([] & r6 & Hclose & H).
  apply close_Ok_inv in Hclose as (b' & Hb' & ->).
  cbn [self store trace _launcher _browser _enabled_interception _meta_data] in *.
  rewrite bind_get_self in H. injection H as <- <-.
  cbn [self store trace _launcher _browser _enabled_interception _meta_data].
  rewrite Hs3, Hb in Hb'. injection Hb' as <-.
  rewrite Hs3, Hst3, Hl1, Hm1, Hst1, Htr3, Htr1.
  exists b, p,
    (evs0 ++ [NewPage b; SetUserAgent p (default default_ua ua);
              SetViewport p (if is_None width then PInt 800 else width)
                          (if is_None height then PInt 600 else height)]
          ++ evs1 ++ evs2 ++ Goto p url 30000 "load" :: evs3
          ++ (if negb (is_None (default PNone (kwargs !! "delay")))
              then [Sleep (default PNone (kwargs !! "delay"))] else [])
          ++ (if truthy (default PNone (kwargs !! "wait_for"))
              then [WaitFor p (default PNone (kwargs !! "wait_for"))] else [])
          ++ (if truthy (default PNone (kwargs !! "script"))
              then [Evaluate p (default PNone (kwargs !! "script"))] else [])
          ++ [Cookies p; Content p]),
    response, cookies, text, script_result, width, height.
  split; [by repeat (rewrite <- app_assoc; simpl)|].
  split.
  { repeat (rewrite ?Forall_app, ?Forall_cons; repeat split); try done;
      repeat case_match; by repeat constructor. }
  split; [done|]. split; [done|]. split.
  { unfold harvest. by rewrite !read_write_dict, !write_write_dict. }
  split.
  { destruct Hnav as (n & [Hn|(msg & Hf & [= ->] & Hin)]); exists n; [by left|].
    right. exists msg. split; [done|]. split; [done|].
    repeat (rewrite ?elem_of_app, ?elem_of_cons). tauto. }
  split; [done|]. split; [done|]. split; [done|].
  split; [repeat (rewrite ?elem_of_app, ?elem_of_cons); tauto|].
  split; [repeat (rewrite ?elem_of_app, ?elem_of_cons); tauto|].
  intros Hno. by rewrite Hno in Hscript.
Qed.

End Returning.

(** ** Calls in a browser that answers *)

Section Forward.

Import PyppeteerRequest.
Variable env : Env.
Hypothesis Hresp : responsive env.

Lemma bind_invoke_run {A B} c (answer : nat → A) (k : A → M B) r :
  is_goto c = false →
  bind (invoke env c answer) k r
  = k (answer (length (trace r))) (mkRun (self r) (store r) (trace r ++ [c])).
Proof. intros Hc. apply bind_run, invoke_run, Hresp, Hc. Qed.

Lemma for_each_scripts_run p scripts r :
  for_each scripts (λ script, invoke_ env (EvaluateOnNewDocument p script)) r
  = (Ok tt, mkRun (self r) (store r) (trace r ++ map (EvaluateOnNewDocument p) scripts)).
Proof.
  revert r. induction scripts as [|s scripts IH]; intros r; simpl.
  - rewrite app_nil_r. by destruct r.
  - unfold invoke_. rewrite bind_invoke_run by done. rewrite IH.
    cbn [self store trace]. by rewrite <- app_assoc.
Qed.

Lemma init_run r :
  well_formed r →
  ∃ b evs,
    init env r = (Ok tt, mkRun (mkRequest (_launcher (self r)) true (Some b)
                                         (_enabled_interception (self r))
                                         (_meta_data (self r)))
                              (store r) (trace r ++ evs))
    ∧ Forall (λ c, is_goto c = false) evs
    ∧ Forall (λ c, is_close c = false) evs.
Proof.
  intros Hwf. unfold init. rewrite bind_get_self.
  destruct r as [[l i br ei md] st tr]. unfold well_formed in Hwf. simpl in *.
  destruct i; simpl.
  - destruct (Hwf eq_refl) as [b ->]. exists b, []. rewrite app_nil_r. by split.
  - rewrite bind_invoke_run by done. simpl.
    eexists _, [_]. split; [reflexivity|]. split; by repeat constructor.
Qed.

Lemma bind_optional_invoke_run {B} (cond : bool) c (k : unit → M B) r :
  is_goto c = false →
  bind (if cond then invoke_ env c else ret tt) k r
  = k tt (mkRun (self r) (store r) (trace r ++ (if cond then [c] else []))).
Proof.
  intros Hc. destruct cond.
  - unfold invoke_. by rewrite bind_invoke_run.
  - rewrite bind_ret, app_nil_r. by destruct r.
Qed.

Lemma bind_optional_evaluate_run {B} (cond : bool) c answer (k : pyval → M B) r :
  is_goto c = false →
  bind (if cond then invoke env c answer else ret PNone) k r
  = k (if cond then answer (length (trace r)) else PNone)
      (mkRun (self r) (store r) (trace r ++ (if cond then [c] else []))).
Proof.
  intros Hc. destruct cond.
  - by rewrite bind_invoke_run.
  - rewrite bind_ret, app_nil_r. by destruct r.
Qed.

Lemma close_run p r b :
  _browser (self r) = Some b →
  close env p r
  = (Ok tt, mkRun (mkRequest (_launcher (self r)) false (Some b)
                             (_enabled_interception (self r)) (_meta_data (self r)))
                  (store r) (trace r ++ [ClosePage p; CloseBrowser b])).
Proof.
  intros Hb. unfold close, invoke_. rewrite bind_invoke_run by done.
  rewrite bind_get_self. cbn [self store trace]. rewrite Hb.
  rewrite bind_invoke_run by done. rewrite bind_get_self. cbn [self store trace set_self].
  by rewrite Hb, <- app_assoc.
Qed.

(** With interception on, a [callable] that is not a coroutine function
    ends the call with a [TypeError] before any navigation. *)
Lemma request_raises_TypeError url ua callable kwargs r :
  well_formed r →
  is_Some (kwargs !! "page_width") →
  is_Some (kwargs !! "page_height") →
  truthy (default (PBool false) (kwargs !! "enabled_interception")) = true →
  iscoroutinefunction callable = false →
  ∃ r' evs,
    request env url ua callable kwargs r
    = (Raise (TypeError "callable must be coroutine function."), r')
    ∧ trace r' = trace r ++ evs
    ∧ Forall (λ c, is_goto c = false) evs
    ∧ Forall (λ c, is_close c = false) evs
    ∧ _initialized (self r') = true
    ∧ (handler_truthy callable = false → ∃ p, On p "request" DefaultListener ∈ evs).
Proof.
  intros Hwf [width Hwidth] [height Hheight] Hen Hco.
  destruct (init_run r Hwf) as (b & evs0 & Hinit & Hg0 & Hc0).
  unfold request. rewrite (bind_run _ _ _ _ _ Hinit).
  unfold pop_default, pop. cbv beta iota zeta.
  rewrite !lookup_delete_ne by done. rewrite Hwidth, bind_lift_Ok.
  rewrite !lookup_delete_ne by done. rewrite Hheight, bind_lift_Ok, bind_get_self.
  cbn [self store trace _browser].
  rewrite bind_invoke_run by done. cbn [self store trace].
  set (p := opened env (length (trace r ++ evs0))).
  replace (match ua with
           | Some ua => invoke_ env (SetUserAgent p ua)
           | None => invoke_ env (SetUserAgent p default_ua)
           end)
    with (invoke_ env (SetUserAgent p (default default_ua ua))) by (by destruct ua).
  unfold invoke_ at 1 2. do 2 (rewrite bind_invoke_run by done). cbn [self store trace].
  rewrite !lookup_delete_ne by done.
  set (pretend := truthy (default (PBool true) (kwargs !! "pretend"))).
  replace (if pretend
           then for_each (SCRIPTS env) (λ script, invoke_ env (EvaluateOnNewDocument p script))
           else ret ())
    with (for_each (if pretend then SCRIPTS env else [])
                   (λ script, invoke_ env (EvaluateOnNewDocument p script)))
    by (by destruct pretend).
  rewrite (bind_run _ _ _ _ _ (for_each_scripts_run p _ _)). cbn [self store trace].
  rewrite bind_enabled_interception, bind_get_self.
  cbn [self store trace _enabled_interception truthy]. rewrite Hen.
  rewrite bind_assoc. unfold invoke_ at 1. rewrite bind_invoke_run by done.
  cbn [self store trace]. rewrite Hco, bind_assoc.
  destruct (handler_truthy callable) eqn:Htruthy; simpl negb; cbv iota.
  - rewrite bind_ret, bind_raise_now.
    eexists _, _. split; [reflexivity|]. cbn [self store trace _initialized].
    split; [by repeat (rewrite <- app_assoc; simpl)|].
    split; [|split; [|done]];
      repeat (rewrite ?Forall_app, ?Forall_cons, ?Forall_map; repeat split);
      try done; by apply Forall_true.
  - rewrite bind_emit, bind_raise_now.
    eexists _, _. split; [reflexivity|]. cbn [self store trace _initialized].
    split; [by repeat (rewrite <- app_assoc; simpl)|].
    split; [|split; [|split; [done|]]];
      [repeat (rewrite ?Forall_app, ?Forall_cons, ?Forall_map; repeat split);
       try done; by apply Forall_true ..|].
    intros _. exists p. repeat (rewrite ?elem_of_app, ?elem_of_cons). tauto.
Qed.
(** The call returns when nothing but navigation can fail, navigation at
    worst times out, and the interception handler, if needed, is a
    coroutine function. *)
Lemma request_returns url ua callable kwargs r :
  navigation_returns_or_times_out env url →
  well_formed r →
  is_Some (kwargs !! "page_width") →
  is_Some (kwargs !! "page_height") →
  (truthy (default (PBool false) (kwargs !! "enabled_interception")) = true →
   iscoroutinefunction callable = true) →
  ∃ resp r', request env url ua callable kwargs r = (Ok resp, r').
Proof.
  intros Hnav Hwf [width Hwidth] [height Hheight] Hco.
  destruct (init_run r Hwf) as (b & evs0 & Hinit & _ & _).
  unfold request. rewrite (bind_run _ _ _ _ _ Hinit).
  unfold pop_default, pop. cbv beta iota zeta.
  rewrite !lookup_delete_ne by done. rewrite Hwidth, bind_lift_Ok.
  rewrite !lookup_delete_ne by done. rewrite Hheight, bind_lift_Ok, bind_get_self.
  cbn [self store trace _browser].
  rewrite bind_invoke_run by done. cbn [self store trace].
  set (p := opened env (length (trace r ++ evs0))).
  replace (match ua with
           | Some ua => invoke_ env (SetUserAgent p ua)
           | None => invoke_ env (SetUserAgent p default_ua)
           end)
    with (invoke_ env (SetUserAgent p (default default_ua ua))) by (by destruct ua).
  unfold invoke_ at 1 2. do 2 (rewrite bind_invoke_run by done). cbn [self store trace].
  rewrite !lookup_delete_ne by done.
  set (pretend := truthy (default (PBool true) (kwargs !! "pretend"))).
  replace (if pretend
           then for_each (SCRIPTS env) (λ script, invoke_ env (EvaluateOnNewDocument p script))
           else ret ())
    with (for_each (if pretend then SCRIPTS env else [])
                   (λ script, invoke_ env (EvaluateOnNewDocument p script)))
    by (by destruct pretend).
  rewrite (bind_run _ _ _ _ _ (for_each_scripts_run p _ _)). cbn [self store trace].
  rewrite bind_enabled_interception, bind_get_self.
  cbn [self store trace _enabled_interception truthy].
  set (tr := ((((trace r ++ evs0) ++ _) ++ _) ++ _) ++ _).
  assert (Harm : ∃ evs2,
    ∀ B (k : unit → M B) s st,
      bind (if truthy (default (PBool false) (kwargs !! "enabled_interception"))
            then bind (invoke_ env (SetRequestInterception p true))
                   (λ _, bind (if negb (handler_truthy callable)
                               then emit (On p "request" DefaultListener) else ret tt)
                           (λ _, if iscoroutinefunction callable
                                 then emit (On p "request" (UserListener callable))
                                 else raise (TypeError "callable must be coroutine function.")))
            else ret tt) k (mkRun s st tr)
      = k tt (mkRun s st (tr ++ evs2))).
  { destruct (truthy (default (PBool false) (kwargs !! "enabled_interception"))).
    - specialize (Hco eq_refl). destruct callable as [|f|f]; try done.
      eexists. intros B k s st. rewrite bind_assoc. unfold invoke_.
      rewrite bind_invoke_run by done. cbn [self store trace].
      cbn [negb handler_truthy iscoroutinefunction].
      rewrite bind_assoc, bind_ret, bind_emit. cbn [self store trace].
      by rewrite <- app_assoc.
    - exists []. intros B k s st. by rewrite bind_ret, app_nil_r. }
  destruct Harm as [evs2 Harm]. rewrite Harm. clear Harm.
  set (s := mkRequest _ _ _ _ _).
  assert (Hgoto : ∃ response evs3,
    except_timeout (invoke env (Goto p url 30000 "load") (navigated env))
      (λ e, bind (emit (Print ("Error during page.goto(): " +:+ e)))
              (λ _, ret (Some (Response.mk (PInt 504) PNone PEmptyDict))))
      (mkRun s (store r) (tr ++ evs2))
    = (Ok (Some response), mkRun s (store r) ((tr ++ evs2) ++ evs3))).
  { unfold except_timeout, invoke. cbn [self store trace].
    destruct (Hnav (length (tr ++ evs2)) p) as [[-> [response ->]]|[msg ->]].
    - by eexists _, _.
    - rewrite bind_emit. unfold ret. cbn [self store trace]. rewrite <- app_assoc.
      by eexists _, _. }
  destruct Hgoto as (response & evs3 & Hgoto).
  rewrite (bind_run _ _ _ _ _ Hgoto).
  do 2 (rewrite bind_optional_invoke_run by done; cbn [self store trace]).
  rewrite bind_optional_evaluate_run by done. cbn [self store trace].
  rewrite bind_invoke_run by done. cbn [self store trace].
  rewrite bind_set_meta. cbn [self store trace].
  rewrite bind_invoke_run by done. cbn [self store trace].
  rewrite bind_set_meta. cbn [self store trace].
  rewrite bind_lift_Ok.
  rewrite !bind_set_meta. cbn [self store trace].
  erewrite bind_run by (by apply close_run).
  rewrite bind_get_self. by eexists _, _.
Qed.

End Forward.

(** ** What the methods leave alone *)

Create HintDb frame.

Section Frame.

Import PyppeteerRequest.
Variable env : Env.

Section Generic.

Context {X : Type} (f : Run → X).
(** [f] does not look at the trace. *)
Hypothesis f_ignores_trace : ∀ r tr, f (mkRun (self r) (store r) tr) = f r.

Lemma keeps_bind {A B} (m : M A) (k : A → M B) :
  keeps f m → (∀ a, keeps f (k a)) → keeps f (bind m k).
Proof.
  intros Hm Hk r res r'. unfold bind.
  destruct (m r) as [[a|e] r1] eqn:Hrun.
  - intros H. rewrite (Hk a _ _ _ H). by apply (Hm _ _ _ Hrun).
  - intros [= <- <-]. by apply (Hm _ _ _ Hrun).
Qed.

Lemma keeps_ret {A} (a : A) : keeps f (ret a).
Proof. by intros r res r' [= <- <-]. Qed.

Lemma keeps_raise {A} e : keeps f (@raise A e).
Proof. by intros r res r' [= <- <-]. Qed.

Lemma keeps_lift {A} (x : Res A) : keeps f (lift x).
Proof. by intros r res r' [= <- <-]. Qed.

Lemma keeps_get_self : keeps f get_self.
Proof. by intros r res r' [= <- <-]. Qed.

Lemma keeps_emit c : keeps f (emit c).
Proof. intros r res r' [= <- <-]. apply f_ignores_trace. Qed.

Lemma keeps_invoke {A} c (answer : nat → A) : keeps f (invoke env c answer).
Proof.
  intros r res r'. unfold invoke.
  destruct (fails env _ _); intros [= <- <-]; apply f_ignores_trace.
Qed.

Lemma keeps_invoke_ c : keeps f (invoke_ env c).
Proof. apply keeps_invoke. Qed.

Lemma keeps_if {A} (b : bool) (m1 m2 : M A) :
  keeps f m1 → keeps f m2 → keeps f (if b then m1 else m2).
Proof. by destruct b. Qed.

Lemma keeps_for_each {A} (xs : list A) body :
  (∀ x, keeps f (body x)) → keeps f (for_each xs body).
Proof.
  intros Hbody. induction xs as [|x xs IH]; simpl.
  - apply keeps_ret.
  - apply keeps_bind; [apply Hbody | by intros _].
Qed.

Lemma keeps_except_timeout {A} (m : M A) handler :
  keeps f m → (∀ msg, keeps f (handler msg)) → keeps f (except_timeout m handler).
Proof.
  intros Hm Hh r res r'. unfold except_timeout.
  destruct (m r) as [[a|[]] r1] eqn:Hrun;
    try (intros [= <- <-]; by apply (Hm _ _ _ Hrun)).
  intros H. rewrite (Hh _ _ _ _ H). by apply (Hm _ _ _ Hrun).
Qed.

Lemma keeps_handle_request request : keeps f (handle_request env request).
Proof.
  unfold handle_request.
  apply keeps_bind; [apply keeps_emit | intros _; apply keeps_invoke_].
Qed.

End Generic.

(** *** The dict reference *)

Lemma meta_ref_ignores_trace r tr : meta_ref (mkRun (self r) (store r) tr) = meta_ref r.
Proof. reflexivity. Qed.

Lemma keeps_meta_set_meta key v : keeps meta_ref (set_meta key v).
Proof. by intros r res r' [= <- <-]. Qed.

Lemma keeps_meta_enabled_interception v : keeps meta_ref (enabled_interception v).
Proof. by intros r res r' [= <- <-]. Qed.

Lemma keeps_meta_init : keeps meta_ref (init env).
Proof. intros r res r' H. by apply init_frame in H as (_ & _ & ? & _). Qed.

Lemma keeps_meta_close p : keeps meta_ref (close env p).
Proof.
  unfold close.
  apply keeps_bind; [apply keeps_invoke_, meta_ref_ignores_trace|]. intros _.
  apply keeps_bind; [apply keeps_get_self|]. intros s.
  apply keeps_bind.
  { destruct (_browser s);
      [apply keeps_invoke_, meta_ref_ignores_trace | apply keeps_raise]. }
  intros _. by intros r res r' [= <- <-].
Qed.

Hint Resolve keeps_ret keeps_raise keeps_lift keeps_get_self keeps_emit keeps_invoke
     keeps_invoke_ meta_ref_ignores_trace keeps_meta_set_meta
     keeps_meta_enabled_interception keeps_meta_init keeps_meta_close : frame.

Ltac frame_step :=
  first
    [ solve [auto with frame]
    | simple apply keeps_bind; [|intros ?]
    | simple apply keeps_if
    | simple apply keeps_for_each; intros ?
    | simple apply keeps_except_timeout; [|intros ?]
    | match goal with
      | |- context [match ?x with Some _ => _ | None => _ end] => destruct x
      end ].

Lemma keeps_meta_request url ua callable kwargs :
  keeps meta_ref (request env url ua callable kwargs).
Proof.
  unfold request, pop_default, pop. cbv beta iota zeta.
  repeat frame_step; by intros r res r' [= <- <-].
Qed.

(** *** The store *)

Lemma store_ignores_trace r tr : store (mkRun (self r) (store r) tr) = store r.
Proof. reflexivity. Qed.

Lemma keeps_store_init : keeps store (init env).
Proof. intros r res r' H. by apply init_frame in H as (? & _). Qed.

Lemma keeps_store_enabled_interception v : keeps store (enabled_interception v).
Proof. by intros r res r' [= <- <-]. Qed.

Lemma keeps_store_close p : keeps store (close env p).
Proof.
  unfold close.
  apply keeps_bind; [apply keeps_invoke_, store_ignores_trace|]. intros _.
  apply keeps_bind; [apply keeps_get_self|]. intros s.
  apply keeps_bind.
  { destruct (_browser s);
      [apply keeps_invoke_, store_ignores_trace | apply keeps_raise]. }
  intros _. by intros r res r' [= <- <-].
Qed.

Lemma keeps_store_handle_request request : keeps store (handle_request env request).
Proof. apply keeps_handle_request, store_ignores_trace. Qed.

End Frame.

Lemma quiet_env_responsive : responsive quiet_env.
Proof. by intros n c _. Qed.

Lemma fresh_run_well_formed : well_formed fresh_run.
Proof. by intros H. Qed.

Lemma new_controller_well_formed kwargs given st tr :
  well_formed (PyppeteerRequest.mkRun (PyppeteerRequest.__init__ kwargs given st).1
                                      (PyppeteerRequest.__init__ kwargs given st).2 tr).
Proof. intros H. by destruct given. Qed.

Lemma returned_request_well_formed env url ua callable kwargs r resp r' :
  PyppeteerRequest.request env url ua callable kwargs r = (Ok resp, r') → well_formed r'.
Proof.
  intros H. apply request_Ok_inv in H.
  destruct H as (b & p & evs & response & c & t & sr & w & h & H).
  destruct H as (_ & _ & Hself & _). intros Hi. by rewrite Hself in Hi.
Qed.

Lemma hanging_env_responsive url : responsive (hanging_env url).
Proof. intros n c Hc. by destruct c. Qed.

Lemma hanging_env_times_out url :
  navigation_times_out (hanging_env url) url "Navigation Timeout Exceeded: 30000 ms exceeded.".
Proof. intros n p. simpl. by rewrite String.eqb_refl. Qed.

(** ** Where [request()] closes *)

Section Closing.

Import PyppeteerRequest.
Variable env : Env.

Lemma bind_inv {A B} (m : M A) (k : A → M B) r res r' :
  bind m k r = (res, r') →
  (∃ e, m r = (Raise e, r') ∧ res = Raise e)
  ∨ (∃ a r1, m r = (Ok a, r1) ∧ k a r1 = (res, r')).
Proof.
  unfold bind. destruct (m r) as [[a|e] r1].
  - intros H. right. by exists a, r1.
  - intros [= <- <-]. left. by exists e.
Qed.

Lemma init_initialised r : _initialized (self r) = true → init env r = (Ok tt, r).
Proof. intros Hi. unfold init. rewrite bind_get_self, Hi. reflexivity. Qed.

Lemma stays_open_bind {A B} (m : M A) (k : A → M B) :
  stays_open m → (∀ a, stays_open (k a)) → stays_open (bind m k).
Proof.
  intros Hm Hk r res r' Hi. unfold bind.
  destruct (m r) as [[a|e] r1] eqn:Hrun.
  - intros H. destruct (Hm _ _ _ Hi Hrun) as (Hi1 & Hb1 & evs1 & Htr1 & Hc1).
    destruct (Hk a _ _ _ Hi1 H) as (Hi2 & Hb2 & evs2 & Htr2 & Hc2).
    split; [done|]. split; [by rewrite Hb2|].
    exists (evs1 ++ evs2). rewrite Htr2, Htr1, <- app_assoc. split; [done|].
    by apply Forall_app.
  - intros [= <- <-]. by apply (Hm _ _ _ Hi Hrun).
Qed.

Lemma stays_open_silent {A} (m : M A) :
  (∀ r res r', m r = (res, r') →
               _initialized (self r') = _initialized (self r)
               ∧ _browser (self r') = _browser (self r) ∧ trace r' = trace r) →
  stays_open m.
Proof.
  intros Hm r res r' Hi H. destruct (Hm _ _ _ H) as (Hi' & Hb' & Htr).
  split; [by rewrite Hi'|]. split; [done|]. exists []. by rewrite app_nil_r.
Qed.

Lemma stays_open_ret {A} (a : A) : stays_open (ret a).
Proof. apply stays_open_silent. by intros r res r' [= <- <-]. Qed.

Lemma stays_open_raise {A} e : stays_open (@raise A e).
Proof. apply stays_open_silent. by intros r res r' [= <- <-]. Qed.

Lemma stays_open_lift {A} (x : Res A) : stays_open (lift x).
Proof. apply stays_open_silent. by intros r res r' [= <- <-]. Qed.

Lemma stays_open_get_self : stays_open get_self.
Proof. apply stays_open_silent. by intros r res r' [= <- <-]. Qed.

Lemma stays_open_set_meta key v : stays_open (set_meta key v).
Proof. apply stays_open_silent. by intros r res r' [= <- <-]. Qed.

Lemma stays_open_enabled_interception v : stays_open (enabled_interception v).
Proof. apply stays_open_silent. by intros r res r' [= <- <-]. Qed.

Lemma stays_open_init : stays_open (init env).
Proof.
  intros r res r' Hi H. apply init_inv in H as [_ H]. rewrite Hi in H.
  cbv iota in H. destruct H as (_ & Hs & Htr). rewrite Hs. split; [done|]. split; [done|].
  exists []. by rewrite app_nil_r.
Qed.

Lemma stays_open_emit c : is_close c = false → stays_open (emit c).
Proof.
  intros Hc r res r' Hi [= <- <-]. split; [done|]. split; [done|].
  exists [c]. split; [done|]. by repeat constructor.
Qed.

Lemma stays_open_invoke {A} c (answer : nat → A) :
  is_close c = false → stays_open (invoke env c answer).
Proof.
  intros Hc r res r' Hi. unfold invoke.
  destruct (fails env _ _); intros [= <- <-]; (split; [done|]); (split; [done|]);
    exists [c]; (split; [done|]); by repeat constructor.
Qed.

Lemma stays_open_invoke_ c : is_close c = false → stays_open (invoke_ env c).
Proof. apply stays_open_invoke. Qed.

Lemma stays_open_if {A} (b : bool) (m1 m2 : M A) :
  stays_open m1 → stays_open m2 → stays_open (if b then m1 else m2).
Proof. by destruct b. Qed.

Lemma stays_open_for_each {A} (xs : list A) body :
  (∀ x, stays_open (body x)) → stays_open (for_each xs body).
Proof.
  intros Hbody. induction xs as [|x xs IH]; simpl.
  - apply stays_open_ret.
  - apply stays_open_bind; [apply Hbody | by intros _].
Qed.

Lemma stays_open_except_timeout {A} (m : M A) handler :
  stays_open m → (∀ msg, stays_open (handler msg)) → stays_open (except_timeout m handler).
Proof.
  intros Hm Hh r res r' Hi. unfold except_timeout.
  destruct (m r) as [[a|[]] r1] eqn:Hrun;
    try (intros [= <- <-]; by apply (Hm _ _ _ Hi Hrun)).
  intros H. destruct (Hm _ _ _ Hi Hrun) as (Hi1 & Hb1 & evs1 & Htr1 & Hc1).
  destruct (Hh _ _ _ _ Hi1 H) as (Hi2 & Hb2 & evs2 & Htr2 & Hc2).
  split; [done|]. split; [by rewrite Hb2|].
  exists (evs1 ++ evs2). rewrite Htr2, Htr1, <- app_assoc. split; [done|].
  by apply Forall_app.
Qed.

Lemma closes_last_bind {A B} (m : M A) (k : A → M B) :
  stays_open m → (∀ a, closes_last (k a)) → closes_last (bind m k).
Proof.
  intros Hm Hk r res r' Hi. unfold bind.
  destruct (m r) as [[a|e] r1] eqn:Hrun.
  - intros H. destruct (Hm _ _ _ Hi Hrun) as (Hi1 & Hb1 & evs1 & Htr1 & Hc1).
    destruct (Hk a _ _ _ Hi1 H) as (evs2 & Htr2 & Hend).
    exists (evs1 ++ evs2). rewrite Htr2, Htr1, <- app_assoc. split; [done|].
    destruct Hend as [(Hi2 & Hb2 & Hc2)|(c & Hlast & Hc)].
    + left. split; [done|]. split; [by rewrite Hb2|]. by apply Forall_app.
    + right. exists c. split; [|done]. by rewrite last_app, Hlast.
  - intros [= <- <-]. destruct (Hm _ _ _ Hi Hrun) as (Hi1 & Hb1 & evs1 & Htr1 & Hc1).
    exists evs1. split; [done|]. by left.
Qed.

Lemma invoke_state {A} c (answer : nat → A) r res r' :
  invoke env c answer r = (res, r') → r' = mkRun (self r) (store r) (trace r ++ [c]).
Proof. unfold invoke. destruct (fails env _ _); by intros [= <- <-]. Qed.

(** [close(page)], however it ends, has issued a close call last. *)
Lemma close_ends_on_close_call p r res r' :
  close env p r = (res, r') →
  ∃ evs c, trace r' = trace r ++ evs ∧ last evs = Some c ∧ is_close c = true.
Proof.
  unfold close. unfold bind at 1.
  destruct (invoke_ env (ClosePage p) r) as [[[]|e] r1] eqn:Hpage;
    apply invoke_state in Hpage as ->.
  2: { intros [= <- <-]. by exists [ClosePage p], (ClosePage p). }
  rewrite bind_get_self. cbn [self store trace].
  destruct (_browser (self r)) as [b|].
  - unfold bind at 1.
    destruct (invoke_ env (CloseBrowser b) _) as [[[]|e] r1] eqn:Hbrowser;
      apply invoke_state in Hbrowser as ->; cbn [self store trace].
    + rewrite bind_get_self. intros [= <- <-]. cbn [trace].
      exists [ClosePage p; CloseBrowser b], (CloseBrowser b). by rewrite <- app_assoc.
    + intros [= <- <-]. cbn [trace].
      exists [ClosePage p; CloseBrowser b], (CloseBrowser b). by rewrite <- app_assoc.
  - intros [= <- <-]. by exists [ClosePage p], (ClosePage p).
Qed.

(** What follows [close(page)] in [request()] issues no call. *)
Lemma closes_last_close {B} p (k : unit → M B) :
  (∀ a r res r', k a r = (res, r') → trace r' = trace r) →
  closes_last (bind (close env p) k).
Proof.
  intros Hk r res r' _. unfold bind.
  destruct (close env p r) as [[[]|e] r1] eqn:Hclose;
    apply close_ends_on_close_call in Hclose as (evs & c & Htr & Hlast & Hc).
  - intros H. apply Hk in H. exists evs. rewrite H. split; [done|]. right. by exists c.
  - intros [= <- <-]. exists evs. split; [done|]. right. by exists c.
Qed.

Ltac open_step :=
  first
    [ simple apply stays_open_ret
    | simple apply stays_open_raise
    | simple apply stays_open_lift
    | simple apply stays_open_get_self
    | simple apply stays_open_set_meta
    | simple apply stays_open_enabled_interception
    | simple apply stays_open_init
    | simple apply stays_open_emit; reflexivity
    | simple apply stays_open_invoke_; reflexivity
    | simple apply stays_open_invoke; reflexivity
    | simple apply stays_open_bind; [|intros ?]
    | simple apply stays_open_if
    | simple apply stays_open_for_each; intros ?
    | simple apply stays_open_except_timeout; [|intros ?]
    | match goal with
      | |- stays_open (match ?x with Some _ => _ | None => _ end) => destruct x
      end ].

Ltac closing_step :=
  first
    [ simple apply closes_last_close
    | simple apply closes_last_bind; [solve [repeat open_step]|intros ?]
    | match goal with
      | |- context [match ?x with Some _ => _ | None => _ end] => destruct x
      end ].

Lemma closes_last_request url ua callable kwargs :
  closes_last (request env url ua callable kwargs).
Proof.
  unfold request, pop_default, pop. cbv beta iota zeta.
  repeat closing_step; by intros _ r res r' [= <- <-].
Qed.

End Closing.

(** ** The claims about [request()] *)

Section RequestClaims.

Import PyppeteerRequest.

(** The default listener body prints the request's headers and then
    continues the request; it raises only if continuing does. *)
Lemma handle_request_logs_then_continues env request r :
  handle_request env request r
  = (match fails env (S (length (trace r))) (Continue request) with
     | Some e => Raise e
     | None => Ok tt
     end,
     mkRun (self r) (store r)
           (trace r ++ [Print (py_str (NetRequest.headers request)); Continue request])).
Proof.
  unfold handle_request. rewrite bind_emit. unfold invoke_, invoke.
  cbn [self store trace]. rewrite length_app, Nat.add_1_r, <- app_assoc. simpl.
  by destruct (fails env _ _).
Qed.

(** Through [get()] the page size is always handed on: with every
    parameter left out, the render returns and the viewport is 800 by 600. *)
Example get_with_defaults :
  let out := get quiet_env "http://fast.test" PNone PNone PNone PNone PNone PNone HNone
                 ∅ None (mkStore ∅ ∅) [] in
  out.1 = Ok (PyppeteerResponse.mk 0)
  ∧ trace out.2
    = [AwaitLaunch (_launcher (self fresh_run)); NewPage 1; SetUserAgent 1 default_ua;
       SetViewport 1 (PInt 800) (PInt 600);
       EvaluateOnNewDocument 1 "script-1"; EvaluateOnNewDocument 1 "script-2";
       Goto 1 "http://fast.test" 30000 "load"; Cookies 1; Content 1;
       ClosePage 1; CloseBrowser 1].
Proof. by vm_compute. Qed.

(** C1.  With interception enabled and no handler, the default listener is
    attached, but the call then fails: [inspect.iscoroutinefunction(None)]
    is false and the [else] branch raises.  The call never returns a
    response; in a browser that answers, it ends with the [TypeError]
    after attaching the default listener and before navigating. *)
Theorem request_default_handler_raises env url ua kwargs r :
  truthy (default (PBool false) (kwargs !! "enabled_interception")) = true →
  (∀ resp r', request env url ua HNone kwargs r ≠ (Ok resp, r'))
  ∧ (responsive env → well_formed r →
     is_Some (kwargs !! "page_width") → is_Some (kwargs !! "page_height") →
     ∃ r' evs,
       request env url ua HNone kwargs r
       = (Raise (TypeError "callable must be coroutine function."), r')
       ∧ trace r' = trace r ++ evs
       ∧ (∃ p, On p "request" DefaultListener ∈ evs)
       ∧ Forall (λ c, is_goto c = false) evs).
Proof.
  intros Hen. split.
  - intros resp r' H. apply request_Ok_inv in H.
    destruct H as (b & p & evs & response & c & t & sr & w & h & H).
    destruct H as (_ & _ & _ & _ & _ & _ & Hco & _). by specialize (Hco Hen).
  - intros Hresp Hwf Hw Hh.
    destruct (request_raises_TypeError env Hresp url ua HNone kwargs r Hwf Hw Hh Hen eq_refl)
      as (r' & evs & Hrun & Htr & Hg & _ & _ & Hon).
    exists r', evs. repeat split; try done. by apply Hon.
Qed.

Lemma request_default_handler_raises_witness :
  ∃ r' evs,
    request quiet_env "http://fast.test" None HNone intercepting_kwargs fresh_run
    = (Raise (TypeError "callable must be coroutine function."), r')
    ∧ trace r' = trace fresh_run ++ evs
    ∧ (∃ p, On p "request" DefaultListener ∈ evs)
    ∧ Forall (λ c, is_goto c = false) evs.
Proof.
  apply (request_default_handler_raises quiet_env "http://fast.test" None
           intercepting_kwargs fresh_run).
  - reflexivity.
  - exact quiet_env_responsive.
  - exact fresh_run_well_formed.
  - by eexists.
  - by eexists.
Defined.

(** C6.  With interception enabled, an ordinary (synchronous) function as
    handler makes the call fail: it never returns a response, and in a
    browser that answers it ends with the [TypeError] before any
    navigation is issued. *)
Theorem request_rejects_synchronous_handler env url ua f kwargs r :
  truthy (default (PBool false) (kwargs !! "enabled_interception")) = true →
  (∀ resp r', request env url ua (HFunction f) kwargs r ≠ (Ok resp, r'))
  ∧ (responsive env → well_formed r →
     is_Some (kwargs !! "page_width") → is_Some (kwargs !! "page_height") →
     ∃ r' evs,
       request env url ua (HFunction f) kwargs r
       = (Raise (TypeError "callable must be coroutine function."), r')
       ∧ trace r' = trace r ++ evs
       ∧ Forall (λ c, is_goto c = false) evs).
Proof.
  intros Hen. split.
  - intros resp r' H. apply request_Ok_inv in H.
    destruct H as (b & p & evs & response & c & t & sr & w & h & H).
    destruct H as (_ & _ & _ & _ & _ & _ & Hco & _). by specialize (Hco Hen).
  - intros Hresp Hwf Hw Hh.
    destruct (request_raises_TypeError env Hresp url ua (HFunction f) kwargs r
                Hwf Hw Hh Hen eq_refl)
      as (r' & evs & Hrun & Htr & Hg & _).
    by exists r', evs.
Qed.

Lemma request_rejects_synchronous_handler_witness :
  ∃ r' evs,
    request quiet_env "http://fast.test" None (HFunction 0) intercepting_kwargs fresh_run
    = (Raise (TypeError "callable must be coroutine function."), r')
    ∧ trace r' = trace fresh_run ++ evs
    ∧ Forall (λ c, is_goto c = false) evs.
Proof.
  apply (request_rejects_synchronous_handler quiet_env "http://fast.test" None 0
           intercepting_kwargs fresh_run).
  - reflexivity.
  - exact quiet_env_responsive.
  - exact fresh_run_well_formed.
  - by eexists.
  - by eexists.
Defined.

(** C3.  The page size is popped without a default: a call that leaves
    [page_width] (or, with the width given, [page_height]) out never
    returns a response; once the browser is launched it ends with
    [KeyError], in the state [init] left, the browser still open. *)
Theorem request_without_page_size_raises env url ua callable kwargs r :
  kwargs !! "page_width" = None
  ∨ (is_Some (kwargs !! "page_width") ∧ kwargs !! "page_height" = None) →
  ∃ e r',
    request env url ua callable kwargs r = (Raise e, r')
    ∧ ((init env r).1 = Ok tt →
       e = KeyError (match kwargs !! "page_width" with
                     | Some _ => "page_height"
                     | None => "page_width"
                     end)
       ∧ r' = (init env r).2).
Proof.
  intros Hmissing. unfold request. unfold bind at 1.
  destruct (init env r) as [[[]|e] r1].
  - unfold pop_default, pop. cbv beta iota zeta.
    rewrite !lookup_delete_ne by done.
    destruct Hmissing as [->|[[w ->] Hh]].
    + by eexists _, _.
    + rewrite bind_lift_Ok. rewrite !lookup_delete_ne by done. rewrite Hh.
      by eexists _, _.
  - by eexists _, _.
Qed.

Lemma request_without_page_size_raises_witness :
  ∃ e r',
    request quiet_env "http://fast.test" None HNone ∅ fresh_run = (Raise e, r')
    ∧ ((init quiet_env fresh_run).1 = Ok tt →
       e = KeyError "page_width" ∧ r' = (init quiet_env fresh_run).2).
Proof.
  exact (request_without_page_size_raises quiet_env "http://fast.test" None HNone ∅
           fresh_run (or_introl eq_refl)).
Defined.

(** When the launch fails, the call ends there and the store is as it was. *)
Lemma request_stops_when_launch_fails env url ua callable kwargs r e r1 :
  init env r = (Raise e, r1) →
  request env url ua callable kwargs r = (Raise e, r1) ∧ store r1 = store r.
Proof.
  intros Hinit. split.
  - unfold request. by apply bind_raise.
  - by apply init_frame in Hinit as (? & _).
Qed.

(** When the page size is given as [None] and the call returns, the
    viewport was set to 800 by 600. *)
Lemma request_default_viewport env url ua callable kwargs r resp r' :
  kwargs !! "page_width" = Some PNone →
  kwargs !! "page_height" = Some PNone →
  request env url ua callable kwargs r = (Ok resp, r') →
  ∃ p, SetViewport p (PInt 800) (PInt 600) ∈ trace r'.
Proof.
  intros Hw Hh H. apply request_Ok_inv in H.
  destruct H as (b & p & evs & response & c & t & sr & w & h & H).
  destruct H as (Htr & _ & _ & _ & _ & _ & _ & Hw' & Hh' & Hvp & _).
  rewrite Hw in Hw'. rewrite Hh in Hh'. injection Hw' as <-. injection Hh' as <-.
  exists p. rewrite Htr. rewrite !elem_of_app. right. by left.
Qed.

(** C4, as stated, fails: when the awaited selector never shows up,
    [page.waitFor] raises after navigation, the exception leaves
    [request()], and neither the page nor the browser is closed. *)
Lemma request_leaks_browser_when_wait_fails :
  let out := request stuck_selector_env "http://fast.test" None HNone
                     waiting_kwargs fresh_run in
  out.1 = Raise (TimeoutError "Waiting for selector failed: timeout 30000ms exceeds.")
  ∧ trace out.2
    = [AwaitLaunch (_launcher (self fresh_run)); NewPage 1; SetUserAgent 1 default_ua;
       SetViewport 1 (PInt 800) (PInt 600);
       EvaluateOnNewDocument 1 "script-1"; EvaluateOnNewDocument 1 "script-2";
       Goto 1 "http://fast.test" 30000 "load"; WaitFor 1 (PStr "#content")]
  ∧ filter (λ c, is_close c = true) (trace out.2) = []
  ∧ _initialized (self out.2) = true.
Proof. by vm_compute. Qed.

(** C4 (amended).  Whenever [request()] returns, on the normal path as on
    the navigation-timeout path and with or without the optional delay,
    wait and script steps, it has called [close] exactly once: the calls
    it issued end with closing the page it navigated and then the
    controller's browser, no other close call comes before these, and the
    controller is left uninitialised.  A run that got past navigation need
    not return: when it ends in an exception and the last call it issued
    is one of [asyncio.sleep], [page.waitFor], [page.evaluate],
    [page.cookies], [page.content] (the call raised, or [page.goto] had
    returned [None] and reading [response.status] raised), it has issued
    no close call, and the controller is left initialised.  And [request()] does return when the controller is
    initialised only with a browser, the page size is supplied, a handler
    given together with interception is a coroutine function, no call but
    navigation fails, and navigation yields a response or times out. *)
Theorem request_closes_once_when_it_returns env url ua callable kwargs r :
  (∀ resp r',
     request env url ua callable kwargs r = (Ok resp, r') →
     ∃ b p evs,
       trace r' = trace r ++ evs ++ [ClosePage p; CloseBrowser b]
       ∧ Forall (λ c, is_close c = false) evs
       ∧ Goto p url 30000 "load" ∈ evs
       ∧ _browser (self r') = Some b
       ∧ _initialized (self r') = false)
  ∧ (∀ e r' evs c,
       request env url ua callable kwargs r = (Raise e, r') →
       trace r' = trace r ++ evs →
       last evs = Some c →
       is_after_navigation c = true →
       Forall (λ c, is_close c = false) evs
       ∧ _initialized (self r') = true)
  ∧ (responsive env → navigation_returns_or_times_out env url → well_formed r →
     is_Some (kwargs !! "page_width") → is_Some (kwargs !! "page_height") →
     (truthy (default (PBool false) (kwargs !! "enabled_interception")) = true →
      iscoroutinefunction callable = true) →
     ∃ resp r', request env url ua callable kwargs r = (Ok resp, r')).
Proof.
  split; [|split].
  - intros resp r' H. apply request_Ok_inv in H.
    destruct H as (b & p & evs & response & c & t & sr & w & h & H).
    destruct H as (Htr & Hcl & Hself & _ & _ & _ & _ & _ & _ & _ & Hgoto & _).
    exists b, p, evs. rewrite Hself. by repeat split.
  - intros e r' evs c H Htr Hlast Hc.
    unfold request in H. apply bind_inv in H as [(e0 & Hinit & _)|([] & r1 & Hinit & H)].
    + (* [init()] raised: the launch is the only call *)
      apply init_inv in Hinit as [_ Hinit].
      destruct (_initialized (self r)); [by destruct Hinit|].
      destruct Hinit as [Htr1 _]. rewrite Htr in Htr1.
      apply app_inv_head in Htr1 as ->. by injection Hlast as <-.
    + (* [init()] returned: the rest runs on an initialised controller *)
      assert (Hr1 : _initialized (self r1) = true
                    ∧ ∃ evs0, trace r1 = trace r ++ evs0
                              ∧ Forall (λ c, is_after_navigation c = false
                                             ∧ is_close c = false) evs0).
      { apply init_inv in Hinit as [_ Hinit].
        destruct (_initialized (self r)) eqn:Hi.
        - destruct Hinit as (_ & Hs & Htr1). rewrite Hs, Hi. split; [done|].
          exists []. by rewrite app_nil_r.
        - destruct Hinit as [Htr1 Hinit]. split.
          + destruct (fails env _ _); [by destruct Hinit|].
            destruct Hinit as [_ Hs]. by rewrite Hs.
          + eexists. split; [exact Htr1|]. by repeat constructor. }
      destruct Hr1 as (Hi1 & evs0 & Htr1 & Hevs0).
      assert (Hagain : request env url ua callable kwargs r1 = (Raise e, r')).
      { unfold request. by rewrite (bind_run _ _ _ _ _ (init_initialised env r1 Hi1)). }
      apply closes_last_request in Hagain as (evs1 & Htr' & Hend); [|done].
      rewrite Htr1, <- app_assoc in Htr'. rewrite Htr in Htr'.
      apply app_inv_head in Htr' as ->.
      destruct Hend as [(Hi' & _ & Hevs1)|(c' & Hlast' & Hc')].
      * split; [|done]. apply Forall_app. split; [|done].
        eapply Forall_impl; [exact Hevs0|]. by intros c0 [_ ?].
      * rewrite last_app, Hlast' in Hlast. injection Hlast as <-. by destruct c'.
  - intros Hresp. by apply request_returns.
Qed.

Lemma request_closes_once_when_it_returns_witness :
  (∃ resp r',
     request (hanging_env "http://slow.test") "http://slow.test" None HNone
             plain_kwargs fresh_run = (Ok resp, r'))
  ∧ Forall (λ c, is_close c = false)
           (trace (request stuck_selector_env "http://fast.test" None HNone
                           waiting_kwargs fresh_run).2)
  ∧ _initialized (self (request stuck_selector_env "http://fast.test" None HNone
                                waiting_kwargs fresh_run).2) = true.
Proof.
  split.
  - apply (request_closes_once_when_it_returns (hanging_env "http://slow.test")
             "http://slow.test" None HNone plain_kwargs fresh_run).
    + apply hanging_env_responsive.
    + intros n p. right. eexists. apply hanging_env_times_out.
    + exact fresh_run_well_formed.
    + by eexists.
    + by eexists.
    + intros H. by vm_compute in H.
  - apply (proj1 (proj2 (request_closes_once_when_it_returns stuck_selector_env
                           "http://fast.test" None HNone waiting_kwargs fresh_run))
             (TimeoutError "Waiting for selector failed: timeout 30000ms exceeds.")
             _ _ (WaitFor 1 (PStr "#content"))).
    + by vm_compute.
    + reflexivity.
    + by vm_compute.
    + reflexivity.
Defined.

(** The same happens when navigation yields no response: the cookies and
    the text are already written when reading [response.status] raises,
    and nothing is closed. *)
Example request_leaks_browser_when_goto_returns_None :
  let out := request blank_env "about:blank" None HNone plain_kwargs fresh_run in
  out.1 = Raise (AttributeError "'NoneType' object has no attribute 'status'")
  ∧ last (trace out.2) = Some (Content 1)
  ∧ filter (λ c, is_close c = true) (trace out.2) = []
  ∧ _initialized (self out.2) = true
  ∧ PyppeteerResponse.text (store out.2) (PyppeteerResponse.mk (_meta_data (self out.2)))
    = PStr "<html></html>"
  ∧ PyppeteerResponse.status (store out.2) (PyppeteerResponse.mk (_meta_data (self out.2)))
    = PNone.
Proof. by vm_compute. Qed.

Lemma harvest_lookups c t response sr d :
  harvest c t response sr d !! "text" = Some t
  ∧ harvest c t response sr d !! "cookies" = Some c
  ∧ harvest c t response sr d !! "headers" = Some (Response.headers response)
  ∧ harvest c t response sr d !! "status" = Some (Response.status response)
  ∧ harvest c t response sr d !! "request" = Some (Response.request response)
  ∧ harvest c t response sr d !! "script_result" = Some sr.
Proof. unfold harvest. repeat split; by simplify_map_eq. Qed.

(** C5.  When navigation runs into its timeout, and nothing else fails,
    [request()] still returns a response holder: its status is 504, its
    request [None], its headers an empty dict, and the error only shows as
    a printed line. *)
Theorem request_timeout_yields_504 env url msg ua callable kwargs r :
  responsive env →
  navigation_times_out env url msg →
  well_formed r →
  is_Some (kwargs !! "page_width") → is_Some (kwargs !! "page_height") →
  (truthy (default (PBool false) (kwargs !! "enabled_interception")) = true →
   iscoroutinefunction callable = true) →
  ∃ resp r',
    request env url ua callable kwargs r = (Ok resp, r')
    ∧ PyppeteerResponse.status (store r') resp = PInt 504
    ∧ PyppeteerResponse.request (store r') resp = PNone
    ∧ PyppeteerResponse.headers (store r') resp = PEmptyDict
    ∧ Print ("Error during page.goto(): " +:+ msg) ∈ trace r'.
Proof.
  intros Hresp Hto Hwf Hw Hh Hco.
  destruct (request_returns env Hresp url ua callable kwargs r) as (resp & r' & Hrun);
    try done.
  { intros n p. right. by exists msg. }
  exists resp, r'. split; [done|].
  apply request_Ok_inv in Hrun.
  destruct Hrun as (b & p & evs & response & c & t & sr & w & h & H).
  destruct H as (Htr & _ & _ & -> & Hst & (n & Hnav) & _).
  destruct Hnav as [[Hf _]|(msg' & Hf & -> & Hin)]; rewrite Hto in Hf; [done|].
  injection Hf as <-.
  unfold PyppeteerResponse.status, PyppeteerResponse.request, PyppeteerResponse.headers,
    PyppeteerResponse.get. cbn [PyppeteerResponse.meta_data].
  rewrite Hst, read_write_dict.
  destruct (harvest_lookups c t timeout_response sr
              (read_dict (store r) (_meta_data (self r))))
    as (_ & _ & -> & -> & -> & _).
  repeat split. rewrite Htr, !elem_of_app. right. by left.
Qed.

Lemma request_timeout_yields_504_witness :
  ∃ resp r',
    request (hanging_env "http://slow.test") "http://slow.test" None HNone
            plain_kwargs fresh_run = (Ok resp, r')
    ∧ PyppeteerResponse.status (store r') resp = PInt 504
    ∧ PyppeteerResponse.request (store r') resp = PNone
    ∧ PyppeteerResponse.headers (store r') resp = PEmptyDict
    ∧ Print ("Error during page.goto(): "
             +:+ "Navigation Timeout Exceeded: 30000 ms exceeded.") ∈ trace r'.
Proof.
  apply (request_timeout_yields_504 (hanging_env "http://slow.test") "http://slow.test"
           "Navigation Timeout Exceeded: 30000 ms exceeded." None HNone
           plain_kwargs fresh_run).
  - apply hanging_env_responsive.
  - apply hanging_env_times_out.
  - exact fresh_run_well_formed.
  - by eexists.
  - by eexists.
  - intros H. by vm_compute in H.
Defined.

End RequestClaims.

(** ** The response holder *)

Section ResponseClaims.

Import PyppeteerRequest.

Lemma init_refused env r :
  _initialized (self r) = false → refuses_relaunch env r →
  ∃ e, init env r
       = (Raise e, mkRun (self r) (store r) (trace r ++ [AwaitLaunch (_launcher (self r))])).
Proof.
  intros Hi [e He]. exists e. unfold init. rewrite bind_get_self, Hi. cbn [negb].
  unfold bind, invoke. by rewrite He.
Qed.

Lemma close_keeps_uninitialized env p r res r' :
  close env p r = (res, r') → _initialized (self r) = false → _initialized (self r') = false.
Proof.
  unfold close. intros H Hi.
  apply bind_inv in H as [(e & H & _)|([] & r1 & Hpage & H)].
  { apply invoke_state in H as ->. done. }
  apply invoke_state in Hpage as ->. rewrite bind_get_self in H. cbn [self] in H.
  destruct (_browser (self r)) as [b|].
  - apply bind_inv in H as [(e & H & _)|([] & r1 & Hbrowser & H)].
    { apply invoke_state in H as ->. done. }
    apply invoke_state in Hbrowser as ->. rewrite bind_get_self in H.
    by injection H as _ <-.
  - by injection H as _ <-.
Qed.

(** A controller whose launch handle is used up cannot render again, and
    nothing it is asked to do writes to the store. *)
Lemma later_call_writes_nothing r r' :
  later_call r r' → _initialized (self r) = false →
  _initialized (self r') = false ∧ store r' = store r.
Proof.
  intros [env ? res ? Href H|env url ua callable kwargs ? res ? Href H|value ? res ? H
         |env p ? res ? H|env request ? res ? H] Hi.
  - destruct (init_refused env _ Hi Href) as [e He]. rewrite He in H.
    by injection H as _ <-.
  - destruct (init_refused env _ Hi Href) as [e He].
    unfold request in H. rewrite (bind_raise _ _ _ _ _ He) in H. by injection H as _ <-.
  - by injection H as _ <-.
  - split; [by apply (close_keeps_uninitialized _ _ _ _ _ H)|].
    by apply keeps_store_close in H.
  - split; [|by apply keeps_store_handle_request in H].
    unfold handle_request in H. rewrite bind_emit in H.
    apply invoke_state in H as ->. done.
Qed.

(** C2.  A response holder returned by [request()] keeps its values: the
    call has left the controller uninitialised, with its launch handle
    awaited, so that whatever is called on the controller afterwards, a
    further [request()] included, writes nothing to the store, and each
    of the six accessors keeps returning what it returned when the holder
    was handed out.  A further [request()] in particular never returns:
    it ends in [init()], with the error of the refused launch. *)
Theorem response_keeps_captured_values env url ua callable kwargs r0 resp r1 r :
  request env url ua callable kwargs r0 = (Ok resp, r1) →
  rtc later_call r1 r →
  (PyppeteerResponse.text (store r) resp = PyppeteerResponse.text (store r1) resp
   ∧ PyppeteerResponse.cookies (store r) resp = PyppeteerResponse.cookies (store r1) resp
   ∧ PyppeteerResponse.headers (store r) resp = PyppeteerResponse.headers (store r1) resp
   ∧ PyppeteerResponse.status (store r) resp = PyppeteerResponse.status (store r1) resp
   ∧ PyppeteerResponse.request (store r) resp = PyppeteerResponse.request (store r1) resp
   ∧ PyppeteerResponse.script_result (store r) resp
     = PyppeteerResponse.script_result (store r1) resp)
  ∧ (∀ env' url' ua' callable' kwargs' res r',
       refuses_relaunch env' r →
       request env' url' ua' callable' kwargs' r = (res, r') →
       (∃ e, res = Raise e) ∧ store r' = store r).
Proof.
  intros Hfirst Hlater.
  assert (Hi1 : _initialized (self r1) = false).
  { apply request_Ok_inv in Hfirst.
    destruct Hfirst as (b & p & evs & response & c & t & sr & w & h & H).
    destruct H as (_ & _ & Hself & _). by rewrite Hself. }
  assert (Hinv : _initialized (self r) = false ∧ store r = store r1).
  { clear Hfirst. induction Hlater as [|r1 r2 r Hstep _ IH]; [done|].
    destruct (later_call_writes_nothing _ _ Hstep Hi1) as [Hi2 Hst2].
    destruct (IH Hi2) as [Hi Hst]. split; [done|]. by rewrite Hst. }
  destruct Hinv as [Hi Hst]. split; [by rewrite Hst|].
  intros env' url' ua' callable' kwargs' res r' Href H.
  destruct (init_refused env' _ Hi Href) as [e He].
  unfold request in H. rewrite (bind_raise _ _ _ _ _ He) in H.
  injection H as <- <-. split; [by exists e|done].
Qed.

Lemma response_keeps_captured_values_witness :
  let resp := PyppeteerResponse.mk 0 in
  PyppeteerResponse.text (store second_attempt.2) resp
  = PyppeteerResponse.text (store first_render.2) resp
  ∧ PyppeteerResponse.cookies (store second_attempt.2) resp
    = PyppeteerResponse.cookies (store first_render.2) resp
  ∧ PyppeteerResponse.headers (store second_attempt.2) resp
    = PyppeteerResponse.headers (store first_render.2) resp
  ∧ PyppeteerResponse.status (store second_attempt.2) resp
    = PyppeteerResponse.status (store first_render.2) resp
  ∧ PyppeteerResponse.request (store second_attempt.2) resp
    = PyppeteerResponse.request (store first_render.2) resp
  ∧ PyppeteerResponse.script_result (store second_attempt.2) resp
    = PyppeteerResponse.script_result (store first_render.2) resp.
Proof.
  apply (response_keeps_captured_values one_shot_env "http://fast.test" None HNone
           plain_kwargs fresh_run (PyppeteerResponse.mk 0) first_render.2 second_attempt.2).
  - by vm_compute.
  - apply rtc_once.
    apply (later_request one_shot_env "http://slow.test" None HNone plain_kwargs
             first_render.2 second_attempt.1).
    + apply (bool_decide_unpack _). by vm_compute.
    + unfold second_attempt. apply surjective_pairing.
Defined.

(** What the sample holder reads, before and after the second try. *)
Example first_response_survives_second_attempt :
  let resp := PyppeteerResponse.mk 0 in
  first_render.1 = Ok resp
  ∧ second_attempt.1 = Raise (RuntimeError "cannot reuse already awaited coroutine")
  ∧ PyppeteerResponse.status (store first_render.2) resp = PInt 200
  ∧ PyppeteerResponse.status (store second_attempt.2) resp = PInt 200
  ∧ PyppeteerResponse.text (store second_attempt.2) resp = PStr "<html></html>".
Proof. by vm_compute. Qed.

End ResponseClaims.

(** * Further properties *)

(** ** The calls of a render that returns *)

Section Calls.

Import PyppeteerRequest.
Variable env : Env.

Lemma for_each_scripts_Ok_inv p scripts r u r1 :
  for_each scripts (λ script, invoke_ env (EvaluateOnNewDocument p script)) r = (Ok u, r1) →
  r1 = mkRun (self r) (store r) (trace r ++ map (EvaluateOnNewDocument p) scripts).
Proof.
  revert r. induction scripts as [|s scripts IH]; intros r; simpl.
  - intros [= _ <-]. rewrite app_nil_r. by destruct r.
  - intros H. apply bind_Ok_inv in H as ([] & r2 & Hs & H).
    apply invoke_Ok_inv in Hs as (_ & _ & ->).
    apply IH in H as ->. cbn [self store trace]. by rewrite <- app_assoc.
Qed.

Lemma init_Ok_inv r u r1 :
  init env r = (Ok u, r1) →
  store r1 = store r
  ∧ trace r1 = trace r ++ launch_calls r
  ∧ _launcher (self r1) = _launcher (self r)
  ∧ _meta_data (self r1) = _meta_data (self r)
  ∧ _enabled_interception (self r1) = _enabled_interception (self r)
  ∧ _initialized (self r1) = true
  ∧ _browser (self r1)
    = (if _initialized (self r) then _browser (self r)
       else Some (launched env (length (trace r)))).
Proof.
  intros H. apply init_inv in H as [Hst H]. split; [done|].
  unfold launch_calls. destruct (_initialized (self r)) eqn:Hi.
  - destruct H as (_ & -> & ->). by rewrite app_nil_r.
  - destruct H as [-> H]. destruct (fails env _ _); destruct H as [? ->]; done.
Qed.

Lemma interception_Ok_calls (enabled : bool) p callable r u r' :
  (if enabled then
     bind (invoke_ env (SetRequestInterception p true))
       (λ _, bind (if negb (handler_truthy callable)
                   then emit (On p "request" DefaultListener) else ret tt)
               (λ _, if iscoroutinefunction callable
                     then emit (On p "request" (UserListener callable))
                     else raise (TypeError "callable must be coroutine function.")))
   else ret tt) r = (Ok u, r') →
  r' = mkRun (self r) (store r)
             (trace r ++ (if enabled
                          then [SetRequestInterception p true;
                                On p "request" (UserListener callable)]
                          else [])).
Proof.
  destruct enabled.
  - intros H. apply bind_Ok_inv in H as ([] & r1 & Hset & H).
    apply invoke_Ok_inv in Hset as (_ & _ & ->).
    destruct callable as [|f|f]; simpl in H; try done.
    injection H as _ <-. by rewrite <- app_assoc.
  - intros [= _ <-]. rewrite app_nil_r. by destruct r.
Qed.

(** Every call a returning [request()] issued, in order, and what it
    stored. *)
Lemma request_Ok_calls url ua callable kwargs r resp r' :
  request env url ua callable kwargs r = (Ok resp, r') →
  ∃ (b : browser) (nav : list call) (response : Response.t) (nc nt : nat)
    (script_result : pyval),
    let p := opened env (length (trace r ++ launch_calls r)) in
    let before := trace r ++ launch_calls r ++ calls_before_navigation env ua callable kwargs b p in
    trace r' = before ++ [Goto p url 30000 "load"] ++ nav
                      ++ calls_after_navigation kwargs p ++ [ClosePage p; CloseBrowser b]
    ∧ (if _initialized (self r) then _browser (self r) else Some (launched env (length (trace r))))
      = Some b
    ∧ match fails env (length before) (Goto p url 30000 "load") with
      | None => nav = [] ∧ navigated env (length before) = Some response
      | Some (TimeoutError msg) =>
          nav = [Print ("Error during page.goto(): " +:+ msg)] ∧ response = timeout_response
      | Some _ => False
      end
    ∧ store r' = write_dict (_meta_data (self r))
                   (harvest (cookies_of env nc) (content_of env nt) response script_result
                            (read_dict (store r) (_meta_data (self r))))
                   (store r)
    ∧ (∃ ns, script_result = if truthy (keyword kwargs "script" PNone)
                             then evaluated env ns else PNone)
    ∧ is_Some (kwargs !! "page_width") ∧ is_Some (kwargs !! "page_height").
Proof.
  intros H. unfold request in H.
  apply bind_Ok_inv in H as ([] & r1 & Hinit & H).
  apply init_Ok_inv in Hinit as (Hst1 & Htr1 & Hl1 & Hm1 & Hei1 & Hi1 & Hb1).
  unfold pop_default, pop in H. cbv beta iota zeta in H.
  rewrite !lookup_delete_ne in H by done.
  destruct (kwargs !! "page_width") as [width|] eqn:Hwidth; [|done].
  rewrite bind_lift_Ok in H. rewrite !lookup_delete_ne in H by done.
  destruct (kwargs !! "page_height") as [height|] eqn:Hheight; [|done].
  rewrite bind_lift_Ok, bind_get_self in H.
  destruct (_browser (self r1)) as [b|] eqn:Hb; [|done].
  apply bind_Ok_inv in H as (p & r2 & Hnew & H).
  apply invoke_Ok_inv in Hnew as (_ & -> & ->).
  replace (match ua with
           | Some ua0 => invoke_ env (SetUserAgent (opened env (length (trace r1))) ua0)
           | None => invoke_ env (SetUserAgent (opened env (length (trace r1))) default_ua)
           end)
    with (invoke_ env (SetUserAgent (opened env (length (trace r1))) (default default_ua ua)))
    in H by (by destruct ua).
  set (p := opened env (length (trace r1))) in *.
  apply bind_Ok_inv in H as ([] & r2 & Hua & H).
  apply invoke_Ok_inv in Hua as (_ & _ & ->).
  apply bind_Ok_inv in H as ([] & r2 & Hvp & H).
  apply invoke_Ok_inv in Hvp as (_ & _ & ->).
  apply bind_Ok_inv in H as ([] & r3 & Hscripts & H).
  cbn [self store trace] in Hscripts.
  rewrite !lookup_delete_ne in Hscripts by done.
  assert (Hr3 : r3 = mkRun (self r1) (store r1)
                  ((((trace r1 ++ [NewPage b]) ++ [SetUserAgent p (default default_ua ua)])
                      ++ [SetViewport p (if is_None width then PInt 800 else width)
                                      (if is_None height then PInt 600 else height)])
                     ++ (if truthy (default (PBool true) (kwargs !! "pretend"))
                         then map (EvaluateOnNewDocument p) (SCRIPTS env) else []))).
  { destruct (truthy (default (PBool true) (kwargs !! "pretend"))).
    - by apply for_each_scripts_Ok_inv in Hscripts as ->.
    - injection Hscripts as <-. by rewrite app_nil_r. }
  clear Hscripts. subst r3.
  rewrite bind_enabled_interception, bind_get_self in H.
  rewrite !lookup_delete_ne in H by done.
  cbn [self store trace _enabled_interception truthy] in H.
  apply bind_Ok_inv in H as ([] & r4 & Hint & H).
  apply interception_Ok_calls in Hint as ->. cbn [self store trace] in H.
  set (s := mkRequest _ _ _ _ _) in H.
  set (before := (_ ++ (if truthy (default (PBool true) (kwargs !! "pretend")) then _ else _))
                   ++ (if truthy (default (PBool false) (kwargs !! "enabled_interception"))
                       then _ else _)) in H.
  apply bind_Ok_inv in H as (answer & r5 & Hgoto & H).
  assert (Hnav : ∃ nav,
             r5 = mkRun s (store r1) (before ++ [Goto p url 30000 "load"] ++ nav)
             ∧ match fails env (length before) (Goto p url 30000 "load") with
               | None => nav = [] ∧ navigated env (length before) = answer
               | Some (TimeoutError msg) =>
                   nav = [Print ("Error during page.goto(): " +:+ msg)]
                   ∧ answer = Some timeout_response
               | Some _ => False
               end).
  { apply except_timeout_invoke_Ok_inv in Hgoto as [(Hf & -> & ->)|(msg & Hf & Hh)];
      cbn [self store trace] in *; rewrite Hf.
    - by exists [].
    - rewrite bind_emit in Hh. injection Hh as <- <-. cbn [self store trace].
      eexists. split; [by rewrite <- app_assoc|]. by split. }
  clear Hgoto. destruct Hnav as (nav & -> & Hnav).
  apply bind_Ok_inv in H as ([] & r6 & Hsleep & H).
  apply optional_invoke_Ok_inv in Hsleep as ->. cbn [self store trace] in H.
  apply bind_Ok_inv in H as ([] & r6 & Hwait & H).
  apply optional_invoke_Ok_inv in Hwait as ->. cbn [self store trace] in H.
  rewrite ?lookup_delete_ne in H by done.
  apply bind_Ok_inv in H as (script_result & r6 & Hscript & H).
  apply optional_evaluate_Ok_inv in Hscript as [-> Hscript]. cbn [self store trace] in H.
  apply bind_Ok_inv in H as (cookies & r6 & Hcookies & H).
  apply invoke_Ok_inv in Hcookies as (_ & -> & ->). cbn [self store trace] in H.
  rewrite bind_set_meta in H. cbn [self store trace _meta_data] in H.
  apply bind_Ok_inv in H as (text & r6 & Htext & H).
  apply invoke_Ok_inv in Htext as (_ & -> & ->). cbn [self store trace] in H.
  rewrite bind_set_meta in H. cbn [self store trace _meta_data] in H.
  destruct answer as [response|]; [|done].
  rewrite bind_lift_Ok in H.
  rewrite !bind_set_meta in H. cbn [self store trace _meta_data] in H.
  apply bind_Ok_inv in H as ([] & r6 & Hclose & H).
  apply close_Ok_inv in Hclose as (b' & Hb' & ->).
  subst s. cbn [self store trace _launcher _browser _enabled_interception _meta_data] in *.
  rewrite bind_get_self in H. injection H as <- <-.
  cbn [self store trace _launcher _browser _enabled_interception _meta_data].
  rewrite Hb in Hb'. injection Hb' as <-.
  assert (Hbefore : before = trace r ++ launch_calls r
                             ++ calls_before_navigation env ua callable kwargs b p).
  { subst before. unfold calls_before_navigation, keyword, resolve_size.
    rewrite Hwidth, Hheight, Htr1. simpl. by repeat (rewrite <- app_assoc; simpl). }
  assert (Hp : p = opened env (length (trace r ++ launch_calls r))) by (subst p; by rewrite Htr1).
  clearbody before p. subst before p.
  exists b, nav, response. eexists _, _. exists script_result. cbv zeta.
  split.
  { unfold calls_after_navigation, keyword. by repeat (rewrite <- app_assoc; simpl). }
  split; [by rewrite <- Hb1|].
  split.
  { destruct (fails env _ _) as [[]|]; try done; destruct Hnav as [? ?];
      split; congruence. }
  split.
  { rewrite Hm1, Hst1. unfold harvest. by rewrite !read_write_dict, !write_write_dict. }
  split; [by eexists|]. by split; eexists.
Qed.

End Calls.

(** ** The life cycle of the browser *)

Section LifeCycle.

Import PyppeteerRequest.

(** X1.  [init()] is idempotent: once it has succeeded, calling it again,
    in whatever state the browser is, issues no call and changes nothing. *)
Theorem init_twice_launches_once env r u r1 :
  init env r = (Ok u, r1) → ∀ env', init env' r1 = (Ok tt, r1).
Proof.
  intros H env'. apply init_Ok_inv in H as (_ & _ & _ & _ & _ & Hi & _).
  unfold init. rewrite bind_get_self, Hi. reflexivity.
Qed.

Lemma init_twice_launches_once_witness :
  init no_browser_env launched_run = (Ok tt, launched_run).
Proof.
  apply (init_twice_launches_once quiet_env fresh_run tt launched_run).
  by vm_compute.
Defined.

(** X2.  [close(page)] closes the page, then the browser, and only then
    marks the controller uninitialised.  When it raises, the controller is
    as it was; when closing the page is what failed, the browser is not
    closed at all. *)
Theorem close_resets_only_after_both_closes env p r res r' :
  close env p r = (res, r') →
  store r' = store r
  ∧ match res with
    | Ok _ =>
        ∃ b, _browser (self r) = Some b
             ∧ trace r' = trace r ++ [ClosePage p; CloseBrowser b]
             ∧ self r' = mkRequest (_launcher (self r)) false (Some b)
                                   (_enabled_interception (self r)) (_meta_data (self r))
    | Raise e =>
        self r' = self r
        ∧ (fails env (length (trace r)) (ClosePage p) = Some e →
           trace r' = trace r ++ [ClosePage p])
    end.
Proof.
  intros H. split; [by apply keeps_store_close in H|].
  destruct res as [u|e].
  - apply close_Ok_inv in H as (b & Hb & ->). by exists b.
  - unfold close in H. unfold bind at 1 in H. unfold invoke_, invoke in H.
    destruct (fails env (length (trace r)) (ClosePage p)) as [e'|] eqn:Hf.
    + injection H as <- <-. by split.
    + rewrite bind_get_self in H. cbn [self store trace] in H.
      split; [|done]. destruct (_browser (self r)) as [b|].
      * unfold bind at 1 in H.
        destruct (fails env _ (CloseBrowser b)); [by injection H as _ <-|done].
      * by injection H as _ <-.
Qed.

Lemma close_resets_only_after_both_closes_witness :
  store (close sticky_page_env 1 launched_run).2 = store launched_run
  ∧ self (close sticky_page_env 1 launched_run).2 = self launched_run
  ∧ trace (close sticky_page_env 1 launched_run).2 = trace launched_run ++ [ClosePage 1].
Proof.
  destruct (close_resets_only_after_both_closes sticky_page_env 1 launched_run
              (Raise (BrowserError "Protocol error: Target closed."))
              (close sticky_page_env 1 launched_run).2) as (Hst & Hself & Htr).
  - by vm_compute.
  - split; [exact Hst|]. split; [exact Hself|]. apply Htr. reflexivity.
Defined.

End LifeCycle.

(** ** What a returning render does and stores *)

Section Rendering.

Import PyppeteerRequest.



(** X4.  After a navigation that gave a response, the holder reads what
    the browser gave: the status, request and headers of the response of
    [page.goto], the content of the page as text, and its cookies. *)
Theorem request_holder_reads_the_page env url ua callable kwargs r resp r'
        response cookies text value :
  constant_answers env response cookies text value →
  (∀ n p, fails env n (Goto p url 30000 "load") = None) →
  request env url ua callable kwargs r = (Ok resp, r') →
  PyppeteerResponse.status (store r') resp = Response.status response
  ∧ PyppeteerResponse.request (store r') resp = Response.request response
  ∧ PyppeteerResponse.headers (store r') resp = Response.headers response
  ∧ PyppeteerResponse.text (store r') resp = text
  ∧ PyppeteerResponse.cookies (store r') resp = cookies.
Proof.
  intros (Hnavd & Hcookies & Htext & _) Hok H.
  pose proof H as Hinv. apply request_Ok_inv in Hinv.
  destruct Hinv as (b0 & p0 & evs & response0 & c0 & t0 & sr0 & w & h & Hinv).
  destruct Hinv as (_ & _ & _ & -> & _).
  apply request_Ok_calls in H.
  destruct H as (b & nav & response' & nc & nt & sr & H). cbv zeta in H.
  destruct H as (_ & _ & Hnav & Hst & _).
  rewrite Hok in Hnav. destruct Hnav as [_ Hresp].
  rewrite Hnavd in Hresp. injection Hresp as <-.
  unfold PyppeteerResponse.status, PyppeteerResponse.request, PyppeteerResponse.headers,
    PyppeteerResponse.text, PyppeteerResponse.cookies, PyppeteerResponse.get.
  cbn [PyppeteerResponse.meta_data]. rewrite Hst, read_write_dict.
  destruct (harvest_lookups (cookies_of env nc) (content_of env nt) response
              sr (read_dict (store r) (_meta_data (self r))))
    as (-> & -> & -> & -> & -> & _).
  by rewrite Hcookies, Htext.
Qed.

Lemma quiet_env_constant_answers :
  constant_answers quiet_env sample_response (PObj 3 false "[]") (PStr "<html></html>")
                   (PInt 42).
Proof. by repeat split. Qed.

Lemma request_holder_reads_the_page_witness :
  PyppeteerResponse.status (store quiet_render.2) (PyppeteerResponse.mk 0) = PInt 200
  ∧ PyppeteerResponse.request (store quiet_render.2) (PyppeteerResponse.mk 0)
    = PObj 1 true "<Request>"
  ∧ PyppeteerResponse.headers (store quiet_render.2) (PyppeteerResponse.mk 0)
    = PObj 2 true "{'server': 'nginx'}"
  ∧ PyppeteerResponse.text (store quiet_render.2) (PyppeteerResponse.mk 0)
    = PStr "<html></html>"
  ∧ PyppeteerResponse.cookies (store quiet_render.2) (PyppeteerResponse.mk 0)
    = PObj 3 false "[]".
Proof.
  apply (request_holder_reads_the_page quiet_env "http://fast.test" None HNone plain_kwargs
           fresh_run (PyppeteerResponse.mk 0) quiet_render.2
           sample_response (PObj 3 false "[]") (PStr "<html></html>") (PInt 42)).
  - exact quiet_env_constant_answers.
  - reflexivity.
  - by vm_compute.
Defined.

Lemma filter_none (P : call → bool) (l : list call) :
  Forall (λ c, P c = false) l → filter (λ c, P c = true) l = [].
Proof.
  induction 1 as [|c l Hc _ IH]; [done|].
  rewrite filter_cons, IH. destruct (decide (P c = true)) as [Ht|]; [|done].
  by rewrite Hc in Ht.
Qed.

Lemma calls_since_app r r' l : trace r' = trace r ++ l → calls_since r r' = l.
Proof. unfold calls_since. intros ->. by rewrite drop_app_length. Qed.

(** X5.  The script result: without a script (left out, [None] or an empty
    string) nothing is evaluated and the holder's [script_result] is
    [None]; with a script, the script is evaluated on the page, once, and
    the holder's [script_result] is the value the evaluation gave. *)
Theorem request_script_result env url ua callable kwargs r resp r'
        response cookies text value :
  constant_answers env response cookies text value →
  request env url ua callable kwargs r = (Ok resp, r') →
  let script := keyword kwargs "script" PNone in
  let evaluations := filter (λ c, is_evaluate c = true) (calls_since r r') in
  if truthy script
  then PyppeteerResponse.script_result (store r') resp = value
       ∧ ∃ p, evaluations = [Evaluate p script]
  else PyppeteerResponse.script_result (store r') resp = PNone
       ∧ evaluations = [].
Proof.
  intros (_ & _ & _ & Hvalue) H.
  pose proof H as Hinv. apply request_Ok_inv in Hinv.
  destruct Hinv as (b0 & p0 & evs & response0 & c0 & t0 & sr0 & w & h & Hinv).
  destruct Hinv as (_ & _ & _ & -> & _).
  apply request_Ok_calls in H.
  destruct H as (b & nav & response' & nc & nt & sr & H). cbv zeta in H.
  destruct H as (Htr & _ & Hnav & Hst & [ns Hsr] & _).
  set (p := opened env (length (trace r ++ launch_calls r))) in *.
  cbv zeta.
  assert (Hsince : calls_since r r'
                   = launch_calls r ++ calls_before_navigation env ua callable kwargs b p
                       ++ [Goto p url 30000 "load"] ++ nav
                       ++ calls_after_navigation kwargs p ++ [ClosePage p; CloseBrowser b]).
  { apply calls_since_app. rewrite Htr. by rewrite <- !app_assoc. }
  assert (Hnone : filter (λ c, is_evaluate c = true)
                    (launch_calls r ++ calls_before_navigation env ua callable kwargs b p
                       ++ [Goto p url 30000 "load"] ++ nav) = []).
  { apply filter_none. rewrite !Forall_app. repeat split.
    - unfold launch_calls. destruct (_initialized (self r)); by repeat constructor.
    - unfold calls_before_navigation. rewrite !Forall_app. repeat split.
      + by repeat constructor.
      + destruct (truthy (keyword kwargs "pretend" (PBool true))); [|constructor].
        rewrite Forall_map. by apply Forall_true.
      + destruct (truthy (keyword kwargs "enabled_interception" (PBool false)));
          by repeat constructor.
    - by repeat constructor.
    - destruct (fails env _ _) as [[]|]; try done;
        destruct Hnav as [-> _]; by repeat constructor. }
  assert (Hscript : PyppeteerResponse.script_result (store r')
                      (PyppeteerResponse.mk (_meta_data (self r))) = sr).
  { unfold PyppeteerResponse.script_result, PyppeteerResponse.get.
    cbn [PyppeteerResponse.meta_data]. rewrite Hst, read_write_dict.
    destruct (harvest_lookups (cookies_of env nc) (content_of env nt) response' sr
                (read_dict (store r) (_meta_data (self r))))
      as (_ & _ & _ & _ & _ & ->). done. }
  rewrite Hscript, Hsr, Hsince.
  replace (launch_calls r ++ calls_before_navigation env ua callable kwargs b p
             ++ [Goto p url 30000 "load"] ++ nav
             ++ calls_after_navigation kwargs p ++ [ClosePage p; CloseBrowser b])
    with ((launch_calls r ++ calls_before_navigation env ua callable kwargs b p
             ++ [Goto p url 30000 "load"] ++ nav)
            ++ calls_after_navigation kwargs p ++ [ClosePage p; CloseBrowser b])
    by (by rewrite <- !app_assoc).
  rewrite filter_app, Hnone. unfold calls_after_navigation. fold (keyword kwargs "script" PNone).
  rewrite !filter_app.
  destruct (truthy (keyword kwargs "script" PNone)).
  - split; [by rewrite Hvalue|]. exists p.
    by destruct (negb (is_None (keyword kwargs "delay" PNone))),
               (truthy (keyword kwargs "wait_for" PNone)).
  - split; [done|].
    by destruct (negb (is_None (keyword kwargs "delay" PNone))),
               (truthy (keyword kwargs "wait_for" PNone)).
Qed.

Lemma request_script_result_witness :
  PyppeteerResponse.script_result (store busy_render.2) (PyppeteerResponse.mk 0) = PInt 42
  ∧ ∃ p, filter (λ c, is_evaluate c = true) (calls_since fresh_run busy_render.2)
         = [Evaluate p (PStr "document.title")].
Proof.
  apply (request_script_result quiet_env "http://fast.test" (Some "agent/1.0") HNone
           busy_kwargs fresh_run (PyppeteerResponse.mk 0) busy_render.2
           sample_response (PObj 3 false "[]") (PStr "<html></html>") (PInt 42)).
  - exact quiet_env_constant_answers.
  - by vm_compute.
Defined.

End Rendering.

(** ** Interception *)

Section Interception.

Import PyppeteerRequest.
Variable env : Env.

Lemma bind_ext {A B} (m : M A) (k1 k2 : A → M B) r :
  (∀ a r1, k1 a r1 = k2 a r1) → bind m k1 r = bind m k2 r.
Proof. intros Hk. unfold bind. destruct (m r) as [[a|e] r1]; [apply Hk | done]. Qed.

(** X6.  With interception off (the default), the handler plays no part:
    whatever is passed as [callable], a coroutine function, an ordinary
    function or nothing, the render does the same calls and ends the same
    way; in particular an ordinary function is not rejected. *)
Theorem request_ignores_handler_without_interception url ua callable callable' kwargs r :
  truthy (keyword kwargs "enabled_interception" (PBool false)) = false →
  request env url ua callable kwargs r = request env url ua callable' kwargs r.
Proof.
  unfold keyword. intros Hoff. unfold request.
  apply bind_ext. intros _ r1.
  unfold pop_default, pop. cbv beta iota zeta.
  rewrite !lookup_delete_ne by done.
  destruct (kwargs !! "page_width") as [width|]; [|done].
  apply bind_ext. intros width' r2. rewrite !lookup_delete_ne by done.
  destruct (kwargs !! "page_height") as [height|]; [|done].
  apply bind_ext. intros height' r3.
  apply bind_ext. intros s r4.
  apply bind_ext. intros p r5.
  apply bind_ext. intros _ r6.
  apply bind_ext. intros _ r7.
  apply bind_ext. intros _ r8.
  rewrite !bind_enabled_interception, !bind_get_self.
  rewrite !lookup_delete_ne by done.
  cbn [self store trace _enabled_interception truthy]. by rewrite Hoff.
Qed.

End Interception.

Lemma request_ignores_handler_without_interception_witness :
  PyppeteerRequest.request quiet_env "http://fast.test" None (HFunction 0) plain_kwargs fresh_run
  = PyppeteerRequest.request quiet_env "http://fast.test" None HNone plain_kwargs fresh_run.
Proof.
  apply (request_ignores_handler_without_interception quiet_env "http://fast.test" None
           (HFunction 0) HNone plain_kwargs fresh_run).
  reflexivity.
Defined.

Section Flag.

Import PyppeteerRequest.
Variable env : Env.

Lemma same_but_flag_refl r : same_but_flag r r.
Proof. by repeat split. Qed.

Lemma flag_blind_bind {A B} (m1 m2 : M A) (k1 k2 : A → M B) :
  flag_blind m1 m2 → (∀ a, flag_blind (k1 a) (k2 a)) → flag_blind (bind m1 k1) (bind m2 k2).
Proof.
  intros Hm Hk r1 r2 HR. unfold bind. destruct (Hm r1 r2 HR) as [Hres Hst].
  destruct (m1 r1) as [[a1|e1] r1'], (m2 r2) as [[a2|e2] r2']; simpl in *; try done.
  - injection Hres as ->. by apply Hk.
  - by injection Hres as ->.
Qed.

Lemma flag_blind_pure {A} (x : Res A) : flag_blind (lift x) (lift x).
Proof. by intros r1 r2 HR. Qed.

Lemma flag_blind_ret {A} (a : A) : flag_blind (ret a) (ret a).
Proof. by intros r1 r2 HR. Qed.

Lemma flag_blind_raise {A} e : flag_blind (@raise A e) (raise e).
Proof. by intros r1 r2 HR. Qed.

Ltac flag_states :=
  intros [[l1 i1 b1 e1 m1] st1 tr1] [[l2 i2 b2 e2 m2] st2 tr2]
         (Hst & Htr & Hl & Hi & Hb & Hm);
  simpl in Hst, Htr, Hl, Hi, Hb, Hm; subst.

Lemma flag_blind_emit c : flag_blind (emit c) (emit c).
Proof. flag_states. by repeat split. Qed.

Lemma flag_blind_invoke {A} c (answer : nat → A) :
  flag_blind (invoke env c answer) (invoke env c answer).
Proof.
  flag_states. unfold invoke. cbn [self store trace].
  by destruct (fails env _ _); repeat split.
Qed.

Lemma flag_blind_invoke_ c : flag_blind (invoke_ env c) (invoke_ env c).
Proof. apply flag_blind_invoke. Qed.

Lemma flag_blind_set_meta key v : flag_blind (set_meta key v) (set_meta key v).
Proof. flag_states. by repeat split. Qed.

Lemma flag_blind_init : flag_blind (init env) (init env).
Proof.
  flag_states. unfold init. rewrite !bind_get_self. cbn [self _initialized].
  destruct i2; simpl; [by repeat split|].
  unfold bind, invoke. cbn [self store trace _launcher].
  by destruct (fails env _ _); repeat split.
Qed.

Lemma flag_blind_close p : flag_blind (close env p) (close env p).
Proof.
  flag_states. unfold close, bind, invoke_, invoke, get_self, set_self, raise.
  cbn [self store trace _browser _launcher _initialized _meta_data _enabled_interception].
  destruct (fails env _ (ClosePage p)); [by repeat split|].
  destruct b2 as [b|]; [|by repeat split].
  cbn [self store trace _browser _launcher _initialized _meta_data _enabled_interception].
  by destruct (fails env _ (CloseBrowser b)); repeat split.
Qed.

Lemma flag_blind_if {A} (c : bool) (m1 m2 m1' m2' : M A) :
  flag_blind m1 m1' → flag_blind m2 m2' →
  flag_blind (if c then m1 else m2) (if c then m1' else m2').
Proof. by destruct c. Qed.

Lemma flag_blind_for_each {A} (xs : list A) body :
  (∀ x, flag_blind (body x) (body x)) → flag_blind (for_each xs body) (for_each xs body).
Proof.
  intros Hbody. induction xs as [|x xs IH]; simpl.
  - apply flag_blind_ret.
  - apply flag_blind_bind; [apply Hbody | by intros _].
Qed.

(** Once the flag is set, the two runs are one and the same. *)
Lemma flag_blind_after_set {B} v (k : unit → M B) :
  flag_blind (bind (enabled_interception v) k) (bind (enabled_interception v) k).
Proof.
  flag_states. rewrite !bind_enabled_interception.
  cbn [self store trace _browser _launcher _initialized _meta_data].
  split; [done | apply same_but_flag_refl].
Qed.

Lemma flag_blind_bind_get_self {B} (k1 k2 : t → M B) :
  (∀ s1 s2, _browser s1 = _browser s2 → flag_blind (k1 s1) (k2 s2)) →
  flag_blind (bind get_self k1) (bind get_self k2).
Proof.
  intros Hk r1 r2 HR. rewrite !bind_get_self. apply Hk; [|done].
  by destruct HR as (_ & _ & _ & _ & ? & _).
Qed.

Lemma flag_blind_request url ua callable kwargs :
  flag_blind (request env url ua callable kwargs) (request env url ua callable kwargs).
Proof.
  unfold request, pop_default, pop. cbv beta iota zeta.
  apply flag_blind_bind; [apply flag_blind_init|]. intros _.
  destruct (_ !! "page_width");
    (apply flag_blind_bind; [apply flag_blind_pure|]); intros width.
  all: destruct (_ !! "page_height");
    (apply flag_blind_bind; [apply flag_blind_pure|]); intros height.
  all: apply flag_blind_bind_get_self; intros s1 s2 ->.
  all: apply flag_blind_bind;
    [destruct (_browser s2); [apply flag_blind_invoke | apply flag_blind_raise]|]; intros pg.
  all: apply flag_blind_bind; [destruct ua; apply flag_blind_invoke_|]; intros _.
  all: apply flag_blind_bind; [apply flag_blind_invoke_|]; intros _.
  all: apply flag_blind_bind;
    [apply flag_blind_if;
     [apply flag_blind_for_each; intros ?; apply flag_blind_invoke_ | apply flag_blind_ret]|];
    intros _.
  all: apply flag_blind_after_set.
Qed.

(** X7.  [request()] sets the interception flag itself, from its own
    [enabled_interception] keyword ([False] when left out), before it looks
    at it.  What [enabled_interception(value)] stored on the controller
    beforehand therefore plays no part: the render ends the same way,
    having issued the same calls and written the same store, and when it
    returns it leaves the very same controller state. *)
Theorem request_overrides_enabled_interception url ua callable kwargs value r u r1 :
  enabled_interception value r = (Ok u, r1) →
  (request env url ua callable kwargs r1).1 = (request env url ua callable kwargs r).1
  ∧ trace (request env url ua callable kwargs r1).2
    = trace (request env url ua callable kwargs r).2
  ∧ store (request env url ua callable kwargs r1).2
    = store (request env url ua callable kwargs r).2
  ∧ ∀ resp r', request env url ua callable kwargs r = (Ok resp, r') →
               request env url ua callable kwargs r1 = (Ok resp, r').
Proof.
  intros Hset. injection Hset as _ <-.
  set (ra := mkRun _ _ _).
  assert (HR : same_but_flag ra r) by by repeat split.
  destruct (flag_blind_request url ua callable kwargs ra r HR)
    as (Hres & Hst & Htr & Hl & Hi & Hb & Hm).
  split; [done|]. split; [done|]. split; [done|].
  intros resp r' Hrun.
  destruct (request env url ua callable kwargs ra) as [res1 r1'] eqn:Hrun1.
  rewrite Hrun in *. cbn [fst snd] in *. subst res1. f_equal.
  apply request_Ok_inv in Hrun.
  destruct Hrun as (b & p & evs & response & c & t & sr & w & h & Hrun).
  destruct Hrun as (_ & _ & Hself & _).
  apply request_Ok_inv in Hrun1.
  destruct Hrun1 as (b1 & p1 & evs1 & response1 & c1 & t1 & sr1 & w1 & h1 & Hrun1).
  destruct Hrun1 as (_ & _ & Hself1 & _).
  destruct r1' as [s1 st1 tr1], r' as [s' st' tr']. cbn [self store trace] in *.
  rewrite Hself, Hself1 in *. cbn [_browser] in Hb. injection Hb as ->.
  by rewrite Hst, Htr.
Qed.

End Flag.

(** ** What the methods never touch *)

Section Untouched.

Import PyppeteerRequest.

Section View.

Context {X : Type} (g : Launcher * loc * Store → X).
(** The view does not see an entry written into the controller's dict. *)
Hypothesis g_ignores_own_dict :
  ∀ l m st key v, g (l, m, write_dict m (<[key := v]> (read_dict st m)) st) = g (l, m, st).

Lemma view_ignores_trace r tr : g (core (mkRun (self r) (store r) tr)) = g (core r).
Proof. reflexivity. Qed.

Lemma keeps_view_set_meta key v : keeps (λ r, g (core r)) (set_meta key v).
Proof. intros r res r' [= <- <-]. apply g_ignores_own_dict. Qed.

Lemma keeps_view_enabled_interception v : keeps (λ r, g (core r)) (enabled_interception v).
Proof. by intros r res r' [= <- <-]. Qed.

Lemma keeps_view_init env : keeps (λ r, g (core r)) (init env).
Proof.
  intros r res r' H. apply init_frame in H as (Hst & Hl & Hm & _).
  unfold core. by rewrite Hst, Hl, Hm.
Qed.

Lemma keeps_view_close env p : keeps (λ r, g (core r)) (close env p).
Proof.
  unfold close.
  apply keeps_bind; [apply keeps_invoke_, view_ignores_trace|]. intros _.
  apply keeps_bind; [apply keeps_get_self|]. intros s.
  apply keeps_bind.
  { destruct (_browser s); [apply keeps_invoke_, view_ignores_trace | apply keeps_raise]. }
  intros _. by intros r res r' [= <- <-].
Qed.

Ltac view_step env :=
  first
    [ simple apply keeps_ret | simple apply keeps_raise | simple apply keeps_lift
    | simple apply keeps_get_self
    | simple apply keeps_emit; simple apply view_ignores_trace
    | simple apply (keeps_invoke env); simple apply view_ignores_trace
    | simple apply (keeps_invoke_ env); simple apply view_ignores_trace
    | simple apply keeps_view_set_meta
    | simple apply keeps_view_enabled_interception
    | simple apply keeps_view_init
    | simple apply keeps_view_close
    | simple apply keeps_bind; [|intros ?]
    | simple apply keeps_if
    | simple apply keeps_for_each; intros ?
    | simple apply keeps_except_timeout; [|intros ?]
    | match goal with
      | |- context [match ?x with Some _ => _ | None => _ end] => destruct x
      end ].

Lemma keeps_view_request env url ua callable kwargs :
  keeps (λ r, g (core r)) (request env url ua callable kwargs).
Proof.
  unfold request, pop_default, pop. cbv beta iota zeta.
  repeat view_step env; by intros r res r' [= <- <-].
Qed.

Lemma keeps_view_method_call r r' : method_call r r' → g (core r') = g (core r).
Proof.
  intros [env ? res ? H|env url ua callable kwargs ? res ? H|value ? res ? H
         |env p ? res ? H|env request ? res ? H].
  - by apply keeps_view_init in H.
  - by apply keeps_view_request in H.
  - by apply keeps_view_enabled_interception in H.
  - by apply keeps_view_close in H.
  - by apply (keeps_handle_request env (λ r, g (core r)) view_ignores_trace) in H.
Qed.

Lemma keeps_view_method_calls r r' : rtc method_call r r' → g (core r') = g (core r).
Proof.
  induction 1 as [|r r1 r' Hstep _ IH]; [done|].
  rewrite IH. by apply keeps_view_method_call.
Qed.

End View.

(** X8.  After construction nothing changes the launch configuration:
    whatever methods are called on the controller, in whatever browser and
    however they end, the configuration the launch handle was built from
    and every argument list in the store stay as they are. *)
Theorem methods_keep_launch_configuration r r' :
  rtc method_call r r' →
  _launcher (self r') = _launcher (self r) ∧ lists (store r') = lists (store r).
Proof.
  intros H. apply (keeps_view_method_calls launch_view) in H; [|done].
  unfold launch_view, core in H. cbn [fst snd] in H. by injection H.
Qed.

(** X9.  A controller writes into its own dict only: whatever methods are
    called on it, a response holder that refers to another dict, such as
    one handed out by another controller, keeps reading the same values. *)
Theorem methods_keep_foreign_holders r r' resp :
  rtc method_call r r' →
  PyppeteerResponse.meta_data resp ≠ meta_ref r →
  ∀ key, PyppeteerResponse.get key (store r') resp = PyppeteerResponse.get key (store r) resp.
Proof.
  intros H Hne key.
  apply (keeps_view_method_calls (foreign_dict_view (PyppeteerResponse.meta_data resp))) in H.
  - unfold foreign_dict_view, core in H. cbn [fst snd] in H.
    injection H as Hm Hd. rewrite Hm in Hd. unfold meta_ref in Hne.
    destruct (decide (_meta_data (self r) = PyppeteerResponse.meta_data resp)) as [Heq|_];
      [by rewrite Heq in Hne|].
    injection Hd as Hd. unfold PyppeteerResponse.get, read_dict. by rewrite Hd.
  - intros l m st key' v. unfold foreign_dict_view. cbn [fst snd].
    destruct (decide (m = PyppeteerResponse.meta_data resp)); [done|].
    unfold write_dict. cbn [dicts]. by rewrite lookup_insert_ne.
Qed.

End Untouched.

(** ** The controller stays well formed *)

Section WellFormed.

Import PyppeteerRequest.

Section Preserved.

Context (P : t → Prop).

Lemma preserves_bind {A B} (m : M A) (k : A → M B) :
  preserves P m → (∀ a, preserves P (k a)) → preserves P (bind m k).
Proof.
  intros Hm Hk r res r' HP. unfold bind.
  destruct (m r) as [[a|e] r1] eqn:Hrun.
  - apply (Hk a). by apply (Hm _ _ _ HP Hrun).
  - intros [= <- <-]. by apply (Hm _ _ _ HP Hrun).
Qed.

Lemma preserves_ret {A} (a : A) : preserves P (ret a).
Proof. by intros r res r' HP [= <- <-]. Qed.

Lemma preserves_raise {A} e : preserves P (@raise A e).
Proof. by intros r res r' HP [= <- <-]. Qed.

Lemma preserves_lift {A} (x : Res A) : preserves P (lift x).
Proof. by intros r res r' HP [= <- <-]. Qed.

Lemma preserves_get_self : preserves P get_self.
Proof. by intros r res r' HP [= <- <-]. Qed.

Lemma preserves_emit c : preserves P (emit c).
Proof. by intros r res r' HP [= <- <-]. Qed.

Lemma preserves_invoke {A} env c (answer : nat → A) : preserves P (invoke env c answer).
Proof.
  intros r res r' HP. unfold invoke. by destruct (fails env _ _); intros [= <- <-].
Qed.

Lemma preserves_invoke_ env c : preserves P (invoke_ env c).
Proof. apply preserves_invoke. Qed.

Lemma preserves_set_meta key v : preserves P (set_meta key v).
Proof. by intros r res r' HP [= <- <-]. Qed.

Lemma preserves_if {A} (b : bool) (m1 m2 : M A) :
  preserves P m1 → preserves P m2 → preserves P (if b then m1 else m2).
Proof. by destruct b. Qed.

Lemma preserves_for_each {A} (xs : list A) body :
  (∀ x, preserves P (body x)) → preserves P (for_each xs body).
Proof.
  intros Hbody. induction xs as [|x xs IH]; simpl.
  - apply preserves_ret.
  - apply preserves_bind; [apply Hbody | by intros _].
Qed.

Lemma preserves_except_timeout {A} (m : M A) handler :
  preserves P m → (∀ msg, preserves P (handler msg)) → preserves P (except_timeout m handler).
Proof.
  intros Hm Hh r res r' HP. unfold except_timeout.
  destruct (m r) as [[a|[]] r1] eqn:Hrun;
    try (intros [= <- <-]; by apply (Hm _ _ _ HP Hrun)).
  apply Hh. by apply (Hm _ _ _ HP Hrun).
Qed.

End Preserved.

Lemma preserves_browser_enabled_interception v :
  preserves has_browser_if_initialized (enabled_interception v).
Proof. by intros r res r' HP [= <- <-]. Qed.

Lemma preserves_browser_init env : preserves has_browser_if_initialized (init env).
Proof.
  intros r res r' HP H. apply init_inv in H as [_ H].
  destruct (_initialized (self r)) eqn:Hi.
  - by destruct H as (_ & -> & _).
  - destruct H as [_ H]. destruct (fails env _ _); destruct H as [_ ->]; [done|].
    intros _. by eexists.
Qed.

Lemma preserves_browser_close env p : preserves has_browser_if_initialized (close env p).
Proof.
  unfold close.
  apply preserves_bind; [apply preserves_invoke_|]. intros _.
  apply preserves_bind; [apply preserves_get_self|]. intros s.
  apply preserves_bind.
  { destruct (_browser s); [apply preserves_invoke_ | apply preserves_raise]. }
  intros _. by intros r res r' HP [= <- <-].
Qed.

Ltac preserves_step :=
  first
    [ simple apply preserves_ret | simple apply preserves_raise | simple apply preserves_lift
    | simple apply preserves_get_self | simple apply preserves_emit
    | simple apply preserves_invoke | simple apply preserves_invoke_
    | simple apply preserves_set_meta
    | simple apply preserves_browser_enabled_interception
    | simple apply preserves_browser_init
    | simple apply preserves_browser_close
    | simple apply preserves_bind; [|intros ?]
    | simple apply preserves_if
    | simple apply preserves_for_each; intros ?
    | simple apply preserves_except_timeout; [|intros ?]
    | match goal with
      | |- context [match ?x with Some _ => _ | None => _ end] => destruct x
      end ].

Lemma preserves_browser_request env url ua callable kwargs :
  preserves has_browser_if_initialized (request env url ua callable kwargs).
Proof.
  unfold request, pop_default, pop. cbv beta iota zeta.
  repeat preserves_step; by intros r res r' HP [= <- <-].
Qed.

Lemma preserves_browser_handle_request env request :
  preserves has_browser_if_initialized (handle_request env request).
Proof.
  unfold handle_request.
  apply preserves_bind; [apply preserves_emit | intros _; apply preserves_invoke_].
Qed.

(** X10.  Every state a controller can get into is well formed: from the
    constructor on, whatever methods are called and however they end, a
    controller that says it is initialised has a browser. *)
Theorem reachable_controllers_are_well_formed kwargs given st tr r :
  rtc method_call (mkRun (__init__ kwargs given st).1 (__init__ kwargs given st).2 tr) r →
  well_formed r.
Proof.
  intros H.
  assert (Hstart : well_formed (mkRun (__init__ kwargs given st).1
                                      (__init__ kwargs given st).2 tr))
    by apply new_controller_well_formed.
  induction H as [|r r1 r' Hstep _ IH]; [done|]. apply IH.
  destruct Hstep as [env ? res ? H|env url ua callable kwargs' ? res ? H|value ? res ? H
                    |env p ? res ? H|env request ? res ? H].
  - by apply (preserves_browser_init env _ _ _ Hstart H).
  - by apply (preserves_browser_request env url ua callable kwargs' _ _ _ Hstart H).
  - by apply (preserves_browser_enabled_interception value _ _ _ Hstart H).
  - by apply (preserves_browser_close env p _ _ _ Hstart H).
  - by apply (preserves_browser_handle_request env request _ _ _ Hstart H).
Qed.

End WellFormed.

(** ** Objects of the constructor *)

Section Construction.

Import PyppeteerRequest.

Lemma lists_list_append l x st l' :
  l' ≠ l → lists (list_append l x st) !! l' = lists st !! l'.
Proof. intros Hne. unfold list_append, write_list. simpl. by rewrite lookup_insert_ne. Qed.

Lemma lists_list_remove_quiet l x st l' :
  l' ≠ l → lists (list_remove_quiet l x st) !! l' = lists st !! l'.
Proof.
  intros Hne. unfold list_remove_quiet. destruct (remove_first x (read_list st l)); [|done].
  unfold write_list. simpl. by rewrite lookup_insert_ne.
Qed.

Lemma dicts_list_remove_quiet l x st : dicts (list_remove_quiet l x st) = dicts st.
Proof. unfold list_remove_quiet. by destruct (remove_first x (read_list st l)). Qed.

Lemma new_dict_fresh d st : dicts st !! (new_dict d st).1 = None.
Proof. simpl. apply not_elem_of_dom, (is_fresh (dom (dicts st))). Qed.

Lemma lists_write_dict l d st : lists (write_dict l d st) = lists st.
Proof. reflexivity. Qed.

Lemma dicts_list_append l x st : dicts (list_append l x st) = dicts st.
Proof. reflexivity. Qed.

Lemma lists_list_append_eq l x st : lists (list_append l x st) !! l = Some (read_list st l ++ [x]).
Proof. unfold list_append, write_list. simpl. by rewrite lookup_insert_eq. Qed.

Lemma lists_list_remove_quiet_some l x st :
  is_Some (lists st !! l) → is_Some (lists (list_remove_quiet l x st) !! l).
Proof.
  intros Hsome. unfold list_remove_quiet. destruct (remove_first x (read_list st l)); [|done].
  unfold write_list. simpl. rewrite lookup_insert_eq. by eexists.
Qed.

(** What the constructor does to the store: one new dict, and writes to one
    list only, which is new when the caller gave none. *)
Lemma init_store kwargs given st :
  let out := __init__ kwargs given st in
  dicts st !! _meta_data out.1 = None
  ∧ dicts out.2 = <[_meta_data out.1 := ∅]> (dicts st)
  ∧ (∀ l, l ≠ args (_launcher out.1) → lists out.2 !! l = lists st !! l)
  ∧ is_Some (lists out.2 !! args (_launcher out.1))
  ∧ match given with
    | Some l => args (_launcher out.1) = l
    | None => lists st !! args (_launcher out.1) = None
    end.
Proof.
  unfold __init__, pop_default, new_dict, new_list. cbv beta iota zeta.
  destruct given as [a|]; cbv beta iota zeta;
    destruct (truthy (default (PBool true) _)), (truthy _ && truthy _);
    cbn [fst snd _meta_data _launcher args];
    rewrite ?lists_write_dict;
    (split; [unfold write_dict; cbn [dicts];
             rewrite ?dicts_list_remove_quiet, ?dicts_list_append;
             apply not_elem_of_dom, (is_fresh (dom _))|]);
    (split; [unfold write_dict; cbn [dicts lists];
             by rewrite ?dicts_list_remove_quiet, ?dicts_list_append|]);
    (split; [intros l Hne;
             rewrite ?lists_list_remove_quiet, ?lists_list_append by done;
             try done; unfold write_list; cbn [lists]; by rewrite lookup_insert_ne|]);
    (split; [repeat first [apply lists_list_remove_quiet_some
                          | rewrite lists_list_append_eq; by eexists
                          | unfold write_list; cbn [lists]; rewrite lookup_insert_eq; by eexists]
            |]);
    first [done | apply not_elem_of_dom, (is_fresh (dom _))].
Qed.

(** X11.  Controllers built one after the other never share their dict: the
    second constructor allocates a new one and leaves the first one's
    alone; and unless the second is handed the first one's list as [args],
    it works on another list and the first one's launch arguments stay as
    they were. *)
Theorem controllers_do_not_share_dicts kwargs1 given1 kwargs2 given2 st :
  let c1 := __init__ kwargs1 given1 st in
  let c2 := __init__ kwargs2 given2 c1.2 in
  _meta_data c2.1 ≠ _meta_data c1.1
  ∧ dicts c2.2 !! _meta_data c1.1 = dicts c1.2 !! _meta_data c1.1
  ∧ (given2 ≠ Some (args (_launcher c1.1)) →
     args (_launcher c2.1) ≠ args (_launcher c1.1)
     ∧ launch_args c2.2 c1.1 = launch_args c1.2 c1.1).
Proof.
  cbv zeta.
  destruct (init_store kwargs1 given1 st) as (_ & Hd1 & _ & Hsome1 & _).
  destruct (init_store kwargs2 given2 (__init__ kwargs1 given1 st).2)
    as (Hfresh & Hd2 & Hl2 & _ & Hgiven).
  cbv zeta in *.
  set (c1 := __init__ kwargs1 given1 st) in *.
  set (c2 := __init__ kwargs2 given2 c1.2) in *.
  assert (Hne : _meta_data c2.1 ≠ _meta_data c1.1).
  { intros Heq. rewrite Heq, Hd1, lookup_insert_eq in Hfresh. done. }
  split; [done|]. split; [by rewrite Hd2, lookup_insert_ne|].
  intros Hother.
  assert (Hargs : args (_launcher c2.1) ≠ args (_launcher c1.1)).
  { destruct given2 as [l|].
    - rewrite Hgiven. intros ->. by apply Hother.
    - intros Heq. rewrite Heq in Hgiven. rewrite Hgiven in Hsome1. by destruct Hsome1. }
  split; [done|]. unfold launch_args, read_list. by rewrite Hl2.
Qed.

End Construction.

Lemma controllers_do_not_share_dicts_witness :
  let c1 := PyppeteerRequest.__init__ ∅ None (mkStore ∅ ∅) in
  let c2 := PyppeteerRequest.__init__ sized_kwargs None c1.2 in
  PyppeteerRequest._meta_data c2.1 ≠ PyppeteerRequest._meta_data c1.1
  ∧ args (PyppeteerRequest._launcher c2.1) ≠ args (PyppeteerRequest._launcher c1.1)
  ∧ PyppeteerRequest.launch_args c2.2 c1.1 = PyppeteerRequest.launch_args c1.2 c1.1.
Proof.
  cbv zeta.
  destruct (controllers_do_not_share_dicts ∅ None sized_kwargs None (mkStore ∅ ∅))
    as (H1 & _ & H3).
  split; [exact H1|]. apply H3. discriminate.
Defined.

(** ** Witnesses of the properties over method sequences *)

Lemma request_overrides_enabled_interception_witness :
  let r1 := (PyppeteerRequest.enabled_interception (PBool true) fresh_run).2 in
  let render := PyppeteerRequest.request quiet_env "http://fast.test" None HNone plain_kwargs in
  (render r1).1 = (render fresh_run).1
  ∧ PyppeteerRequest.trace (render r1).2 = PyppeteerRequest.trace (render fresh_run).2
  ∧ PyppeteerRequest.store (render r1).2 = PyppeteerRequest.store (render fresh_run).2
  ∧ ∀ resp r', render fresh_run = (Ok resp, r') → render r1 = (Ok resp, r').
Proof.
  exact (request_overrides_enabled_interception quiet_env "http://fast.test" None HNone
           plain_kwargs (PBool true) fresh_run tt
           (PyppeteerRequest.enabled_interception (PBool true) fresh_run).2 eq_refl).
Defined.

Lemma methods_keep_launch_configuration_witness :
  PyppeteerRequest._launcher (PyppeteerRequest.self quiet_render.2)
  = PyppeteerRequest._launcher (PyppeteerRequest.self fresh_run)
  ∧ lists (PyppeteerRequest.store quiet_render.2) = lists (PyppeteerRequest.store fresh_run).
Proof.
  apply (methods_keep_launch_configuration fresh_run quiet_render.2).
  apply rtc_once.
  apply (call_request quiet_env "http://fast.test" None HNone plain_kwargs fresh_run
           quiet_render.1).
  unfold quiet_render. apply surjective_pairing.
Defined.

Lemma methods_keep_foreign_holders_witness :
  PyppeteerResponse.get "status"
    (PyppeteerRequest.store
       (PyppeteerRequest.request (hanging_env "http://slow.test") "http://slow.test"
          None HNone plain_kwargs second_controller).2)
    (PyppeteerResponse.mk 0)
  = PyppeteerResponse.get "status" (PyppeteerRequest.store second_controller)
                          (PyppeteerResponse.mk 0).
Proof.
  apply (methods_keep_foreign_holders second_controller _ (PyppeteerResponse.mk 0)).
  - apply rtc_once.
    apply (call_request (hanging_env "http://slow.test") "http://slow.test" None HNone
             plain_kwargs second_controller
             (PyppeteerRequest.request (hanging_env "http://slow.test") "http://slow.test"
                None HNone plain_kwargs second_controller).1).
    apply surjective_pairing.
  - by vm_compute.
Defined.

Lemma reachable_controllers_are_well_formed_witness : well_formed quiet_render.2.
Proof.
  apply (reachable_controllers_are_well_formed ∅ None (mkStore ∅ ∅) [] quiet_render.2).
  apply rtc_once.
  apply (call_request quiet_env "http://fast.test" None HNone plain_kwargs _ quiet_render.1).
  unfold quiet_render. apply surjective_pairing.
Defined.

(** ** Keywords that are not read *)

Section Keywords.

Import PyppeteerRequest.

(** X12.  Only both window dimensions together have an effect: with
    [window_width] or [window_height] left out, [None], zero or empty, the
    constructor builds the same controller and the same argument list as
    with neither of them, that is the caller's list, then
    [--disable-infobars], then [--start-maximized] unless maximising is
    switched off. *)
Theorem init_ignores_single_window_dimension kwargs given st :
  window_size_set kwargs = false →
  __init__ kwargs given st
  = __init__ (delete "window_width" (delete "window_height" kwargs)) given st
  ∧ launch_args (__init__ kwargs given st).2 (__init__ kwargs given st).1
    = caller_args given st ++ [disable_infobars]
      ++ (if maximize_enabled kwargs then [start_maximized] else []).
Proof.
  intros Hno. split.
  - unfold window_size_set in Hno.
    unfold __init__, pop_default. cbv beta iota zeta.
    rewrite !lookup_delete_ne by done. rewrite lookup_delete_eq.
    destruct (match given with
              | Some l => (l, list_append l disable_infobars st)
              | None => new_list [disable_infobars] st
              end) as [a st0].
    rewrite Hno. cbn [default truthy andb].
    by rewrite !lookup_delete_ne by done.
  - rewrite init_launch_args. unfold built_args, maximize_enabled.
    unfold window_size_set in Hno. cbv zeta. rewrite Hno.
    destruct (truthy (default (PBool true) (kwargs !! "enabled_maximize")));
      by rewrite <- ?app_assoc, ?app_nil_r.
Qed.

(** X13.  The constructor reads its own keywords only: any other keyword
    is dropped without a word, the controller and the store come out the
    same. *)
Theorem init_drops_unknown_keywords kwargs key v given st :
  key ∉ constructor_keywords →
  __init__ (<[key := v]> kwargs) given st = __init__ kwargs given st.
Proof.
  intros Hkey. unfold constructor_keywords in Hkey.
  rewrite !not_elem_of_cons in Hkey.
  destruct Hkey as (_ & ? & ? & ? & ? & ? & ? & ? & ? & _).
  unfold __init__, pop_default. cbv beta iota zeta.
  rewrite !lookup_delete_ne by done.
  by rewrite !lookup_insert_ne by done.
Qed.

(** X14.  [request()] too reads its own keywords only: any other keyword
    changes nothing, the call ends the same way in the same state. *)
Theorem request_drops_unknown_keywords env url ua callable kwargs key v r :
  key ∉ request_keywords →
  request env url ua callable (<[key := v]> kwargs) r = request env url ua callable kwargs r.
Proof.
  intros Hkey. unfold request_keywords in Hkey.
  rewrite !not_elem_of_cons in Hkey.
  destruct Hkey as (_ & _ & _ & _ & ? & ? & ? & ? & ? & ? & ? & _).
  unfold request. apply bind_ext. intros _ r1.
  unfold pop_default, pop. cbv beta iota zeta.
  rewrite !lookup_delete_ne by done.
  rewrite !lookup_insert_ne by done.
  destruct (kwargs !! "page_width") as [width|]; [|done].
  rewrite !bind_lift_Ok.
  rewrite !lookup_delete_ne by done.
  rewrite !lookup_insert_ne by done.
  destruct (kwargs !! "page_height") as [height|]; [|done].
  rewrite !bind_lift_Ok.
  rewrite !lookup_delete_ne by done.
  by rewrite !lookup_insert_ne by done.
Qed.

End Keywords.

Lemma init_ignores_single_window_dimension_witness :
  PyppeteerRequest.__init__ width_only_kwargs None (mkStore ∅ ∅)
  = PyppeteerRequest.__init__ (delete "window_width" (delete "window_height" width_only_kwargs))
                              None (mkStore ∅ ∅)
  ∧ PyppeteerRequest.launch_args
      (PyppeteerRequest.__init__ width_only_kwargs None (mkStore ∅ ∅)).2
      (PyppeteerRequest.__init__ width_only_kwargs None (mkStore ∅ ∅)).1
    = caller_args None (mkStore ∅ ∅) ++ [disable_infobars]
      ++ (if maximize_enabled width_only_kwargs then [start_maximized] else []).
Proof. apply (init_ignores_single_window_dimension width_only_kwargs None (mkStore ∅ ∅)). reflexivity. Defined.

Lemma init_drops_unknown_keywords_witness :
  PyppeteerRequest.__init__ (<["devtools" := PBool true]> headless_kwargs) None (mkStore ∅ ∅)
  = PyppeteerRequest.__init__ headless_kwargs None (mkStore ∅ ∅).
Proof.
  apply (init_drops_unknown_keywords headless_kwargs "devtools" (PBool true) None (mkStore ∅ ∅)).
  apply (bool_decide_unpack _). by vm_compute.
Defined.

Lemma request_drops_unknown_keywords_witness :
  PyppeteerRequest.request quiet_env "http://fast.test" None HNone
                           (<["timeout" := PInt 5]> plain_kwargs) fresh_run
  = PyppeteerRequest.request quiet_env "http://fast.test" None HNone plain_kwargs fresh_run.
Proof.
  apply (request_drops_unknown_keywords quiet_env "http://fast.test" None HNone plain_kwargs
           "timeout" (PInt 5) fresh_run).
  apply (bool_decide_unpack _). by vm_compute.
Defined.

(** ** Failures that leave [request()] *)

Section Propagation.

Import PyppeteerRequest.
Variable env : Env.

(** X15.  When the browser cannot be launched, [request()] ends with the
    error of the launch, having issued no other call; the controller and
    the store are as they were, so nothing was written into the dict a
    response holder of an earlier call reads. *)
Theorem request_launch_failure_propagates url ua callable kwargs r e :
  _initialized (self r) = false →
  fails env (length (trace r)) (AwaitLaunch (_launcher (self r))) = Some e →
  request env url ua callable kwargs r
  = (Raise e, mkRun (self r) (store r) (trace r ++ [AwaitLaunch (_launcher (self r))])).
Proof.
  intros Hi Hf. unfold request. apply bind_raise.
  unfold init. rewrite bind_get_self, Hi. simpl. unfold bind, invoke. by rewrite Hf.
Qed.

Hypothesis Hresp : responsive env.

Lemma init_run_calls r :
  well_formed r →
  ∃ b, init env r
       = (Ok tt, mkRun (mkRequest (_launcher (self r)) true (Some b)
                                  (_enabled_interception (self r)) (_meta_data (self r)))
                       (store r) (trace r ++ launch_calls r)).
Proof.
  intros Hwf. unfold init, launch_calls. rewrite bind_get_self.
  destruct r as [[l i br ei md] st tr]. unfold well_formed in Hwf. simpl in *.
  destruct i; simpl.
  - destruct (Hwf eq_refl) as [b ->]. exists b. by rewrite app_nil_r.
  - rewrite (bind_invoke_run env Hresp) by done. simpl. by eexists.
Qed.

(** X16.  Only the timeout of navigation is caught.  When [page.goto]
    fails for another reason, the error leaves [request()] right after the
    navigation call: nothing is written to the store, neither the page nor
    the browser is closed, and the controller still counts as
    initialised. *)
Theorem request_navigation_error_propagates url ua callable kwargs r e :
  (∀ n p, fails env n (Goto p url 30000 "load") = Some e) →
  (∀ msg, e ≠ TimeoutError msg) →
  well_formed r →
  is_Some (kwargs !! "page_width") →
  is_Some (kwargs !! "page_height") →
  (truthy (keyword kwargs "enabled_interception" (PBool false)) = true →
   iscoroutinefunction callable = true) →
  ∃ b r',
    let p := opened env (length (trace r ++ launch_calls r)) in
    request env url ua callable kwargs r = (Raise e, r')
    ∧ trace r' = trace r ++ launch_calls r
                         ++ calls_before_navigation env ua callable kwargs b p
                         ++ [Goto p url 30000 "load"]
    ∧ store r' = store r
    ∧ _initialized (self r') = true
    ∧ _browser (self r') = Some b.
Proof.
  intros Hnav Hne Hwf [width Hwidth] [height Hheight] Hco.
  destruct (init_run_calls r Hwf) as (b & Hinit).
  exists b. unfold request. rewrite (bind_run _ _ _ _ _ Hinit).
  unfold pop_default, pop. cbv beta iota zeta.
  rewrite !lookup_delete_ne by done. rewrite Hwidth, bind_lift_Ok.
  rewrite !lookup_delete_ne by done. rewrite Hheight, bind_lift_Ok, bind_get_self.
  cbn [self store trace _browser].
  rewrite (bind_invoke_run env Hresp) by done. cbn [self store trace].
  set (p := opened env (length (trace r ++ launch_calls r))).
  replace (match ua with
           | Some ua => invoke_ env (SetUserAgent p ua)
           | None => invoke_ env (SetUserAgent p default_ua)
           end)
    with (invoke_ env (SetUserAgent p (default default_ua ua))) by (by destruct ua).
  unfold invoke_ at 1 2. do 2 (rewrite (bind_invoke_run env Hresp) by done).
  cbn [self store trace].
  rewrite !lookup_delete_ne by done.
  set (pretend := truthy (default (PBool true) (kwargs !! "pretend"))).
  replace (if pretend
           then for_each (SCRIPTS env) (λ script, invoke_ env (EvaluateOnNewDocument p script))
           else ret ())
    with (for_each (if pretend then SCRIPTS env else [])
                   (λ script, invoke_ env (EvaluateOnNewDocument p script)))
    by (by destruct pretend).
  rewrite (bind_run _ _ _ _ _ (for_each_scripts_run env Hresp p _ _)). cbn [self store trace].
  rewrite bind_enabled_interception, bind_get_self.
  cbn [self store trace _enabled_interception truthy].
  set (tr := ((((trace r ++ launch_calls r) ++ _) ++ _) ++ _) ++ _).
  set (on := truthy (default (PBool false) (kwargs !! "enabled_interception"))) in *.
  assert (Harm :
    ∀ B (k : unit → M B) s st,
      bind (if on
            then bind (invoke_ env (SetRequestInterception p true))
                   (λ _, bind (if negb (handler_truthy callable)
                               then emit (On p "request" DefaultListener) else ret tt)
                           (λ _, if iscoroutinefunction callable
                                 then emit (On p "request" (UserListener callable))
                                 else raise (TypeError "callable must be coroutine function.")))
            else ret tt) k (mkRun s st tr)
      = k tt (mkRun s st (tr ++ (if on
                                 then [SetRequestInterception p true;
                                       On p "request" (UserListener callable)]
                                 else [])))).
  { unfold keyword in Hco. fold on in Hco. destruct on.
    - specialize (Hco eq_refl). destruct callable as [|f|f]; try done.
      intros B k s st. rewrite bind_assoc. unfold invoke_.
      rewrite (bind_invoke_run env Hresp) by done. cbn [self store trace].
      cbn [negb handler_truthy iscoroutinefunction].
      rewrite bind_assoc, bind_ret, bind_emit. cbn [self store trace].
      by rewrite <- app_assoc.
    - intros B k s st. by rewrite bind_ret, app_nil_r. }
  rewrite Harm. clear Harm.
  eexists. cbv zeta. split.
  - apply bind_raise. unfold except_timeout, invoke. cbn [self store trace].
    rewrite Hnav. destruct e; try reflexivity. by destruct (Hne msg).
  - cbn [self store trace _initialized _browser]. split; [|done].
    unfold tr, calls_before_navigation, keyword, resolve_size. fold p pretend on.
    rewrite Hwidth, Hheight. cbn [default].
    destruct pretend; by repeat (rewrite <- app_assoc; simpl).
Qed.

(** X17.  Navigation that yields no response, as [page.goto] does for
    [about:blank], ends [request()] in an [AttributeError]: the delay, the
    wait and the script have run, the cookies and the text of the page are
    already written into the controller's dict, the other entries are
    still the old ones, and neither the page nor the browser is closed. *)
Theorem request_without_response_raises url ua callable kwargs r :
  (∀ n p, fails env n (Goto p url 30000 "load") = None) →
  (∀ n, navigated env n = None) →
  well_formed r →
  is_Some (kwargs !! "page_width") →
  is_Some (kwargs !! "page_height") →
  (truthy (keyword kwargs "enabled_interception" (PBool false)) = true →
   iscoroutinefunction callable = true) →
  ∃ b r' nc nt,
    let p := opened env (length (trace r ++ launch_calls r)) in
    request env url ua callable kwargs r
    = (Raise (AttributeError "'NoneType' object has no attribute 'status'"), r')
    ∧ trace r' = trace r ++ launch_calls r
                         ++ calls_before_navigation env ua callable kwargs b p
                         ++ [Goto p url 30000 "load"]
                         ++ calls_after_navigation kwargs p
    ∧ store r' = write_dict (_meta_data (self r))
                   (<["text" := content_of env nt]>
                      (<["cookies" := cookies_of env nc]>
                         (read_dict (store r) (_meta_data (self r)))))
                   (store r)
    ∧ _initialized (self r') = true
    ∧ _browser (self r') = Some b.
Proof.
  intros Hok Hnone Hwf [width Hwidth] [height Hheight] Hco.
  destruct (init_run_calls r Hwf) as (b & Hinit).
  exists b. unfold request. rewrite (bind_run _ _ _ _ _ Hinit).
  unfold pop_default, pop. cbv beta iota zeta.
  rewrite !lookup_delete_ne by done. rewrite Hwidth, bind_lift_Ok.
  rewrite !lookup_delete_ne by done. rewrite Hheight, bind_lift_Ok, bind_get_self.
  cbn [self store trace _browser].
  rewrite (bind_invoke_run env Hresp) by done. cbn [self store trace].
  set (p := opened env (length (trace r ++ launch_calls r))).
  replace (match ua with
           | Some ua => invoke_ env (SetUserAgent p ua)
           | None => invoke_ env (SetUserAgent p default_ua)
           end)
    with (invoke_ env (SetUserAgent p (default default_ua ua))) by (by destruct ua).
  unfold invoke_ at 1 2. do 2 (rewrite (bind_invoke_run env Hresp) by done).
  cbn [self store trace].
  rewrite !lookup_delete_ne by done.
  set (pretend := truthy (default (PBool true) (kwargs !! "pretend"))).
  replace (if pretend
           then for_each (SCRIPTS env) (λ script, invoke_ env (EvaluateOnNewDocument p script))
           else ret ())
    with (for_each (if pretend then SCRIPTS env else [])
                   (λ script, invoke_ env (EvaluateOnNewDocument p script)))
    by (by destruct pretend).
  rewrite (bind_run _ _ _ _ _ (for_each_scripts_run env Hresp p _ _)). cbn [self store trace].
  rewrite bind_enabled_interception, bind_get_self.
  cbn [self store trace _enabled_interception truthy].
  set (tr := ((((trace r ++ launch_calls r) ++ _) ++ _) ++ _) ++ _).
  set (on := truthy (default (PBool false) (kwargs !! "enabled_interception"))) in *.
  assert (Harm :
    ∀ B (k : unit → M B) s st,
      bind (if on
            then bind (invoke_ env (SetRequestInterception p true))
                   (λ _, bind (if negb (handler_truthy callable)
                               then emit (On p "request" DefaultListener) else ret tt)
                           (λ _, if iscoroutinefunction callable
                                 then emit (On p "request" (UserListener callable))
                                 else raise (TypeError "callable must be coroutine function.")))
            else ret tt) k (mkRun s st tr)
      = k tt (mkRun s st (tr ++ (if on
                                 then [SetRequestInterception p true;
                                       On p "request" (UserListener callable)]
                                 else [])))).
  { unfold keyword in Hco. fold on in Hco. destruct on.
    - specialize (Hco eq_refl). destruct callable as [|f|f]; try done.
      intros B k s st. rewrite bind_assoc. unfold invoke_.
      rewrite (bind_invoke_run env Hresp) by done. cbn [self store trace].
      cbn [negb handler_truthy iscoroutinefunction].
      rewrite bind_assoc, bind_ret, bind_emit. cbn [self store trace].
      by rewrite <- app_assoc.
    - intros B k s st. by rewrite bind_ret, app_nil_r. }
  rewrite Harm. clear Harm.
  set (s := mkRequest _ _ _ _ _).
  set (before := tr ++ (if on then _ else _)).
  assert (Hgoto :
    except_timeout (invoke env (Goto p url 30000 "load") (navigated env))
      (λ e, bind (emit (Print ("Error during page.goto(): " +:+ e)))
              (λ _, ret (Some (Response.mk (PInt 504) PNone PEmptyDict))))
      (mkRun s (store r) before)
    = (Ok None, mkRun s (store r) (before ++ [Goto p url 30000 "load"]))).
  { unfold except_timeout, invoke. cbn [self store trace]. by rewrite Hok, Hnone. }
  rewrite (bind_run _ _ _ _ _ Hgoto).
  do 2 (rewrite (bind_optional_invoke_run env Hresp) by done; cbn [self store trace]).
  rewrite ?lookup_delete_ne by done.
  rewrite (bind_optional_evaluate_run env Hresp) by done. cbn [self store trace].
  rewrite (bind_invoke_run env Hresp) by done. cbn [self store trace].
  rewrite bind_set_meta. cbn [self store trace].
  rewrite (bind_invoke_run env Hresp) by done. cbn [self store trace].
  rewrite bind_set_meta. cbn [self store trace].
  eexists _, _, _. cbv zeta. split; [reflexivity|].
  cbn [self store trace _initialized _browser]. split; [|split; [|done]].
  - unfold before, tr, calls_before_navigation, calls_after_navigation, keyword, resolve_size.
    fold p pretend on. rewrite Hwidth, Hheight. cbn [default].
    destruct pretend; by repeat (rewrite <- app_assoc; simpl).
  - subst s. cbn [_meta_data]. by rewrite read_write_dict, write_write_dict.
Qed.

End Propagation.

Lemma request_launch_failure_propagates_witness :
  PyppeteerRequest.request no_browser_env "http://fast.test" None HNone plain_kwargs fresh_run
  = (Raise (BrowserError "Browser closed unexpectedly"),
     PyppeteerRequest.mkRun (PyppeteerRequest.self fresh_run) (PyppeteerRequest.store fresh_run)
       (PyppeteerRequest.trace fresh_run
        ++ [AwaitLaunch (PyppeteerRequest._launcher (PyppeteerRequest.self fresh_run))])).
Proof.
  apply (request_launch_failure_propagates no_browser_env "http://fast.test" None HNone
           plain_kwargs fresh_run (BrowserError "Browser closed unexpectedly")); reflexivity.
Defined.

Lemma refusing_env_responsive : responsive refusing_env.
Proof. intros n c Hc. by destruct c. Qed.

Lemma request_navigation_error_propagates_witness :
  ∃ b r',
    let p := opened refusing_env
               (length (PyppeteerRequest.trace fresh_run ++ launch_calls fresh_run)) in
    PyppeteerRequest.request refusing_env "http://nowhere.test" None HNone plain_kwargs fresh_run
    = (Raise (BrowserError "net::ERR_NAME_NOT_RESOLVED at http://nowhere.test"), r')
    ∧ PyppeteerRequest.trace r'
      = PyppeteerRequest.trace fresh_run ++ launch_calls fresh_run
          ++ calls_before_navigation refusing_env None HNone plain_kwargs b p
          ++ [Goto p "http://nowhere.test" 30000 "load"]
    ∧ PyppeteerRequest.store r' = PyppeteerRequest.store fresh_run
    ∧ PyppeteerRequest._initialized (PyppeteerRequest.self r') = true
    ∧ PyppeteerRequest._browser (PyppeteerRequest.self r') = Some b.
Proof.
  apply (request_navigation_error_propagates refusing_env refusing_env_responsive
           "http://nowhere.test" None HNone plain_kwargs fresh_run
           (BrowserError "net::ERR_NAME_NOT_RESOLVED at http://nowhere.test")).
  - reflexivity.
  - discriminate.
  - discriminate.
  - by eexists.
  - by eexists.
  - discriminate.
Defined.

Lemma request_without_response_raises_witness :
  ∃ b r' nc nt,
    let p := opened blank_env
               (length (PyppeteerRequest.trace fresh_run ++ launch_calls fresh_run)) in
    PyppeteerRequest.request blank_env "about:blank" None HNone busy_kwargs fresh_run
    = (Raise (AttributeError "'NoneType' object has no attribute 'status'"), r')
    ∧ PyppeteerRequest.trace r'
      = PyppeteerRequest.trace fresh_run ++ launch_calls fresh_run
          ++ calls_before_navigation blank_env None HNone busy_kwargs b p
          ++ [Goto p "about:blank" 30000 "load"]
          ++ calls_after_navigation busy_kwargs p
    ∧ PyppeteerRequest.store r'
      = write_dict (PyppeteerRequest._meta_data (PyppeteerRequest.self fresh_run))
          (<["text" := content_of blank_env nt]>
             (<["cookies" := cookies_of blank_env nc]>
                (read_dict (PyppeteerRequest.store fresh_run)
                           (PyppeteerRequest._meta_data (PyppeteerRequest.self fresh_run)))))
          (PyppeteerRequest.store fresh_run)
    ∧ PyppeteerRequest._initialized (PyppeteerRequest.self r') = true
    ∧ PyppeteerRequest._browser (PyppeteerRequest.self r') = Some b.
Proof.
  apply (request_without_response_raises blank_env quiet_env_responsive
           "about:blank" None HNone busy_kwargs fresh_run).
  - reflexivity.
  - reflexivity.
  - discriminate.
  - by eexists.
  - by eexists.
  - discriminate.
Defined.

(** ** Holders and the one-shot function *)

Section OneShot.

Import PyppeteerRequest.

Lemma foreign_dict_view_ignores_own_dict l0 :
  ∀ (l : Launcher) (m : loc) st key (v : pyval),
    foreign_dict_view l0 (l, m, write_dict m (<[key := v]> (read_dict st m)) st)
    = foreign_dict_view l0 (l, m, st).
Proof.
  intros l m st key v. unfold foreign_dict_view. cbn [fst snd].
  destruct (decide (m = l0)); [done|].
  unfold write_dict. cbn [dicts]. by rewrite lookup_insert_ne.
Qed.

Lemma new_controller_fields kwargs given st :
  _initialized (__init__ kwargs given st).1 = false
  ∧ _browser (__init__ kwargs given st).1 = None.
Proof. by destruct given. Qed.

Lemma get_unfold env url delay wait_for page_width page_height interception script callable
      kwargs given st tr :
  get env url delay wait_for page_width page_height interception script callable
      kwargs given st tr
  = request env url None callable
      (forwarded delay wait_for page_width page_height
                 (default (PBool true) (kwargs !! "pretend")) interception script)
      (mkRun (__init__ (delete "pretend" kwargs) given st).1
             (__init__ (delete "pretend" kwargs) given st).2 tr).
Proof.
  unfold get, pop_default, forwarded.
  by destruct (__init__ (delete "pretend" kwargs) given st).
Qed.

(** X18.  A holder made without a dict, [PyppeteerResponse()], gets a new
    empty dict of its own: each of its accessors reads [None], and the
    holders that exist keep reading what they read before. *)
Theorem response_without_dict_reads_None st resp key :
  let out := PyppeteerResponse.__init__ None st in
  PyppeteerResponse.get key out.2 out.1 = PNone
  ∧ dicts st !! PyppeteerResponse.meta_data out.1 = None
  ∧ (is_Some (dicts st !! PyppeteerResponse.meta_data resp) →
     PyppeteerResponse.get key out.2 resp = PyppeteerResponse.get key st resp).
Proof.
  cbv zeta. unfold PyppeteerResponse.__init__, new_dict, PyppeteerResponse.get.
  cbn [fst snd PyppeteerResponse.meta_data].
  assert (Hfresh : dicts st !! fresh (dom (dicts st)) = None)
    by apply not_elem_of_dom, is_fresh.
  split; [by rewrite read_write_dict|]. split; [done|].
  intros [d Hd]. unfold read_dict, write_dict. cbn [dicts].
  rewrite lookup_insert_ne; [done|]. intros Heq. by rewrite <- Heq, Hfresh in Hd.
Qed.

(** X19.  [get()] in a browser in which no call but navigation fails and
    navigation yields a response or times out: whatever is passed, the page
    size included or not, as long as a handler given together with
    interception is a coroutine function, the call returns a holder.  The
    holder's dict did not exist before the call; the browser was launched
    anew, the page got the built-in user agent and the viewport asked for
    (800 and 600 where the size was left out), and the last call closed the
    browser. *)
Theorem get_renders_on_a_new_controller env url delay wait_for page_width page_height
        interception script callable kwargs given st tr :
  responsive env →
  navigation_returns_or_times_out env url →
  (truthy interception = true → iscoroutinefunction callable = true) →
  ∃ resp r' b p rest,
    get env url delay wait_for page_width page_height interception script callable
        kwargs given st tr = (Ok resp, r')
    ∧ dicts st !! PyppeteerResponse.meta_data resp = None
    ∧ trace r' = tr ++ [AwaitLaunch (_launcher (self r')); NewPage b;
                        SetUserAgent p default_ua;
                        SetViewport p (resolve_size 800 page_width)
                                      (resolve_size 600 page_height)]
                    ++ rest ++ [ClosePage p; CloseBrowser b]
    ∧ _initialized (self r') = false.
Proof.
  intros Hresp Hnav Hco. rewrite get_unfold. cbv beta.
  set (kw := forwarded _ _ _ _ _ _ _).
  set (c := __init__ (delete "pretend" kwargs) given st).
  assert (Hw : kw !! "page_width" = Some page_width) by done.
  assert (Hh : kw !! "page_height" = Some page_height) by done.
  assert (Hi : kw !! "enabled_interception" = Some interception) by done.
  destruct (request_returns env Hresp url None callable kw (mkRun c.1 c.2 tr) Hnav)
    as (resp & r' & Hrun).
  { apply new_controller_well_formed. }
  { by eexists. }
  { by eexists. }
  { by rewrite Hi. }
  pose proof Hrun as Hinv. apply request_Ok_inv in Hinv.
  destruct Hinv as (b0 & p0 & evs & response0 & c0 & t0 & sr0 & w & h & Hinv).
  destruct Hinv as (_ & _ & Hself & -> & _).
  pose proof Hrun as Hcalls. apply request_Ok_calls in Hcalls.
  destruct Hcalls as (b & nav & response & nc & nt & sr & Hcalls). cbv zeta in Hcalls.
  destruct Hcalls as (Htr & _).
  destruct (new_controller_fields (delete "pretend" kwargs) given st) as (Hinit & _).
  fold c in Hinit.
  unfold launch_calls, calls_before_navigation in Htr.
  cbn [self store trace] in Htr. rewrite Hinit in Htr. cbn [default] in Htr.
  unfold keyword at 1 2 in Htr. rewrite Hw, Hh in Htr. cbn [default] in Htr.
  set (p := opened env (length (tr ++ [AwaitLaunch (_launcher c.1)]))) in Htr.
  exists (PyppeteerResponse.mk (_meta_data c.1)), r', b, p.
  exists ((if truthy (keyword kw "pretend" (PBool true))
           then map (EvaluateOnNewDocument p) (SCRIPTS env) else [])
          ++ (if truthy (keyword kw "enabled_interception" (PBool false))
              then [SetRequestInterception p true; On p "request" (UserListener callable)]
              else [])
          ++ [Goto p url 30000 "load"] ++ nav ++ calls_after_navigation kw p).
  split; [exact Hrun|]. split.
  { cbn [PyppeteerResponse.meta_data].
    by destruct (init_store (delete "pretend" kwargs) given st) as (Hfresh & _). }
  split; [|by rewrite Hself].
  rewrite Htr, Hself. cbn [_launcher]. rewrite <- !app_assoc. reflexivity.
Qed.

(** X20.  [get()] works on a controller and a dict of its own: however it
    ends, the response holders that exist keep reading the same values. *)
Theorem get_leaves_existing_holders env url delay wait_for page_width page_height
        interception script callable kwargs given st tr resp key :
  is_Some (dicts st !! PyppeteerResponse.meta_data resp) →
  PyppeteerResponse.get key
    (store (get env url delay wait_for page_width page_height interception script callable
                kwargs given st tr).2) resp
  = PyppeteerResponse.get key st resp.
Proof.
  intros [d Hd]. rewrite get_unfold. cbv beta.
  set (kw := forwarded _ _ _ _ _ _ _).
  destruct (init_store (delete "pretend" kwargs) given st) as (Hfresh & Hdicts & _).
  cbv zeta in Hfresh, Hdicts.
  set (c := __init__ (delete "pretend" kwargs) given st) in *.
  assert (Hne : _meta_data c.1 ≠ PyppeteerResponse.meta_data resp).
  { intros Heq. by rewrite Heq, Hd in Hfresh. }
  destruct (request env url None callable kw (mkRun c.1 c.2 tr)) as [res r'] eqn:Hrun.
  apply (keeps_view_request (foreign_dict_view (PyppeteerResponse.meta_data resp))
           (foreign_dict_view_ignores_own_dict _)) in Hrun.
  unfold foreign_dict_view, core in Hrun. cbn [fst snd self store] in Hrun.
  injection Hrun as Hm Hv. rewrite Hm in Hv.
  destruct (decide (_meta_data c.1 = PyppeteerResponse.meta_data resp)); [done|].
  injection Hv as Hv. cbn [snd]. unfold PyppeteerResponse.get, read_dict.
  by rewrite Hv, Hdicts, lookup_insert_ne.
Qed.

End OneShot.

Lemma response_without_dict_reads_None_witness :
  PyppeteerResponse.get "text" (PyppeteerRequest.store quiet_render.2) (PyppeteerResponse.mk 0)
  = PyppeteerResponse.get "text"
      (PyppeteerResponse.__init__ None (PyppeteerRequest.store quiet_render.2)).2
      (PyppeteerResponse.mk 0).
Proof.
  symmetry.
  apply (response_without_dict_reads_None (PyppeteerRequest.store quiet_render.2)
           (PyppeteerResponse.mk 0) "text").
  apply (bool_decide_unpack _). by vm_compute.
Defined.

Lemma get_renders_on_a_new_controller_witness :
  ∃ resp r' b p rest,
    get (hanging_env "http://slow.test") "http://slow.test" PNone PNone PNone (PInt 720)
        PNone PNone HNone ∅ None (mkStore ∅ ∅) []
    = (Ok resp, r')
    ∧ dicts (mkStore ∅ ∅) !! PyppeteerResponse.meta_data resp = None
    ∧ PyppeteerRequest.trace r'
      = [] ++ [AwaitLaunch (PyppeteerRequest._launcher (PyppeteerRequest.self r')); NewPage b;
               SetUserAgent p PyppeteerRequest.default_ua;
               SetViewport p (resolve_size 800 PNone) (resolve_size 600 (PInt 720))]
           ++ rest ++ [ClosePage p; CloseBrowser b]
    ∧ PyppeteerRequest._initialized (PyppeteerRequest.self r') = false.
Proof.
  apply (get_renders_on_a_new_controller (hanging_env "http://slow.test") "http://slow.test"
           PNone PNone PNone (PInt 720) PNone PNone HNone ∅ None (mkStore ∅ ∅) []).
  - apply hanging_env_responsive.
  - intros n p. right. eexists. apply hanging_env_times_out.
  - discriminate.
Defined.

Lemma get_leaves_existing_holders_witness :
  PyppeteerResponse.get "status"
    (PyppeteerRequest.store
       (get (hanging_env "http://slow.test") "http://slow.test" PNone PNone PNone PNone
            PNone PNone HNone ∅ None (PyppeteerRequest.store quiet_render.2) []).2)
    (PyppeteerResponse.mk 0)
  = PyppeteerResponse.get "status" (PyppeteerRequest.store quiet_render.2)
                          (PyppeteerResponse.mk 0).
Proof.
  apply (get_leaves_existing_holders (hanging_env "http://slow.test") "http://slow.test"
           PNone PNone PNone PNone PNone PNone HNone ∅ None
           (PyppeteerRequest.store quiet_render.2) [] (PyppeteerResponse.mk 0) "status").
  apply (bool_decide_unpack _). by vm_compute.
Defined.
